(** * appengine.py: folder synchronisation, cache manifest and pipeline stages

    A shallow embedding of [src/appengine.py].  Python strings are Rocq
    strings, the object store is a finite map from (bucket, blob name) to
    bytes, the local disk is a finite map from paths to directory entries,
    and every handler is a function of the world that returns the new world
    together with either a value or the exception it raised. *)

From Stdlib Require Import String Ascii List ZArith Lia Permutation.
From Stdlib Require Import Sorting.Sorted.
From stdpp Require Import base option list gmap strings sorting.

Local Open Scope string_scope.
Local Open Scope list_scope.

(** ** Python string primitives *)

Module Py.

(** [s.startswith(p)] *)
Fixpoint startswith (p s : string) : bool :=
  match p, s with
  | EmptyString, _ => true
  | String a p', String b s' => if Ascii.eqb a b then startswith p' s' else false
  | String _ _, EmptyString => false
  end.

(** [sub in s] for strings *)
Fixpoint contains (sub s : string) : bool :=
  if startswith sub s then true
  else match s with
       | EmptyString => false
       | String _ s' => contains sub s'
       end.

Definition cons_hd (c : ascii) (pieces : list string) : list string :=
  match pieces with
  | [] => [String c EmptyString]
  | h :: t => String c h :: t
  end.

(** [s.split(sep, maxsplit)] for a non-empty [sep]: the leftmost occurrences
    of [sep] are cut out, at most [maxsplit] of them ([None] is Python's
    default of -1, no limit).  [skip] counts the characters of a matched
    separator that are still to be dropped. *)
Fixpoint split_go (sep : string) (maxsplit : option nat) (skip : nat)
    (s : string) : list string :=
  match s with
  | EmptyString => [EmptyString]
  | String c s' =>
    match skip with
    | S k => split_go sep maxsplit k s'
    | O =>
      match maxsplit with
      | Some O => [s]
      | _ =>
        if startswith sep s
        then EmptyString :: split_go sep (Nat.pred <$> maxsplit) (String.length sep - 1) s'
        else cons_hd c (split_go sep maxsplit 0 s')
      end
    end
  end.

Definition split (sep : string) (maxsplit : option nat) (s : string) : list string :=
  split_go sep maxsplit 0 s.

(** [l[-1]] and [l[0]] on the non-empty lists that [split] returns *)
Definition item_last (l : list string) : string := List.last l EmptyString.
Definition item_first (l : list string) : string := List.hd EmptyString l.

(** [sep.join(l)] *)
Fixpoint join (sep : string) (l : list string) : string :=
  match l with
  | [] => EmptyString
  | [x] => x
  | x :: rest => x +:+ sep +:+ join sep rest
  end.

(** [x or y] on optional strings: [None] and the empty string are falsy. *)
Definition or_str (x y : option string) : option string :=
  match x with
  | Some EmptyString | None => y
  | Some _ => x
  end.

(** [x or y] on optional integers: [None] and [0] are falsy. *)
Definition or_int (x y : option Z) : option Z :=
  match x with
  | Some 0%Z | None => y
  | Some _ => x
  end.

(** [sorted(l)] on a list of strings: the ascending rearrangement of [l] in
    the order of [str.__le__], which compares code units lexicographically. *)
Fixpoint insert_sorted (x : string) (l : list string) : list string :=
  match l with
  | [] => [x]
  | y :: l' => if String.leb x y then x :: l else y :: insert_sorted x l'
  end.

Definition sorted (l : list string) : list string :=
  List.fold_right insert_sorted [] l.

End Py.

(** ** Paths, the local disk and the object store *)

(** Contents of a file or of a blob. *)
Abbreviation content := (list Byte.byte).

(** A [pathlib.Path]: the components below the filesystem root. *)
Abbreviation path := (list string).

Inductive node :=
| Dir
| File (data : content).

#[global] Instance byte_eq_dec : EqDecision Byte.byte := Byte.byte_eq_dec.

#[global] Instance node_eq_dec : EqDecision node.
Proof. solve_decision. Defined.

Module Path.

(** The components of a path given as text: [Path(s).parts] without the
    root.  Empty components and ["."] are dropped, as [pathlib] does. *)
Definition parts (s : string) : path :=
  filter (λ c, c ≠ EmptyString ∧ c ≠ ".") (Py.split "/" None s).

(** [base / s]: an absolute [s] replaces [base]. *)
Definition div (base : path) (s : string) : path :=
  if Py.startswith "/" s then parts s else base ++ parts s.

(** [p.parent] *)
Definition parent (p : path) : path := List.removelast p.

(** Where the components [rest] lead from the directory [base] once each
    [..] is taken as a step back to the directory above, the root being
    above itself. *)
Fixpoint normal_from (base rest : path) : path :=
  match rest with
  | [] => base
  | c :: rest' =>
    if decide (c = "..") then normal_from (parent base) rest'
    else normal_from (base ++ [c]) rest'
  end.

(** [os.path.normpath(p)] for a path from the root. *)
Definition normal (p : path) : path := normal_from [] p.

(** [p.name] *)
Definition name (p : path) : string := List.last p EmptyString.

(** [p.relative_to(d)]; [None] stands for the [ValueError] raised when [d]
    is not an ancestor of [p]. *)
Fixpoint relative_to (p d : path) : option path :=
  match d, p with
  | [], _ => Some p
  | x :: d', y :: p' => if decide (x = y) then relative_to p' d' else None
  | _ :: _, [] => None
  end.

(** [str(p)] for a relative path *)
Definition str (p : path) : string :=
  match p with
  | [] => "."
  | _ => Py.join "/" p
  end.

End Path.

(** [s.endswith("/")] *)
Fixpoint ends_with_slash (s : string) : bool :=
  match s with
  | EmptyString => false
  | String c EmptyString => Ascii.eqb c "/"
  | String _ s' => ends_with_slash s'
  end.

(** [os.path.join(a, b)] of [posixpath] *)
Definition os_path_join (a b : string) : string :=
  if Py.startswith "/" b then b
  else if (String.eqb a EmptyString || ends_with_slash a)%bool then a +:+ b
  else a +:+ "/" +:+ b.

Module Disk.

Definition is_dir (fs : gmap path node) (p : path) : bool :=
  match p with
  | [] => true
  | _ => bool_decide (fs !! p = Some Dir)
  end.

(** [p.mkdir(parents=True, exist_ok=True)].  The disk is keyed by the
    paths the operating system resolves to, so the components of [p] are
    walked from the root, [base] being the directory reached so far: a
    component [..] leads back to the directory above, any other component
    is made a directory when nothing is there.  [None] when a regular file
    is in the way ([FileExistsError] or [NotADirectoryError]). *)
Fixpoint mkdirs (base : path) (rest : list string) (fs : gmap path node)
    : option (gmap path node) :=
  match rest with
  | [] => Some fs
  | c :: rest' =>
    if decide (c = "..") then mkdirs (Path.parent base) rest' fs
    else
      let q := base ++ [c] in
      match fs !! q with
      | Some (File _) => None
      | Some Dir => mkdirs q rest' fs
      | None => mkdirs q rest' (<[q := Dir]> fs)
      end
  end.

Definition mkdir_p (p : path) (fs : gmap path node) : option (gmap path node) :=
  mkdirs [] p fs.

(** The entry the operating system reaches through the components [rest]
    from the directory [base]: [..] leads back to the directory above, and
    every other component but the last has to be a directory that is
    there. *)
Fixpoint locate (base : path) (rest : list string) (fs : gmap path node) : option path :=
  match rest with
  | [] => Some base
  | c :: rest' =>
    if decide (c = "..") then locate (Path.parent base) rest' fs
    else match rest' with
         | [] => Some (base ++ [c])
         | _ :: _ => if is_dir fs (base ++ [c]) then locate (base ++ [c]) rest' fs else None
         end
  end.

(** [open(p, "wb")]: the entry that is opened; [None] when [p] leads through
    something that is not a directory, or ends at a directory. *)
Definition writable (p : path) (fs : gmap path node) : option path :=
  match locate [] p fs with
  | Some (c :: q) => if is_dir fs (c :: q) then None else Some (c :: q)
  | _ => None
  end.

(** [open(p, "wb")] followed by a write of [data]. *)
Definition write_file (p : path) (data : content) (fs : gmap path node)
    : option (gmap path node) :=
  (λ q, <[q := File data]> fs) <$> writable p fs.

(** The name pattern [*.*] of [fnmatch]: the name has a dot somewhere. *)
Definition matches_star_dot_star (name : string) : bool := Py.contains "." name.

(** [d.glob("**/*.*")]: every entry (file or directory) at any depth below
    [d] whose own name matches [*.*]. *)
Definition glob_selects (d p : path) : bool :=
  match Path.relative_to p d with
  | Some (c :: rel) => matches_star_dot_star (Path.name (c :: rel))
  | _ => false
  end.

Definition glob_dotted (d : path) (fs : gmap path node) : list path :=
  filter (λ p, Is_true (glob_selects d p)) (fst <$> map_to_list fs).

(** [shutil.rmtree(d)] *)
Definition rmtree (d : path) (fs : gmap path node) : gmap path node :=
  filter (λ kv, Path.relative_to kv.1 d = None) fs.

End Disk.

(** ** The world, exceptions and the handler monad *)

Inductive exn :=
| AssertionError
| OSError
| ValueError
| IndexError
| StoreError
| NetError
| CollaboratorError.

Inductive result (A : Type) :=
| Ok (a : A)
| Raise (e : exn).
Arguments Ok {A} a.
Arguments Raise {A} e.

(** What a handler does to its surroundings, in the order it does it. *)
Inductive event :=
| EvPrint (msg : string)
| EvStderr (e : exn)
| EvListBlobs (bucket prefix : string)
| EvDownloadAttempt (bucket name : string) (dst : path)
| EvUploadAttempt (bucket name : string) (src : path)
| EvUploadString (bucket name : string)
| EvFetch (url : string)
| EvMkdtemp (p : path)
| EvCleanup (p : path)
| EvMkdir (p : path)
| EvPipelineLoad (name : string)
| EvParse (folder : path)
| EvSaveIntermediate (folder : path)
| EvLoadIntermediate (folder : path)
| EvCombine
| EvExportCsv (file : path).

#[global] Instance exn_eq_dec : EqDecision exn.
Proof. solve_decision. Defined.

#[global] Instance event_eq_dec : EqDecision event.
Proof. solve_decision. Defined.

Record world := World {
  disk : gmap path node;
  store : gmap (string * string) content;
  trace : list event
}.

Definition set_disk (fs : gmap path node) (w : world) : world :=
  World fs (store w) (trace w).
Definition set_store (st : gmap (string * string) content) (w : world) : world :=
  World (disk w) st (trace w).
Definition emit (ev : event) (w : world) : world :=
  World (disk w) (store w) (trace w ++ [ev]).

Definition M (A : Type) : Type := world → world * result A.

Definition ret {A} (a : A) : M A := λ w, (w, Ok a).
Definition raise {A} (e : exn) : M A := λ w, (w, Raise e).
Definition bind {A B} (m : M A) (k : A → M B) : M B :=
  λ w, match m w with
       | (w', Ok a) => k a w'
       | (w', Raise e) => (w', Raise e)
       end.
Definition tell (ev : event) : M unit := λ w, (emit ev w, Ok tt).

Notation "'let*' x ':=' m 'in' k" := (bind m (λ x, k))
  (at level 10, x pattern, m at level 100, k at level 200).
Notation "m ';;' k" := (bind m (λ _, k))
  (at level 100, k at level 200, right associativity).

(** [assert c] *)
Definition py_assert (c : bool) : M unit :=
  if c then ret tt else raise AssertionError.

Record DataPipeline := { data_sources : list string }.

(** Intermediate results and combined tables are opaque to the handlers. *)
Definition results := list (string * content).

Record cache_source := { url : string; output : string }.

(** Everything the handlers read from outside [appengine.py]: constants of
    [lib.constants], the process environment, the HTTP request, the clock,
    the answers of the network and the pipeline collaborator. *)
Record env := Env {
  getenv : string → option string;
  GCS_BUCKET_PROD : string;
  GCS_BUCKET_TEST : string;
  (* does attempt [i] of this blob operation go through? *)
  download_ok : string → string → nat → bool;
  (* what a failed attempt [i] of a download leaves of the file it has opened
     for writing: so many bytes of the blob, or nothing when the library
     removes the file again *)
  download_leaves : string → string → nat → option nat;
  upload_ok : string → string → nat → bool;
  upload_string_ok : string → string → bool;
  (* lib.net.download: the body behind a URL, [None] when the fetch raises *)
  net_download : string → option content;
  (* json.load(SRC / "cache" / "config.json") *)
  cache_config : list cache_source;
  (* datetime.utcnow().strftime("%Y-%m-%d-%H") *)
  utcnow_stamp : string;
  (* tempfile: the directory of temporary files, an absolute normalised
     path, and the fresh name drawn *)
  gettempdir : path;
  mkdtemp_name : string;
  (* flask.request.args *)
  request_args : gmap string string;
  safe_int_cast : option string → option Z;
  get_table_names : list string;
  json_dumps : gmap string (list string) → content;
  (* lib.pipeline.DataPipeline and lib.io.export_csv *)
  pipeline_load : string → result DataPipeline;
  pipeline_parse : DataPipeline → path → gmap path node → gmap path node * result results;
  save_intermediate_results : path → results → gmap path node → gmap path node * result unit;
  load_intermediate_results : path → list string → gmap path node → result results;
  pipeline_combine : DataPipeline → results → result content;
  export_csv : content → path → gmap path node → gmap path node * result unit
}.

Definition BLOB_OP_MAX_RETRIES : nat := 3.

(** [get_storage_bucket]: the bucket named by the argument, or by the
    environment variable when the argument is empty. *)
Definition get_storage_bucket (e : env) (bucket_name : string) : M string :=
  let bucket_env_key := "GCS_BUCKET_NAME" in
  match Py.or_str (Some bucket_name) (getenv e bucket_env_key) with
  | Some b => ret b
  | None => raise AssertionError
  end.

(** [bucket.list_blobs(prefix=p)]: the names that start with [p], in the
    lexicographic order in which the store returns them. *)
Definition blob_names (bucket prefix : string) (st : gmap (string * string) content)
    : list string :=
  Py.sorted
    (snd <$> filter (λ k, k.1 = bucket ∧ Is_true (Py.startswith prefix k.2))
                    (fst <$> map_to_list st)).

Definition list_blobs (bucket prefix : string) : M (list string) :=
  λ w, (emit (EvListBlobs bucket prefix) w, Ok (blob_names bucket prefix (store w))).

(** ** FolderSync: [download_folder] and [upload_folder] *)

(** Modelled from the spec: [lib.concurrent.thread_map] is not among the
    sources.  The spec gives it barrier semantics (every task is run, none
    is abandoned early); consuming the results with [list(_)] then raises
    the first exception a task raised.  The tasks run here one after the
    other, in the order of the iterable. *)
Fixpoint thread_map {A B} (map_func : A → M B) (map_iter : list A) : M (list B) :=
  match map_iter with
  | [] => ret []
  | x :: rest =>
    λ w, let (w1, r) := map_func x w in
         let (w2, rs) := thread_map map_func rest w1 in
         (w2, match r, rs with
              | Ok b, Ok bs => Ok (b :: bs)
              | Raise ex, _ => Raise ex
              | Ok _, Raise ex => Raise ex
              end)
  end.

(** The loop shared by both transfers:
<<
    for _ in range(BLOB_OP_MAX_RETRIES):
        try:
            return op()
        except Exception as exc:
            print(exc, file=sys.stderr)
>>
    [i] numbers the attempt that comes next. *)
Fixpoint retry_loop (retries i : nat) (op : nat → M unit) : M unit :=
  match retries with
  | O => ret tt
  | S n =>
    λ w, match op i w with
         | (w', Ok r) => (w', Ok r)
         | (w', Raise exc) => retry_loop n (S i) op (emit (EvStderr exc) w')
         end
  end.

(** What a download that gave up leaves of the file it was writing. *)
Definition left_behind (leaves : option nat) (data : content) : option node :=
  (λ n, File (take n data)) <$> leaves.

(** One call of [blob.download_to_filename(file_path)].  The library opens
    the target for writing before it asks the store, so a call that cannot
    open it changes nothing, and a call that fails later leaves a truncated
    file, or none when the library removes it again. *)
Definition download_to_filename (e : env) (bucket name : string) (file_path : path)
    (attempt : nat) : M unit :=
  tell (EvDownloadAttempt bucket name file_path);;
  λ w, match Disk.writable file_path (disk w) with
       | None => (w, Raise OSError)
       | Some q =>
         let gave_up data :=
           (set_disk (partial_alter
                        (λ _, left_behind (download_leaves e bucket name attempt) data)
                        q (disk w)) w,
            Raise StoreError) in
         match store w !! (bucket, name) with
         | Some data =>
           if download_ok e bucket name attempt
           then (set_disk (<[q := File data]> (disk w)) w, Ok tt)
           else gave_up data
         | None => gave_up []
         end
       end.

(** One call of [blob.upload_from_filename(file_path)].  A failed call
    leaves the bucket as it was. *)
Definition upload_from_filename (e : env) (bucket name : string) (file_path : path)
    (attempt : nat) : M unit :=
  tell (EvUploadAttempt bucket name file_path);;
  λ w, match disk w !! file_path with
       | Some (File data) =>
         if upload_ok e bucket name attempt
         then (set_store (<[(bucket, name) := data]> (store w)) w, Ok tt)
         else (w, Raise StoreError)
       | _ => (w, Raise OSError)
       end.

(** The text of an absolute path, for the progress messages. *)
Definition abs_str (p : path) : string := "/" +:+ Py.join "/" p.

(** The relative path [_download_blob] derives from a blob name:
    [blob.name.split(f"{remote_path}/", 2)[-1]]. *)
Definition blob_rel_path (remote_path name : string) : string :=
  Py.item_last (Py.split (remote_path +:+ "/") (Some 2) name).

Definition _download_blob (e : env) (bucket remote_path : string) (local_folder : path)
    (name : string) : M unit :=
  let rel_path := blob_rel_path remote_path name in
  tell (EvPrint ("Downloading " +:+ rel_path +:+ " to " +:+ abs_str local_folder +:+ "/"));;
  let file_path := Path.div local_folder rel_path in
  (λ w, match Disk.mkdir_p (Path.parent file_path) (disk w) with
        | Some fs => (set_disk fs w, Ok tt)
        | None => (w, Raise OSError)
        end);;
  retry_loop BLOB_OP_MAX_RETRIES 0 (download_to_filename e bucket name file_path).

Definition download_folder (e : env) (bucket_name remote_path : string)
    (local_folder : path) : M unit :=
  let* bucket := get_storage_bucket e bucket_name in
  let* blobs := list_blobs bucket remote_path in
  let* _ := thread_map (_download_blob e bucket remote_path local_folder) blobs in
  ret tt.

(** The blob name [_upload_file] gives a local file. *)
Definition blob_name_of (remote_path : string) (target_path : path) : string :=
  os_path_join remote_path (Path.str target_path).

Definition _upload_file (e : env) (bucket : string) (local_folder : path)
    (remote_path : string) (file_path : path) : M unit :=
  tell (EvPrint ("Uploading " +:+ abs_str file_path +:+ " to " +:+ remote_path +:+ "/"));;
  match Path.relative_to file_path local_folder with
  | None => raise ValueError
  | Some target_path =>
    let name := blob_name_of remote_path target_path in
    retry_loop BLOB_OP_MAX_RETRIES 0 (upload_from_filename e bucket name file_path)
  end.

Definition upload_folder (e : env) (bucket_name remote_path : string)
    (local_folder : path) : M unit :=
  let* bucket := get_storage_bucket e bucket_name in
  let* files := (λ w, (w, Ok (Disk.glob_dotted local_folder (disk w)))) in
  let* _ := thread_map (_upload_file e bucket local_folder remote_path) files in
  ret tt.

(** ** CacheManifestBuilder: [cache_build_map] *)

(** [blob.name.split("/")[-1]] *)
Definition blob_filename (name : string) : string :=
  Py.item_last (Py.split "/" None name).

(** [filename.split(".")[0]] *)
Definition sitemap_key_of (filename : string) : string :=
  Py.item_first (Py.split "." None filename).

(** The body of the loop over the listed blobs. *)
Definition sitemap_add (sitemap : gmap string (list string)) (name : string)
    : gmap string (list string) :=
  let filename := blob_filename name in
  if decide (filename = "sitemap.json") then sitemap
  else
    let sitemap_key := sitemap_key_of filename in
    <[sitemap_key := default [] (sitemap !! sitemap_key) ++ [name]]> sitemap.

(** The mapping built from a listing: the loop, then the sort of every list. *)
Definition build_sitemap (names : list string) : gmap string (list string) :=
  Py.sorted <$> foldl sitemap_add ∅ names.

Definition cache_build_map (e : env) : M (gmap string (list string)) :=
  let* bucket := get_storage_bucket e (GCS_BUCKET_TEST e) in
  let* blobs := list_blobs bucket "cache" in
  ret (build_sitemap blobs).

(** ** StageOrchestrator *)

(** [with TemporaryDirectory() as d: body]: the directory is created under a
    fresh name and removed with all it holds when the block is left, whether
    by a value or by an exception. *)
Definition with_TemporaryDirectory {A} (e : env) (body : path → M A) : M A :=
  λ w, let workdir := gettempdir e ++ [mkdtemp_name e] in
       let w0 := emit (EvMkdtemp workdir) (set_disk (<[workdir := Dir]> (disk w)) w) in
       let (w1, r) := body workdir w0 in
       (emit (EvCleanup workdir) (set_disk (Disk.rmtree workdir (disk w1)) w1), r).

(** [p.mkdir(parents=True, exist_ok=True)] *)
Definition mkdir_parents (p : path) : M unit :=
  tell (EvMkdir p);;
  λ w, match Disk.mkdir_p p (disk w) with
       | Some fs => (set_disk fs w, Ok tt)
       | None => (w, Raise OSError)
       end.

(** [blob.upload_from_string(data)], called once, outside any [try]. *)
Definition upload_from_string (e : env) (bucket name : string) (data : content) : M unit :=
  tell (EvUploadString bucket name);;
  λ w, if upload_string_ok e bucket name
       then (set_store (<[(bucket, name) := data]> (store w)) w, Ok tt)
       else (w, Raise StoreError).

(** The worker of [cache_pull]; the bare [except:] swallows whatever the
    fetch or the write raises. *)
Definition _pull_source (e : env) (output_folder : path) (cache_source : cache_source)
    : M unit :=
  let url := url cache_source in
  let output := output cache_source in
  tell (EvFetch url);;
  λ w, let failed exc :=
         (emit (EvStderr exc) (emit (EvPrint ("Cache pull failed for " +:+ url)) w), Ok tt) in
       match net_download e url with
       | Some buffer =>
         match Disk.write_file (Path.div output_folder output) buffer (disk w) with
         | Some fs => (set_disk fs w, Ok tt)
         | None => failed OSError
         end
       | None => failed NetError
       end.

Definition cache_pull (e : env) : M string :=
  with_TemporaryDirectory e (λ workdir,
    let output_folder := Path.div workdir (utcnow_stamp e) in
    mkdir_parents output_folder;;
    let* _ := thread_map (_pull_source e output_folder) (cache_config e) in
    upload_folder e (GCS_BUCKET_TEST e) "cache" workdir;;
    let* sitemap := cache_build_map e in
    let* bucket := get_storage_bucket e (GCS_BUCKET_TEST e) in
    upload_from_string e bucket "cache/sitemap.json" (json_dumps e sitemap);;
    ret "OK").

(** [s.replace("-", "_")] *)
Fixpoint replace_dash (s : string) : string :=
  match s with
  | EmptyString => EmptyString
  | String c s' => String (if Ascii.eqb c "-" then "_"%char else c) (replace_dash s')
  end.

(** [l[i]] with Python's negative indices; [None] is [IndexError]. *)
Definition py_index {A} (l : list A) (i : Z) : option A :=
  let n := Z.of_nat (length l) in
  let j := if (i <? 0)%Z then (i + n)%Z else i in
  if ((0 <=? j) && (j <? n))%Z then l !! Z.to_nat j else None.

(** What [table_name] and [idx] are after the two [or] lines. *)
Definition effective_table_name (e : env) (table_name : option string) : option string :=
  Py.or_str table_name (request_args e !! "table").

Definition effective_idx (e : env) (idx : option Z) : option Z :=
  Py.or_int idx (safe_int_cast e (request_args e !! "idx")).

(** [assert table_name in list(get_table_names())]; the name comes out as
    a string. *)
Definition assert_known_table (e : env) (table_name : option string) : M string :=
  match table_name with
  | Some name => py_assert (bool_decide (name ∈ get_table_names e));; ret name
  | None => raise AssertionError
  end.

Definition lift_disk {A} (f : gmap path node → gmap path node * result A) : M A :=
  λ w, let (fs, r) := f (disk w) in (set_disk fs w, r).

Definition lift_result {A} (r : result A) : M A := λ w, (w, r).

Definition update_table (e : env) (table_name : option string) (idx : option Z) : M string :=
  let table_name := effective_table_name e table_name in
  let idx := effective_idx e idx in
  let* table_name := assert_known_table e table_name in
  with_TemporaryDirectory e (λ output_folder,
    mkdir_parents (Path.div output_folder "snapshot");;
    mkdir_parents (Path.div output_folder "intermediate");;
    let pipeline_name := replace_dash table_name in
    tell (EvPipelineLoad pipeline_name);;
    let* data_pipeline := lift_result (pipeline_load e pipeline_name) in
    let* data_pipeline :=
      match idx with
      | Some i =>
        match py_index (data_sources data_pipeline) i with
        | Some src => ret {| data_sources := [src] |}
        | None => raise IndexError
        end
      | None => ret data_pipeline
      end in
    tell (EvParse output_folder);;
    let* intermediate_results := lift_disk (pipeline_parse e data_pipeline output_folder) in
    tell (EvSaveIntermediate (Path.div output_folder "intermediate"));;
    lift_disk (save_intermediate_results e (Path.div output_folder "intermediate")
                 intermediate_results);;
    upload_folder e (GCS_BUCKET_TEST e) "snapshot" (Path.div output_folder "snapshot");;
    upload_folder e (GCS_BUCKET_TEST e) "intermediate" (Path.div output_folder "intermediate");;
    ret "OK").

Definition combine_table (e : env) (table_name : option string) : M string :=
  let table_name := effective_table_name e table_name in
  let* table_name := assert_known_table e table_name in
  with_TemporaryDirectory e (λ output_folder,
    mkdir_parents (Path.div output_folder "tables");;
    download_folder e (GCS_BUCKET_TEST e) "intermediate" (Path.div output_folder "intermediate");;
    let pipeline_name := replace_dash table_name in
    tell (EvPipelineLoad pipeline_name);;
    let* data_pipeline := lift_result (pipeline_load e pipeline_name) in
    tell (EvLoadIntermediate (Path.div output_folder "intermediate"));;
    let* intermediate_results :=
      (λ w, (w, load_intermediate_results e (Path.div output_folder "intermediate")
                  (data_sources data_pipeline) (disk w))) in
    tell EvCombine;;
    let* pipeline_output := lift_result (pipeline_combine e data_pipeline intermediate_results) in
    let csv := Path.div (Path.div output_folder "tables") (table_name +:+ ".csv") in
    tell (EvExportCsv csv);;
    lift_disk (export_csv e pipeline_output csv);;
    upload_folder e (GCS_BUCKET_TEST e) "tables" (Path.div output_folder "tables");;
    ret "OK").

(** ** The order of the manifest lists, in the words of the spec *)

(** "Lexicographically ascending by full key string": the empty string comes
    first, otherwise the first differing character decides, characters
    being compared by their code. *)
Inductive lex_le : string → string → Prop :=
| lex_le_nil (t : string) : lex_le EmptyString t
| lex_le_lt (c d : ascii) (s t : string) :
    (N_of_ascii c < N_of_ascii d)%N → lex_le (String c s) (String d t)
| lex_le_eq (c : ascii) (s t : string) :
    lex_le s t → lex_le (String c s) (String c t).

(** ** Vocabulary for the statements about the manifest *)

(** The cache key of a blob name. *)
Definition cache_key (name : string) : string := sitemap_key_of (blob_filename name).

(** The listed names that the loop files under [key], in listing order. *)
Definition filed_under (key : string) (names : list string) : list string :=
  filter (λ n, blob_filename n ≠ "sitemap.json" ∧ cache_key n = key) names.

(** The bucket that [get_storage_bucket] hands out for a given name. *)
Definition bucket_of (e : env) (bucket_name : string) : option string :=
  Py.or_str (Some bucket_name) (getenv e "GCS_BUCKET_NAME").

(** ** Sample surroundings, for evaluating the handlers *)

Module Sample.

Definition bytes (s : string) : content := list_byte_of_string s.

(** A pipeline collaborator that writes one snapshot per source and hands
    back one intermediate result per source. *)
Definition parse (p : DataPipeline) (folder : path) (fs : gmap path node)
    : gmap path node * result results :=
  (foldr (λ src fs', <[folder ++ ["snapshot"; src +:+ ".raw"] := File (bytes src)]> fs')
         fs (data_sources p),
   Ok ((λ src, (src, bytes src)) <$> data_sources p)).

Definition save (folder : path) (rs : results) (fs : gmap path node)
    : gmap path node * result unit :=
  (foldr (λ r fs', <[folder ++ [r.1 +:+ ".csv"] := File r.2]> fs') fs rs, Ok tt).

(** Every store operation and every fetch succeeds; two tables are known;
    the request names no table and no index. *)
Definition calm : env := {|
  getenv := λ _, None;
  GCS_BUCKET_PROD := "prod";
  GCS_BUCKET_TEST := "test";
  download_ok := λ _ _ _, true;
  download_leaves := λ _ _ _, Some 0;
  upload_ok := λ _ _ _, true;
  upload_string_ok := λ _ _, true;
  net_download := λ u, Some (bytes u);
  cache_config := [];
  utcnow_stamp := "2020-05-01-13";
  gettempdir := ["tmp"];
  mkdtemp_name := "tmpk3x0";
  request_args := ∅;
  safe_int_cast := λ _, None;
  get_table_names := ["epidemiology"; "by-age"];
  json_dumps := λ m, bytes (Py.join "," (fst <$> map_to_list m));
  pipeline_load := λ name, Ok {| data_sources := [name +:+ "-src0"; name +:+ "-src1"] |};
  pipeline_parse := parse;
  save_intermediate_results := save;
  load_intermediate_results := λ _ srcs _, Ok ((λ s, (s, bytes s)) <$> srcs);
  pipeline_combine := λ _ rs, Ok (concat (snd <$> rs));
  export_csv := λ data file fs, (<[file := File data]> fs, Ok tt)
|}.

(** The same surroundings with other answers plugged in. *)
Definition with_store_failures (e : env) : env :=
  Env (getenv e) (GCS_BUCKET_PROD e) (GCS_BUCKET_TEST e)
      (λ _ _ _, false) (download_leaves e) (λ _ _ _, false) (upload_string_ok e)
      (net_download e) (cache_config e) (utcnow_stamp e) (gettempdir e) (mkdtemp_name e)
      (request_args e) (safe_int_cast e) (get_table_names e) (json_dumps e)
      (pipeline_load e) (pipeline_parse e) (save_intermediate_results e)
      (load_intermediate_results e) (pipeline_combine e) (export_csv e).

Definition with_cache (e : env) (fetch : string → option content)
    (config : list cache_source) : env :=
  Env (getenv e) (GCS_BUCKET_PROD e) (GCS_BUCKET_TEST e)
      (download_ok e) (download_leaves e) (upload_ok e) (upload_string_ok e)
      fetch config (utcnow_stamp e) (gettempdir e) (mkdtemp_name e)
      (request_args e) (safe_int_cast e) (get_table_names e) (json_dumps e)
      (pipeline_load e) (pipeline_parse e) (save_intermediate_results e)
      (load_intermediate_results e) (pipeline_combine e) (export_csv e).


Definition with_request (e : env) (args : gmap string string)
    (cast : option string → option Z) : env :=
  Env (getenv e) (GCS_BUCKET_PROD e) (GCS_BUCKET_TEST e)
      (download_ok e) (download_leaves e) (upload_ok e) (upload_string_ok e)
      (net_download e) (cache_config e) (utcnow_stamp e) (gettempdir e) (mkdtemp_name e)
      args cast (get_table_names e) (json_dumps e)
      (pipeline_load e) (pipeline_parse e) (save_intermediate_results e)
      (load_intermediate_results e) (pipeline_combine e) (export_csv e).

Definition with_pipeline (e : env) (load : string → result DataPipeline)
    (parser : DataPipeline → path → gmap path node → gmap path node * result results)
    : env :=
  Env (getenv e) (GCS_BUCKET_PROD e) (GCS_BUCKET_TEST e)
      (download_ok e) (download_leaves e) (upload_ok e) (upload_string_ok e)
      (net_download e) (cache_config e) (utcnow_stamp e) (gettempdir e) (mkdtemp_name e)
      (request_args e) (safe_int_cast e) (get_table_names e) (json_dumps e)
      load parser (save_intermediate_results e)
      (load_intermediate_results e) (pipeline_combine e) (export_csv e).

(** Surroundings in which there is no pipeline of the name [name]. *)
Definition unloadable (name : string) : env :=
  with_pipeline calm
    (λ n, if decide (n = name) then Raise CollaboratorError else pipeline_load calm n)
    (pipeline_parse calm).

(** Surroundings in which a pipeline with exactly the sources [srcs] cannot
    be parsed. *)
Definition refusing (srcs : list string) : env :=
  with_pipeline calm (pipeline_load calm)
    (λ dp folder fs, if decide (data_sources dp = srcs) then (fs, Raise CollaboratorError)
                     else pipeline_parse calm dp folder fs).

(** A bucket with three cached snapshots and a manifest. *)
Definition cached : world :=
  World ∅
        (list_to_map [(("test", "cache/2020-05-01-13/covid19.2021-05-01.csv"), bytes "a");
                      (("test", "cache/2020-05-01-12/covid19.2021-05-01.csv"), bytes "b");
                      (("test", "cache/2020-05-01-13/noextension"), bytes "c");
                      (("test", "cache/sitemap.json"), bytes "{}")])
        [].

(** A bucket whose only cached object happens to be called sitemap.json. *)
Definition cached_nested_sitemap : world :=
  World ∅ (list_to_map [(("test", "cache/2020-05-01-13/sitemap.json"), bytes "x")]) [].

End Sample.

(** ** Vocabulary for the statements about traces *)

(** Every run of [m] only adds events to the trace, and each of them
    satisfies [P]. *)
Definition emits {A} (P : event → Prop) (m : M A) : Prop :=
  ∀ w, ∃ evs, trace (m w).1 = trace w ++ evs ∧ Forall P evs.

(** The events a run of [m] adds to the trace of [w]. *)
Definition events_of {A} (m : M A) (w : world) : list event :=
  drop (length (trace w)) (trace (m w).1).






(** The workspace of a stage: the temporary directory it is given. *)
Definition workspace (e : env) : path := gettempdir e ++ [mkdtemp_name e].

(** The events [upload_folder] may emit for a folder and a prefix. *)
Inductive upload_event (e : env) (bucket_name remote_path : string) (local_folder : path)
    : event → Prop :=
| upload_print (msg : string) :
    upload_event e bucket_name remote_path local_folder (EvPrint msg)
| upload_stderr (ex : exn) :
    upload_event e bucket_name remote_path local_folder (EvStderr ex)
| upload_attempt (b : string) (p rel : path) :
    bucket_of e bucket_name = Some b →
    Path.relative_to p local_folder = Some rel →
    rel ≠ [] →
    upload_event e bucket_name remote_path local_folder
      (EvUploadAttempt b (blob_name_of remote_path rel) p).

(** The events [download_folder] may emit. *)
Inductive download_event (e : env) (bucket_name remote_path : string) (local_folder : path)
    : event → Prop :=
| download_print (msg : string) :
    download_event e bucket_name remote_path local_folder (EvPrint msg)
| download_stderr (ex : exn) :
    download_event e bucket_name remote_path local_folder (EvStderr ex)
| download_list (b : string) :
    bucket_of e bucket_name = Some b →
    download_event e bucket_name remote_path local_folder (EvListBlobs b remote_path)
| download_attempt (b name : string) :
    bucket_of e bucket_name = Some b →
    Py.startswith remote_path name = true →
    download_event e bucket_name remote_path local_folder
      (EvDownloadAttempt b name (Path.div local_folder (blob_rel_path remote_path name))).



Definition blank : world := World ∅ ∅ [].

(** ** Vocabulary for the statements about FolderSync *)

(** Does one of the three attempts go through? *)
Definition some_attempt_ok (ok : nat → bool) : bool :=
  existsb ok (seq 0 BLOB_OP_MAX_RETRIES).

(** The blob one upload task writes, if any, given the disk it reads. *)
Definition upload_write (e : env) (b remote_path : string) (local_folder : path)
    (fs : gmap path node) (p : path) : option (string * content) :=
  match Path.relative_to p local_folder, fs !! p with
  | Some rel, Some (File data) =>
    let name := blob_name_of remote_path rel in
    if some_attempt_ok (upload_ok e b name) then Some (name, data) else None
  | _, _ => None
  end.

(** What one upload task does to the bucket. *)
Definition upload_effect (e : env) (b remote_path : string) (local_folder : path)
    (fs : gmap path node) (st : gmap (string * string) content) (p : path)
    : gmap (string * string) content :=
  match upload_write e b remote_path local_folder fs p with
  | Some (name, data) => <[(b, name) := data]> st
  | None => st
  end.

(** Where a blob is downloaded to. *)
Definition download_target (remote_path : string) (local_folder : path) (name : string)
    : path :=
  Path.div local_folder (blob_rel_path remote_path name).

(** What the attempts of one download leave at its target, once it could
    be opened: the blob when an attempt went through, and otherwise what
    the last attempt left behind. *)
Definition download_result (e : env) (b name : string)
    (st : gmap (string * string) content) : option content :=
  let last := download_leaves e b name (BLOB_OP_MAX_RETRIES - 1) in
  match st !! (b, name) with
  | Some data =>
    if some_attempt_ok (download_ok e b name) then Some data
    else (λ n, take n data) <$> last
  | None => (λ n, take n []) <$> last
  end.

(** How often an event occurs in a list of events. *)
Definition occurrences (ev : event) (evs : list event) : nat :=
  length (filter (λ ev', ev' = ev) evs).

(** [q] is a directory that [mkdir -p] of [base ++ rest] makes below [base]. *)
Definition made_by_mkdirs (base rest q : path) : Prop :=
  base `prefix_of` q ∧ q `prefix_of` (base ++ rest) ∧ q ≠ base.

(** A name a directory entry can have. *)
Definition valid_name (c : string) : Prop :=
  c ≠ EmptyString ∧ c ≠ "." ∧ c ≠ ".." ∧ Py.contains "/" c = false.

(** Every entry of the disk is reached through proper names. *)
Definition disk_names_ok (fs : gmap path node) : Prop :=
  ∀ p, is_Some (fs !! p) → Forall valid_name p.

(** One step of a fold of writes into a map. *)
Definition write_step {K V X} `{Countable K} (wr : X → option (K * V))
    (m : gmap K V) (x : X) : gmap K V :=
  match wr x with
  | Some (k, v) => <[k := v]> m
  | None => m
  end.

(** What the attempts numbered [i], ..., [i + n - 1] of a download leave
    at the target; [None] when there is no attempt. *)
Fixpoint attempts_leave (e : env) (b name : string) (blob : option content) (n i : nat)
    : option (option content) :=
  match n with
  | O => None
  | S n' =>
    let later := attempts_leave e b name blob n' (S i) in
    match blob with
    | Some data =>
      if download_ok e b name i then Some (Some data)
      else Some (default ((λ k, take k data) <$> download_leaves e b name i) later)
    | None => Some (default ((λ k, take k []) <$> download_leaves e b name i) later)
    end
  end.

(** A download task seen from the disk: the target path and the bytes that
    end up there, if any; the directory above the target is made, and the
    target gets the bytes, or is removed, when it can be opened. *)
Definition place (fs : gmap path node) (t : path * option content) : gmap path node :=
  match Disk.mkdir_p (Path.parent t.1) fs with
  | None => fs
  | Some fs1 =>
    match Disk.writable t.1 fs1 with
    | Some q => partial_alter (λ _, File <$> t.2) q fs1
    | None => fs1
    end
  end.

Definition download_task (e : env) (b remote_path : string) (local_folder : path)
    (st : gmap (string * string) content) (name : string) : path * option content :=
  (download_target remote_path local_folder name, download_result e b name st).

(** What a disk looks like after the tasks were placed on [fs0]. *)
Record placed (fs0 : gmap path node) (tasks : list (path * option content))
    (fs : gmap path node) : Prop := {
  placed_file : ∀ q c, fs !! q = Some (File c) →
                       fs0 !! q = Some (File c) ∨ (q, Some c) ∈ tasks;
  placed_written : ∀ q c, (q, Some c) ∈ tasks → q ≠ [] → fs0 !! q ≠ Some Dir →
                          fs !! q = Some (File c);
  placed_removed : ∀ q, (q, None) ∈ tasks → q ≠ [] → fs0 !! q ≠ Some Dir → fs !! q = None;
  placed_dir : ∀ q t, t ∈ tasks → q ≠ [] → q `prefix_of` t.1 → q ≠ t.1 →
                      fs !! q = Some Dir;
  placed_other : ∀ q, (∀ t, t ∈ tasks → ¬ q `prefix_of` t.1) → fs !! q = fs0 !! q
}.

(** The listed blobs fit on the disk: no target lies on the way to another
    blob's target, no regular file lies on the way to a target, and every
    target is a path as the operating system resolves it, without [..]. *)
Definition download_fits (remote_path : string) (local_folder : path)
    (names : list string) (fs : gmap path node) : Prop :=
  (∀ n m, n ∈ names → m ∈ names →
     download_target remote_path local_folder n
       `prefix_of` download_target remote_path local_folder m → n = m)
  ∧ (∀ n q c, n ∈ names → q ≠ [] →
       q `prefix_of` download_target remote_path local_folder n →
       q ≠ download_target remote_path local_folder n → fs !! q ≠ Some (File c))
  ∧ (∀ n, n ∈ names → ".." ∉ download_target remote_path local_folder n).

(** A folder with one file whose earlier version is still in the bucket. *)
Definition stale : world :=
  World (list_to_map [(["w"], Dir); (["w"; "a.csv"], File (Sample.bytes "new"))])
        (list_to_map [(("test", "p/a.csv"), Sample.bytes "old")])
        [].

(** How [upload_effect] writes. *)
Definition upload_write_at (e : env) (b remote_path : string) (local_folder : path)
    (fs : gmap path node) (p : path) : option ((string * string) * content) :=
  (λ nd, ((b, nd.1), nd.2)) <$> upload_write e b remote_path local_folder fs p.

(** A folder with two dotted files, one of them nested, and a file without
    a dot in its name. *)
Definition tree : world :=
  World (list_to_map [(["w"], Dir);
                      (["w"; "a.csv"], File (Sample.bytes "alpha"));
                      (["w"; "d"], Dir);
                      (["w"; "d"; "b.txt"], File (Sample.bytes "beta"));
                      (["w"; "README"], File (Sample.bytes "read me"))])
        ∅ [].

(** Every entry of the disk sits in a directory. *)
Definition disk_tree_ok (fs : gmap path node) : Prop :=
  ∀ p c, is_Some (fs !! (p ++ [c])) → p ≠ [] → fs !! p = Some Dir.

(** What the round trip of a folder [d] through the prefix [remote_path]
    into the folder [d2] takes for granted. *)
Record round_trip_ready (e : env) (b remote_path : string) (d d2 : path) (w : world)
    : Prop := {
  rt_names : disk_names_ok (disk w);
  rt_tree : disk_tree_ok (disk w);
  rt_prefix : remote_path ≠ EmptyString ∧ ends_with_slash remote_path = false;
  rt_dotted : ∀ rel data, rel ≠ [] → disk w !! (d ++ rel) = Some (File data) →
                Py.contains "." (Path.name (d ++ rel)) = true;
  rt_no_empty_dir : ∀ rel, rel ≠ [] → disk w !! (d ++ rel) = Some Dir →
                      ∃ rest data, rest ≠ [] ∧ disk w !! (d ++ rel ++ rest) = Some (File data);
  rt_no_prefix_inside : ∀ rel data, rel ≠ [] → disk w !! (d ++ rel) = Some (File data) →
                          Py.contains (remote_path +:+ "/") (Py.join "/" rel) = false;
  rt_bucket_clean : ∀ name, Py.startswith remote_path name = true →
                      store w !! (b, name) = None;
  rt_dest_empty : ∀ rel, rel ≠ [] → disk w !! (d2 ++ rel) = None;
  rt_dest_free : ∀ q c, q ≠ [] → q `prefix_of` d2 → disk w !! q ≠ Some (File c);
  rt_dest_names : Forall valid_name d2;
  rt_no_failure : ∀ name i, upload_ok e b name i = true ∧ download_ok e b name i = true
}.

(** A folder in which every file has a dotted name. *)
Definition dotted_tree : world :=
  World (list_to_map [(["w"], Dir);
                      (["w"; "a.csv"], File (Sample.bytes "alpha"));
                      (["w"; "d"], Dir);
                      (["w"; "d"; "b.txt"], File (Sample.bytes "beta"))])
        ∅ [].

(** ** Vocabulary for the statements about [cache_pull] *)

(** The world [cache_pull] has reached when it starts uploading: the
    workspace and the hour's folder exist and every source was pulled. *)
Definition after_pulls (e : env) (w : world) : world :=
  let workdir := workspace e in
  let w0 := emit (EvMkdtemp workdir) (set_disk (<[workdir := Dir]> (disk w)) w) in
  (thread_map (_pull_source e (Path.div workdir (utcnow_stamp e))) (cache_config e)
     (mkdir_parents (Path.div workdir (utcnow_stamp e)) w0).1).1.

(** The file a source leaves in the hour's folder, if its fetch succeeds. *)
Definition pulled_file (e : env) (output_folder : path) (src : cache_source)
    : option (path * node) :=
  (λ data, (output_folder ++ [output src], File data)) <$> net_download e (url src).

(** The key under which a pulled file is cached. *)
Definition cache_key_of_source (e : env) (src : cache_source) : string :=
  "cache/" +:+ utcnow_stamp e +:+ "/" +:+ output src.

(** What [cache_pull] takes for granted about its surroundings. *)
Record cache_pull_ready (e : env) (b : string) (w : world) : Prop := {
  cp_names : disk_names_ok (disk w);
  cp_tmp_names : Forall valid_name (workspace e);
  cp_stamp : valid_name (utcnow_stamp e);
  cp_outputs : ∀ src, src ∈ cache_config e → valid_name (output src);
  cp_distinct : NoDup (output <$> cache_config e);
  cp_fresh : ∀ rel, disk w !! (workspace e ++ rel) = None;
  cp_tmp : ∀ q c, q ≠ [] → q `prefix_of` workspace e → disk w !! q ≠ Some (File c);
  cp_uploads : ∀ name i, upload_ok e b name i = true;
  cp_manifest : upload_string_ok e b "cache/sitemap.json" = true
}.

(** Three cache sources, the second of which cannot be fetched and the
    third of which has an output name without a dot. *)
Definition three_sources : env :=
  Sample.with_cache Sample.calm
    (λ u, if String.eqb u "https://b.example/data" then None else Some (Sample.bytes u))
    [{| url := "https://a.example/data"; output := "a.csv" |};
     {| url := "https://b.example/data"; output := "b.json" |};
     {| url := "https://c.example/data"; output := "LICENSE" |}].

(** A bucket that already caches one file of an earlier hour. *)
Definition earlier_cache : world :=
  World ∅ (list_to_map [(("test", "cache/2020-05-01-12/a.csv"), Sample.bytes "earlier")]) [].

(** ** The [publish] stage *)

(** [publish].  [publish_tables] is [publish.main], which lives in another
    module; it is handed the output folder and the folder of tables and
    works on the local disk. *)
Definition publish
    (publish_tables : path → path → gmap path node → gmap path node * result unit)
    (e : env) : M string :=
  with_TemporaryDirectory e (λ workdir,
    mkdir_parents (Path.div workdir "tables");;
    mkdir_parents (Path.div workdir "public");;
    download_folder e (GCS_BUCKET_TEST e) "tables" (Path.div workdir "tables");;
    lift_disk (publish_tables (Path.div workdir "public") (Path.div workdir "tables"));;
    upload_folder e (GCS_BUCKET_PROD e) "" (Path.div workdir "public");;
    ret "OK").

(** ** Vocabulary for the statements about what a handler leaves alone *)

(** Every run of [m] takes a world to one that [R] relates it to. *)
Definition preserves {A} (R : world → world → Prop) (m : M A) : Prop :=
  ∀ w, R w (m w).1.

Definition same_store (w w' : world) : Prop := store w' = store w.

(** From [w] to [w'] no blob was deleted, and every blob that differs
    satisfies [Q]. *)
Definition writes_only (Q : string * string → Prop) (w w' : world) : Prop :=
  (∀ k, is_Some (store w !! k) → is_Some (store w' !! k))
  ∧ ∀ k, store w' !! k ≠ store w !! k → Q k.

(** A run of [m] that raises has written no blob. *)
Definition raises_before_writing {A} (m : M A) : Prop :=
  ∀ w ex, (m w).2 = Raise ex → store (m w).1 = store w.

(** Surroundings in which the bucket is named by the environment variable. *)
Definition from_environment : env :=
  Env (λ k, if String.eqb k "GCS_BUCKET_NAME" then Some "staging" else None)
      (GCS_BUCKET_PROD Sample.calm) (GCS_BUCKET_TEST Sample.calm)
      (download_ok Sample.calm) (download_leaves Sample.calm) (upload_ok Sample.calm)
      (upload_string_ok Sample.calm)
      (net_download Sample.calm) (cache_config Sample.calm) (utcnow_stamp Sample.calm)
      (gettempdir Sample.calm) (mkdtemp_name Sample.calm)
      (request_args Sample.calm) (safe_int_cast Sample.calm) (get_table_names Sample.calm)
      (json_dumps Sample.calm)
      (pipeline_load Sample.calm) (pipeline_parse Sample.calm)
      (save_intermediate_results Sample.calm) (load_intermediate_results Sample.calm)
      (pipeline_combine Sample.calm) (export_csv Sample.calm).

(** A bucket in which a second folder shares the prefix of the first. *)
Definition siblings : world :=
  World ∅
        (list_to_map [(("test", "tables/a.csv"), Sample.bytes "a");
                      (("test", "tables_old/b.csv"), Sample.bytes "b")])
        [].

(** Surroundings in which the first attempt of every transfer fails and
    the second one goes through. *)
Definition flaky : env :=
  Env (getenv Sample.calm) (GCS_BUCKET_PROD Sample.calm) (GCS_BUCKET_TEST Sample.calm)
      (λ _ _ i, negb (Nat.eqb i 0)) (download_leaves Sample.calm)
      (λ _ _ i, negb (Nat.eqb i 0))
      (upload_string_ok Sample.calm)
      (net_download Sample.calm) (cache_config Sample.calm) (utcnow_stamp Sample.calm)
      (gettempdir Sample.calm) (mkdtemp_name Sample.calm)
      (request_args Sample.calm) (safe_int_cast Sample.calm) (get_table_names Sample.calm)
      (json_dumps Sample.calm)
      (pipeline_load Sample.calm) (pipeline_parse Sample.calm)
      (save_intermediate_results Sample.calm) (load_intermediate_results Sample.calm)
      (pipeline_combine Sample.calm) (export_csv Sample.calm).

(** A folder that holds a directory with a dot in its name. *)
Definition versioned : world :=
  World (list_to_map [(["w"], Dir);
                      (["w"; "v1.0"], Dir);
                      (["w"; "v1.0"; "a.csv"], File (Sample.bytes "alpha"))])
        ∅ [].

(** A disk on which a regular file stands where the destination folder of
    a download is to be made. *)
Definition blocked : world :=
  World (list_to_map [(["v"], File (Sample.bytes "not a folder"))])
        (list_to_map [(("test", "p/a.csv"), Sample.bytes "a")])
        [].

(** Parsing the pipeline [sel] in the workspace fails with [ex], whatever
    the disk holds. *)
Definition parse_fails (e : env) (sel : DataPipeline) (ex : exn) : Prop :=
  ∀ fs, (pipeline_parse e sel (workspace e) fs).2 = Raise ex.

(** A bucket with a blob whose name steps back out of the prefix. *)
Definition escaping : world :=
  World (list_to_map [(["v"], Dir)])
        (list_to_map [(("test", "p/../x.csv"), Sample.bytes "x")])
        [].

(** The temporary directory can be made: nothing is there yet, no regular
    file stands on the way to it, and it is named by proper names. *)
Definition workspace_free (e : env) (w : world) : Prop :=
  (∀ rel, disk w !! (workspace e ++ rel) = None)
  ∧ (∀ q c, q ≠ [] → q `prefix_of` workspace e → disk w !! q ≠ Some (File c))
  ∧ Forall valid_name (workspace e).

(** Surroundings like [three_sources] in which the store refuses the
    manifest. *)
Definition manifest_refused : env :=
  Env (getenv three_sources) (GCS_BUCKET_PROD three_sources) (GCS_BUCKET_TEST three_sources)
      (download_ok three_sources) (download_leaves three_sources) (upload_ok three_sources)
      (λ _ _, false)
      (net_download three_sources) (cache_config three_sources) (utcnow_stamp three_sources)
      (gettempdir three_sources) (mkdtemp_name three_sources)
      (request_args three_sources) (safe_int_cast three_sources)
      (get_table_names three_sources) (json_dumps three_sources)
      (pipeline_load three_sources) (pipeline_parse three_sources)
      (save_intermediate_results three_sources) (load_intermediate_results three_sources)
      (pipeline_combine three_sources) (export_csv three_sources).

(** The bucket of [Sample.cached] after every object was written again
    with other bytes. *)
Definition cached_rewritten : world :=
  World ∅
        (list_to_map [(("test", "cache/sitemap.json"), Sample.bytes "[]");
                      (("test", "cache/2020-05-01-13/noextension"), Sample.bytes "z");
                      (("test", "cache/2020-05-01-12/covid19.2021-05-01.csv"), Sample.bytes "y");
                      (("test", "cache/2020-05-01-13/covid19.2021-05-01.csv"), Sample.bytes "x")])
        [].

(** A stand-in for [publish.main]: it copies every file below the folder of
    tables to the same place below the output folder. *)
Definition copy_tables (out inp : path) (fs : gmap path node)
    : gmap path node * result unit :=
  (foldr (λ kv acc,
            match Path.relative_to kv.1 inp, kv.2 with
            | Some (c :: rel), File d => <[out ++ c :: rel := File d]> acc
            | _, _ => acc
            end)
         fs (map_to_list fs),
   Ok tt).

(** A test bucket that holds one combined table. *)
Definition combined : world :=
  World ∅ (list_to_map [(("test", "tables/by-age.csv"), Sample.bytes "age,cases")]) [].

(** ** Vocabulary for the statements about what a stage uploads *)

(** What [publish] does in its workspace before it uploads. *)
Definition publish_prepares
    (publish_tables : path → path → gmap path node → gmap path node * result unit)
    (e : env) (workdir : path) : M unit :=
  mkdir_parents (Path.div workdir "tables");;
  mkdir_parents (Path.div workdir "public");;
  download_folder e (GCS_BUCKET_TEST e) "tables" (Path.div workdir "tables");;
  lift_disk (publish_tables (Path.div workdir "public") (Path.div workdir "tables")).

(** What [combine_table] does in its workspace before it uploads. *)
Definition combine_prepares (e : env) (table_name : string) (output_folder : path) : M unit :=
  mkdir_parents (Path.div output_folder "tables");;
  download_folder e (GCS_BUCKET_TEST e) "intermediate" (Path.div output_folder "intermediate");;
  let pipeline_name := replace_dash table_name in
  tell (EvPipelineLoad pipeline_name);;
  let* data_pipeline := lift_result (pipeline_load e pipeline_name) in
  tell (EvLoadIntermediate (Path.div output_folder "intermediate"));;
  let* intermediate_results :=
    (λ w, (w, load_intermediate_results e (Path.div output_folder "intermediate")
                (data_sources data_pipeline) (disk w))) in
  tell EvCombine;;
  let* pipeline_output := lift_result (pipeline_combine e data_pipeline intermediate_results) in
  let csv := Path.div (Path.div output_folder "tables") (table_name +:+ ".csv") in
  tell (EvExportCsv csv);;
  lift_disk (export_csv e pipeline_output csv).

(** The world a stage has reached when its preparation is over. *)
Definition prepared (e : env) (prepares : path → M unit) (w : world) : world :=
  let workdir := workspace e in
  (prepares workdir
     (emit (EvMkdtemp workdir) (set_disk (<[workdir := Dir]> (disk w)) w))).1.

(** * Properties *)

(** ** Evaluation on small inputs *)

Example split_slash : Py.split "/" None "cache/2020-05-01-13/a.csv" = ["cache"; "2020-05-01-13"; "a.csv"].
Proof. reflexivity. Qed.

Example split_keeps_empty : Py.split "/" None "a//b/" = ["a"; ""; "b"; ""].
Proof. reflexivity. Qed.

Example split_max2 : Py.split "a/" (Some 2) "a/x/a/y/a/z" = [""; "x/"; "y/a/z"].
Proof. reflexivity. Qed.

Example split_absent : Py.split "tables/" (Some 2) "other.csv" = ["other.csv"].
Proof. reflexivity. Qed.

Example sorted_strings : Py.sorted ["cache/a/2"; "cache/a/10"; "cache/a/1"] = ["cache/a/1"; "cache/a/10"; "cache/a/2"].
Proof. reflexivity. Qed.

Example div_nested : Path.div ["tmp"; "w"] "2020/a.csv" = ["tmp"; "w"; "2020"; "a.csv"].
Proof. reflexivity. Qed.

Example div_absolute : Path.div ["tmp"; "w"] "/etc/x" = ["etc"; "x"].
Proof. reflexivity. Qed.

Example join_plain : os_path_join "cache" "2020/a.csv" = "cache/2020/a.csv".
Proof. reflexivity. Qed.

Example join_empty_prefix : os_path_join "" "a.csv" = "a.csv".
Proof. reflexivity. Qed.

(** ** Facts about the string primitives *)

Module PyFacts.

Lemma startswith_char (c a : ascii) (s : string) :
  Py.startswith (String c EmptyString) (String a s) = Ascii.eqb c a.
Proof. simpl. by destruct (Ascii.eqb c a). Qed.

Lemma contains_char_cons (c a : ascii) (s : string) :
  Py.contains (String c EmptyString) (String a s)
  = (Ascii.eqb c a || Py.contains (String c EmptyString) s)%bool.
Proof.
  cbn [Py.contains]. rewrite startswith_char. by destruct (Ascii.eqb c a).
Qed.

Lemma contains_char_nil (c : ascii) : Py.contains (String c EmptyString) EmptyString = false.
Proof. reflexivity. Qed.

(** Splitting on a one-character separator, one character at a time. *)
Lemma split_char_nil (c : ascii) : Py.split (String c EmptyString) None EmptyString = [EmptyString].
Proof. reflexivity. Qed.

Lemma split_char_cons (c a : ascii) (s : string) :
  Py.split (String c EmptyString) None (String a s)
  = if Ascii.eqb c a
    then EmptyString :: Py.split (String c EmptyString) None s
    else Py.cons_hd a (Py.split (String c EmptyString) None s).
Proof.
  unfold Py.split. cbn [Py.split_go]. rewrite startswith_char.
  by destruct (Ascii.eqb c a).
Qed.

Lemma split_char_nonempty (c : ascii) (s : string) :
  Py.split (String c EmptyString) None s ≠ [].
Proof.
  destruct s as [|a s]; [done|]. rewrite split_char_cons.
  destruct (Ascii.eqb c a); [done|].
  by destruct (Py.split _ _ s).
Qed.

Lemma split_char_absent (c : ascii) (s : string) :
  Py.contains (String c EmptyString) s = false →
  Py.split (String c EmptyString) None s = [s].
Proof.
  induction s as [|a s IH]; [done|].
  rewrite contains_char_cons, split_char_cons.
  destruct (Ascii.eqb c a); [done|]. simpl. intros H. by rewrite IH.
Qed.

Lemma split_char_single (c : ascii) (s h : string) :
  Py.split (String c EmptyString) None s = [h] →
  h = s ∧ Py.contains (String c EmptyString) s = false.
Proof.
  revert h. induction s as [|a s IH]; intros h E.
  - by inversion E.
  - rewrite split_char_cons in E. rewrite contains_char_cons.
    pose proof (split_char_nonempty c s) as Hn.
    destruct (Py.split _ _ s) as [|h' t]; [done|].
    destruct (Ascii.eqb c a); [done|].
    destruct t; [|done]. inversion E; subst.
    destruct (IH h' eq_refl) as [-> ->]. done.
Qed.

(** The first piece is what comes before the first separator. *)
Lemma split_char_first (c : ascii) (s : string) :
  ∃ rest, s = Py.item_first (Py.split (String c EmptyString) None s) +:+ rest
    ∧ Py.contains (String c EmptyString) (Py.item_first (Py.split (String c EmptyString) None s)) = false
    ∧ (rest = EmptyString ∨ ∃ r, rest = String c r).
Proof.
  induction s as [|a s (rest & Hs & Hk & Hr)].
  - exists EmptyString. by eauto.
  - rewrite split_char_cons. destruct (Ascii.eqb_spec c a) as [->|Hne].
    + exists (String a s). simpl. eauto.
    + exists rest. pose proof (split_char_nonempty c s) as Hne'.
      destruct (Py.split _ _ s) as [|h t]; [done|].
      cbn [Py.item_first List.hd Py.cons_hd] in *.
      rewrite contains_char_cons, Hk.
      split; [by rewrite Hs|]. split; [|done].
      by destruct (Ascii.eqb_spec c a).
Qed.

(** The last piece is what comes after the last separator. *)
Lemma split_char_last (c : ascii) (s : string) :
  ∃ dir, s = dir +:+ Py.item_last (Py.split (String c EmptyString) None s)
    ∧ Py.contains (String c EmptyString) (Py.item_last (Py.split (String c EmptyString) None s)) = false
    ∧ (dir = EmptyString ∨ ∃ d, dir = d +:+ String c EmptyString).
Proof.
  induction s as [|a s (dir & Hs & Hk & Hd)].
  - exists EmptyString. by eauto.
  - rewrite split_char_cons. pose proof (split_char_nonempty c s) as Hne'.
    unfold Py.item_last in *.
    destruct (Py.split _ _ s) as [|h t] eqn:E; [done|].
    destruct (Ascii.eqb_spec c a) as [->|Hne].
    + exists (String a dir). cbn [List.last]. split; [by rewrite Hs at 1|]. split; [done|].
      right. destruct Hd as [->|[d ->]]; [by exists EmptyString|by exists (String a d)].
    + destruct t as [|h' t].
      * cbn [Py.cons_hd List.last] in *. exists EmptyString.
        rewrite contains_char_cons, Hk.
        apply split_char_single in E as [-> _].
        split; [done|]. split; [|by left]. by destruct (Ascii.eqb_spec c a).
      * exists (String a dir). cbn [Py.cons_hd List.last] in *.
        split; [by rewrite Hs at 1|]. split; [done|].
        right. destruct Hd as [->|[d ->]].
        -- exfalso. simpl in Hs. subst s.
           (* the last piece is the whole string, yet there are two pieces *)
           rewrite split_char_absent in E by done. by inversion E.
        -- by exists (String a d).
Qed.

End PyFacts.

(** ** Facts about [sorted] *)

Lemma leb_lex_le (s t : string) : String.leb s t = true ↔ lex_le s t.
Proof.
  unfold String.leb. revert t. induction s as [|c s IH]; intros [|d t]; simpl.
  - split; [constructor|done].
  - split; [constructor|done].
  - split; [done|inversion 1].
  - unfold Ascii.compare. destruct (N.compare_spec (N_of_ascii c) (N_of_ascii d)) as [E|L|G].
    + apply (f_equal ascii_of_N) in E. rewrite !ascii_N_embedding in E. subst d.
      rewrite IH. split; [by constructor|].
      inversion 1; subst; [lia|done].
    + split; [by constructor|done].
    + split; [done|]. inversion 1; subst; lia.
Qed.

Lemma insert_sorted_perm (x : string) (l : list string) :
  Permutation (Py.insert_sorted x l) (x :: l).
Proof.
  induction l as [|y l IH]; simpl; [done|].
  destruct (String.leb x y); [done|]. rewrite IH. apply perm_swap.
Qed.

Lemma sorted_perm (l : list string) : Permutation (Py.sorted l) l.
Proof.
  induction l as [|x l IH]; simpl; [done|].
  rewrite insert_sorted_perm. by constructor.
Qed.

Lemma insert_sorted_sorted (x : string) (l : list string) :
  StronglySorted String.le l → StronglySorted String.le (Py.insert_sorted x l).
Proof.
  induction 1 as [|y l Hs IH Hall]; simpl.
  - repeat constructor.
  - destruct (String.leb x y) eqn:E.
    + constructor; [by constructor|]. constructor.
      * unfold String.le. by rewrite E.
      * eapply Forall_impl; [exact Hall|]. intros z Hz.
        etrans; [|exact Hz]. unfold String.le. by rewrite E.
    + constructor; [done|].
      rewrite insert_sorted_perm. constructor; [|done].
      destruct (total String.le x y) as [H|H]; [|done].
      unfold String.le in H. by rewrite E in H.
Qed.

Lemma sorted_sorted (l : list string) : StronglySorted String.le (Py.sorted l).
Proof.
  induction l as [|x l IH]; simpl; [constructor|]. by apply insert_sorted_sorted.
Qed.

Lemma sorted_lex (l : list string) : StronglySorted lex_le (Py.sorted l).
Proof.
  pose proof (sorted_sorted l) as H.
  induction H as [|x l' Hs IH Hall]; constructor; [done|].
  eapply Forall_impl; [exact Hall|]. intros y Hy. apply leb_lex_le.
  unfold String.le in Hy. by destruct (String.leb x y).
Qed.

Lemma elem_of_sorted (x : string) (l : list string) : x ∈ Py.sorted l ↔ x ∈ l.
Proof. by rewrite sorted_perm. Qed.

(** ** The manifest builder *)

Lemma get_storage_bucket_run (e : env) (bucket_name b : string) (w : world) :
  bucket_of e bucket_name = Some b →
  get_storage_bucket e bucket_name w = (w, Ok b).
Proof. unfold bucket_of, get_storage_bucket. by intros ->. Qed.

Lemma get_storage_bucket_fail (e : env) (bucket_name : string) (w : world) :
  bucket_of e bucket_name = None →
  get_storage_bucket e bucket_name w = (w, Raise AssertionError).
Proof. unfold bucket_of, get_storage_bucket. by intros ->. Qed.

Lemma elem_of_blob_names (b prefix name : string) (st : gmap (string * string) content) :
  name ∈ blob_names b prefix st ↔ is_Some (st !! (b, name)) ∧ Py.startswith prefix name = true.
Proof.
  unfold blob_names. rewrite elem_of_sorted, list_elem_of_fmap. split.
  - intros ([b' n] & -> & H). apply list_elem_of_filter in H as [[Hb Hp] H'].
    simpl in *. subst b'. apply list_elem_of_fmap in H' as ([k v] & Hk & H').
    simpl in Hk. subst k. apply elem_of_map_to_list in H'.
    split; [by eexists|]. by apply Is_true_true.
  - intros [[v Hv] Hp]. exists (b, name). split; [done|].
    apply list_elem_of_filter. split; [split; [done|by apply Is_true_true]|].
    apply list_elem_of_fmap. exists ((b, name), v). split; [done|].
    by apply elem_of_map_to_list.
Qed.

Lemma NoDup_blob_names (b prefix : string) (st : gmap (string * string) content) :
  NoDup (blob_names b prefix st).
Proof.
  unfold blob_names. rewrite sorted_perm.
  apply NoDup_fmap_2_strong.
  - intros [b1 n1] [b2 n2] H1 H2 Heq. simpl in Heq. subst n2.
    apply list_elem_of_filter in H1 as [[E1 _] _].
    apply list_elem_of_filter in H2 as [[E2 _] _].
    simpl in *. by subst.
  - apply NoDup_filter, NoDup_fst_map_to_list.
Qed.

Lemma sitemap_add_lookup (m : gmap string (list string)) (name key : string) :
  sitemap_add m name !! key
  = if decide (blob_filename name ≠ "sitemap.json" ∧ cache_key name = key)
    then Some (default [] (m !! key) ++ [name])
    else m !! key.
Proof.
  unfold sitemap_add, cache_key.
  destruct (decide (blob_filename name = "sitemap.json")) as [E|E].
  - rewrite decide_False; [done|]. by intros [? _].
  - destruct (decide (sitemap_key_of (blob_filename name) = key)) as [<-|Hk].
    + rewrite decide_True by done. by rewrite lookup_insert_eq.
    + rewrite decide_False by (by intros [_ ?]). by rewrite lookup_insert_ne.
Qed.

Lemma foldl_sitemap_add_lookup (names : list string) (m : gmap string (list string))
    (key : string) :
  foldl sitemap_add m names !! key
  = match filed_under key names with
    | [] => m !! key
    | g => Some (default [] (m !! key) ++ g)
    end.
Proof.
  revert m. induction names as [|n names IH]; intros m; [done|].
  cbn [foldl]. rewrite IH, sitemap_add_lookup. unfold filed_under.
  rewrite filter_cons. case_decide as Hn.
  - cbn [default]. destruct (filter _ names) as [|x g].
    + done.
    + unfold id. by rewrite <- (assoc_L (++)).
  - done.
Qed.

Lemma build_sitemap_lookup (names : list string) (key : string) :
  build_sitemap names !! key
  = match filed_under key names with
    | [] => None
    | g => Some (Py.sorted g)
    end.
Proof.
  unfold build_sitemap. rewrite lookup_fmap, foldl_sitemap_add_lookup, lookup_empty.
  by destruct (filed_under key names).
Qed.

Lemma cache_build_map_run (e : env) (b : string) (w : world) :
  bucket_of e (GCS_BUCKET_TEST e) = Some b →
  cache_build_map e w
  = (emit (EvListBlobs b "cache") w, Ok (build_sitemap (blob_names b "cache" (store w)))).
Proof.
  intros Hb. unfold cache_build_map, bind.
  by rewrite (get_storage_bucket_run _ _ _ _ Hb).
Qed.

(** ** The manifest: key derivation, ordering, exclusion *)

(** C6. For a listed blob that is filed at all (its filename is not
    [sitemap.json]), the cache key is the filename, i.e. what follows the
    last ['/'] of the name, cut before its first ['.']; a filename without
    a dot is its own key.  The loop appends the full name to the list of
    that key, and the name is in that list of the mapping returned by
    [cache_build_map].  The filename "covid19.2021-05-01.csv" has key
    "covid19" and "noextension" has key "noextension". *)
Theorem cache_key_derivation (e : env) (w : world) (b name : string) :
  bucket_of e (GCS_BUCKET_TEST e) = Some b →
  name ∈ blob_names b "cache" (store w) →
  blob_filename name ≠ "sitemap.json" →
  let filename := blob_filename name in
  let key := sitemap_key_of filename in
  (∃ dir, name = dir +:+ filename
          ∧ Py.contains "/" filename = false
          ∧ (dir = EmptyString ∨ ∃ d, dir = d +:+ "/"))
  ∧ (∃ rest, filename = key +:+ rest
             ∧ Py.contains "." key = false
             ∧ (rest = EmptyString ∨ ∃ r, rest = "." +:+ r))
  ∧ (Py.contains "." filename = false → key = filename)
  ∧ (∀ m : gmap string (list string),
       sitemap_add m name !! key = Some (default [] (m !! key) ++ [name]))
  ∧ (∃ sitemap l, (cache_build_map e w).2 = Ok sitemap
                  ∧ sitemap !! key = Some l ∧ name ∈ l)
  ∧ cache_key "covid19.2021-05-01.csv" = "covid19"
  ∧ cache_key "noextension" = "noextension".
Proof.
  intros Hb Hin Hfn filename key.
  split; [apply PyFacts.split_char_last|].
  split; [apply PyFacts.split_char_first|].
  split.
  { intros Hdot. unfold key, sitemap_key_of.
    by rewrite PyFacts.split_char_absent. }
  split.
  { intros m. rewrite sitemap_add_lookup. by rewrite decide_True. }
  split; [|done].
  rewrite (cache_build_map_run _ _ _ Hb). cbn [snd].
  assert (name ∈ filed_under key (blob_names b "cache" (store w))) as Hf.
  { apply list_elem_of_filter. done. }
  exists (build_sitemap (blob_names b "cache" (store w))).
  exists (Py.sorted (filed_under key (blob_names b "cache" (store w)))).
  split; [done|]. rewrite build_sitemap_lookup, elem_of_sorted.
  split; [|done]. destruct (filed_under _ _); [by apply elem_of_nil in Hf|done].
Qed.

Lemma cache_key_derivation_witness :
  ∃ sitemap l,
    (cache_build_map Sample.calm Sample.cached).2 = Ok sitemap
    ∧ sitemap !! "covid19" = Some l
    ∧ "cache/2020-05-01-13/covid19.2021-05-01.csv" ∈ l.
Proof.
  refine (proj1 (proj2 (proj2 (proj2 (proj2
    (cache_key_derivation Sample.calm Sample.cached "test"
       "cache/2020-05-01-13/covid19.2021-05-01.csv" _ _ _)))))).
  - reflexivity.
  - apply elem_of_blob_names. split; [|reflexivity]. by vm_compute; eexists.
  - by vm_compute.
Defined.

(** C7. Every list of the mapping returned by [cache_build_map] ascends in
    the lexicographic order of strings, whatever the bucket holds; so does
    every list built from any listing. *)
Theorem manifest_lists_sorted (e : env) (w : world) (b : string) :
  bucket_of e (GCS_BUCKET_TEST e) = Some b →
  (∃ sitemap, (cache_build_map e w).2 = Ok sitemap
              ∧ ∀ key l, sitemap !! key = Some l → StronglySorted lex_le l)
  ∧ (∀ names key l, build_sitemap names !! key = Some l → StronglySorted lex_le l).
Proof.
  intros Hb.
  assert (∀ names key l, build_sitemap names !! key = Some l → StronglySorted lex_le l) as H.
  { intros names key l. rewrite build_sitemap_lookup.
    destruct (filed_under key names) as [|n g]; [done|].
    intros [= <-]. apply (sorted_lex (n :: g)). }
  split; [|done].
  rewrite (cache_build_map_run _ _ _ Hb). eexists. split; [done|]. apply H.
Qed.

Lemma manifest_lists_sorted_witness :
  ∃ sitemap, (cache_build_map Sample.calm Sample.cached).2 = Ok sitemap
             ∧ ∀ key l, sitemap !! key = Some l → StronglySorted lex_le l.
Proof.
  exact (proj1 (manifest_lists_sorted Sample.calm Sample.cached "test" eq_refl)).
Defined.

(** The spec's example of string order against numeric order. *)
Example manifest_order_is_string_order :
  build_sitemap ["cache/a/2"; "cache/a/10"; "cache/a/1"] !! "2" = Some ["cache/a/2"]
  ∧ build_sitemap ["cache/a.2"; "cache/a.10"; "cache/a.1"] !! "a"
    = Some ["cache/a.1"; "cache/a.10"; "cache/a.2"].
Proof. by vm_compute. Qed.

(** C8, as the spec has it, fails: a cached object that is not the manifest
    but is called [sitemap.json] is listed and yet filed nowhere. *)
Lemma nested_sitemap_json_is_dropped :
  "cache/2020-05-01-13/sitemap.json" ∈ blob_names "test" "cache" (store Sample.cached_nested_sitemap)
  ∧ "cache/2020-05-01-13/sitemap.json" ≠ "cache/sitemap"
  ∧ "cache/2020-05-01-13/sitemap.json" ≠ "cache/sitemap.json"
  ∧ (cache_build_map Sample.calm Sample.cached_nested_sitemap).2 = Ok ∅.
Proof.
  split; [|split; [done|split; [done|]]].
  - apply elem_of_blob_names. split; [|reflexivity]. by vm_compute; eexists.
  - by vm_compute.
Qed.

(** C8, amended. [cache_build_map] lists the objects whose name starts with
    [cache] and leaves out exactly those whose filename is [sitemap.json],
    the manifest [cache/sitemap.json] among them; every other listed object
    is in the list of its cache key, once, and in no other list. *)
Theorem manifest_leaves_out_sitemap_json (e : env) (w : world) (b : string) :
  bucket_of e (GCS_BUCKET_TEST e) = Some b →
  ∃ sitemap, (cache_build_map e w).2 = Ok sitemap
    ∧ (∀ name key,
         (∃ l, sitemap !! key = Some l ∧ name ∈ l)
         ↔ (is_Some (store w !! (b, name)) ∧ Py.startswith "cache" name = true
            ∧ blob_filename name ≠ "sitemap.json" ∧ cache_key name = key))
    ∧ (∀ key l, sitemap !! key = Some l → NoDup l)
    ∧ blob_filename "cache/sitemap.json" = "sitemap.json".
Proof.
  intros Hb. rewrite (cache_build_map_run _ _ _ Hb). eexists. split; [done|].
  split; [|split; [|done]].
  - intros name key. rewrite build_sitemap_lookup.
    assert (name ∈ filed_under key (blob_names b "cache" (store w))
            ↔ is_Some (store w !! (b, name)) ∧ Py.startswith "cache" name = true
              ∧ blob_filename name ≠ "sitemap.json" ∧ cache_key name = key) as <-.
    { unfold filed_under. rewrite list_elem_of_filter, elem_of_blob_names. tauto. }
    destruct (filed_under key _) as [|n g] eqn:E.
    + split; [by intros (l' & ? & _)|by intros ?%elem_of_nil].
    + split.
      * intros (l' & [= <-] & Hl). by apply (elem_of_sorted name (n :: g)) in Hl.
      * intros Hl. eexists. split; [done|]. by apply (elem_of_sorted name (n :: g)).
  - intros key l. rewrite build_sitemap_lookup.
    destruct (filed_under key _) as [|n g] eqn:E; [done|]. intros [= <-].
    rewrite (sorted_perm (n :: g)), <- E. apply NoDup_filter, NoDup_blob_names.
Qed.

Lemma manifest_leaves_out_sitemap_json_witness :
  ∃ sitemap, (cache_build_map Sample.calm Sample.cached).2 = Ok sitemap
    ∧ (∀ key l, sitemap !! key = Some l → NoDup l).
Proof.
  destruct (manifest_leaves_out_sitemap_json Sample.calm Sample.cached "test" eq_refl)
    as (sitemap & H1 & _ & H2 & _).
  exists sitemap. exact (conj H1 H2).
Defined.

(** ** Traces: what a handler emits *)

Section Emits.
Context (P : event → Prop).

Lemma emits_ret {A} (a : A) : emits P (ret a).
Proof. intros w. exists []. by rewrite app_nil_r. Qed.

Lemma emits_raise {A} (ex : exn) : emits P (raise (A:=A) ex).
Proof. intros w. exists []. by rewrite app_nil_r. Qed.

Lemma emits_tell (ev : event) : P ev → emits P (tell ev).
Proof. intros H w. exists [ev]. split; [done|]. by constructor. Qed.

Lemma emits_silent {A} (m : M A) : (∀ w, trace (m w).1 = trace w) → emits P m.
Proof. intros H w. exists []. by rewrite app_nil_r. Qed.

(** Sequencing, with what is known of the value passed on. *)
Lemma emits_bind_post {A B} (Q : A → Prop) (m : M A) (k : A → M B) :
  emits P m →
  (∀ w w' a, m w = (w', Ok a) → Q a) →
  (∀ a, Q a → emits P (k a)) →
  emits P (bind m k).
Proof.
  intros Hm HQ Hk w. unfold bind.
  destruct (Hm w) as (evs1 & E1 & F1).
  destruct (m w) as [w' [a|ex]] eqn:E; cbn [fst] in E1.
  - destruct (Hk a (HQ _ _ _ E) w') as (evs2 & E2 & F2).
    exists (evs1 ++ evs2). rewrite E2, E1, (assoc_L (++)).
    split; [done|]. by apply Forall_app.
  - by exists evs1.
Qed.

Lemma emits_bind {A B} (m : M A) (k : A → M B) :
  emits P m → (∀ a, emits P (k a)) → emits P (bind m k).
Proof. intros Hm Hk. by apply (emits_bind_post (λ _, True)). Qed.

Lemma emits_thread_map {A B} (f : A → M B) (xs : list A) :
  Forall (λ x, emits P (f x)) xs → emits P (thread_map f xs).
Proof.
  induction 1 as [|x xs Hx _ IH]; [apply emits_ret|].
  intros w. cbn [thread_map].
  destruct (Hx w) as (evs1 & E1 & F1). destruct (f x w) as [w1 r]. cbn [fst] in E1.
  destruct (IH w1) as (evs2 & E2 & F2). destruct (thread_map f xs w1) as [w2 rs].
  cbn [fst] in *. exists (evs1 ++ evs2). rewrite E2, E1, (assoc_L (++)).
  split; [done|]. by apply Forall_app.
Qed.
End Emits.

Lemma emits_retry_loop (P : event → Prop) (n i : nat) (op : nat → M unit) :
  (∀ j, emits P (op j)) → (∀ ex, P (EvStderr ex)) → emits P (retry_loop n i op).
Proof.
  intros Hop Herr. revert i. induction n as [|n IH]; intros i; [apply emits_ret|].
  intros w. cbn [retry_loop].
  destruct (Hop i w) as (evs1 & E1 & F1). destruct (op i w) as [w' [r|ex]]; cbn [fst] in E1.
  - by exists evs1.
  - destruct (IH (S i) (emit (EvStderr ex) w')) as (evs2 & E2 & F2).
    exists (evs1 ++ EvStderr ex :: evs2). rewrite E2. cbn [emit trace].
    rewrite E1, <- !(assoc_L (++)). split; [done|].
    apply Forall_app. split; [done|]. by constructor.
Qed.

Lemma emits_weaken {A} (P Q : event → Prop) (m : M A) :
  (∀ ev, P ev → Q ev) → emits P m → emits Q m.
Proof.
  intros H Hm w. destruct (Hm w) as (evs & E & F). exists evs.
  split; [done|]. by eapply Forall_impl.
Qed.

Lemma events_of_emits {A} (P : event → Prop) (m : M A) (w : world) :
  emits P m → trace (m w).1 = trace w ++ events_of m w ∧ Forall P (events_of m w).
Proof.
  intros Hm. destruct (Hm w) as (evs & E & F). unfold events_of.
  by rewrite E, drop_app_length.
Qed.

Lemma emits_get_storage_bucket (P : event → Prop) (e : env) (bucket_name : string) :
  emits P (get_storage_bucket e bucket_name).
Proof.
  apply emits_silent. intros w. unfold get_storage_bucket.
  by destruct (Py.or_str _ _).
Qed.

Lemma get_storage_bucket_post (e : env) (bucket_name b : string) (w w' : world) :
  get_storage_bucket e bucket_name w = (w', Ok b) → bucket_of e bucket_name = Some b.
Proof.
  unfold get_storage_bucket, bucket_of. destruct (Py.or_str _ _); [|done].
  by intros [= _ ->].
Qed.

Lemma emits_upload_from_filename (P : event → Prop) (e : env) (b name : string)
    (p : path) (i : nat) :
  P (EvUploadAttempt b name p) → emits P (upload_from_filename e b name p i).
Proof.
  intros H. apply emits_bind; [by apply emits_tell|]. intros _.
  apply emits_silent. intros w.
  destruct (disk w !! p) as [[|data]|]; [done| |done].
  by destruct (upload_ok e b name i).
Qed.

Lemma emits_download_to_filename (P : event → Prop) (e : env) (b name : string)
    (p : path) (i : nat) :
  P (EvDownloadAttempt b name p) → emits P (download_to_filename e b name p i).
Proof.
  intros H. apply emits_bind; [by apply emits_tell|]. intros _.
  apply emits_silent. intros w.
  destruct (Disk.writable p (disk w)); [|done].
  destruct (store w !! (b, name)); [|done].
  by destruct (download_ok e b name i).
Qed.

Lemma glob_selects_relative (d p : path) :
  Disk.glob_selects d p = true → ∃ rel, Path.relative_to p d = Some rel ∧ rel ≠ [].
Proof.
  unfold Disk.glob_selects. destruct (Path.relative_to p d) as [[|c rel]|]; [done| |done].
  intros _. by eexists.
Qed.

Lemma elem_of_glob_dotted (d p : path) (fs : gmap path node) :
  p ∈ Disk.glob_dotted d fs ↔ is_Some (fs !! p) ∧ Disk.glob_selects d p = true.
Proof.
  unfold Disk.glob_dotted. rewrite list_elem_of_filter, list_elem_of_fmap, Is_true_true.
  split.
  - intros [Hs ([q v] & -> & H)]. apply elem_of_map_to_list in H. split; [by eexists|done].
  - intros [[v H] Hs]. split; [done|]. exists (p, v). split; [done|].
    by apply elem_of_map_to_list.
Qed.

Lemma emits_upload_folder (e : env) (bucket_name remote_path : string) (local_folder : path) :
  emits (upload_event e bucket_name remote_path local_folder)
        (upload_folder e bucket_name remote_path local_folder).
Proof.
  unfold upload_folder.
  eapply (emits_bind_post _ (λ b, bucket_of e bucket_name = Some b)).
  { apply emits_get_storage_bucket. }
  { intros w w' b. apply get_storage_bucket_post. }
  intros b Hb.
  eapply (emits_bind_post _ (λ files, Forall (λ p, Disk.glob_selects local_folder p = true) files)).
  { by apply emits_silent. }
  { intros w w' files [= _ <-]. apply Forall_forall. intros p Hp.
    by apply elem_of_glob_dotted in Hp as [_ ?]. }
  intros files Hfiles. apply emits_bind; [|intros; apply emits_ret].
  apply emits_thread_map. eapply Forall_impl; [exact Hfiles|].
  intros p (rel & Hrel & Hne)%glob_selects_relative. unfold _upload_file.
  apply emits_bind; [apply emits_tell; constructor|]. intros _. rewrite Hrel.
  apply emits_retry_loop; [|constructor].
  intros j. apply emits_upload_from_filename. by econstructor.
Qed.

Lemma emits_download_folder (e : env) (bucket_name remote_path : string) (local_folder : path) :
  emits (download_event e bucket_name remote_path local_folder)
        (download_folder e bucket_name remote_path local_folder).
Proof.
  unfold download_folder.
  eapply (emits_bind_post _ (λ b, bucket_of e bucket_name = Some b)).
  { apply emits_get_storage_bucket. }
  { intros w w' b. apply get_storage_bucket_post. }
  intros b Hb.
  eapply (emits_bind_post _ (λ blobs, Forall (λ n, Py.startswith remote_path n = true) blobs)).
  { intros w. exists [EvListBlobs b remote_path]. split; [done|].
    constructor; [by constructor|done]. }
  { intros w w' blobs [= _ <-]. apply Forall_forall. intros n Hn.
    by apply elem_of_blob_names in Hn as [_ ?]. }
  intros blobs Hblobs. apply emits_bind; [|intros; apply emits_ret].
  apply emits_thread_map. eapply Forall_impl; [exact Hblobs|].
  intros n Hn. unfold _download_blob.
  apply emits_bind; [apply emits_tell; constructor|]. intros _.
  apply emits_bind.
  { apply emits_silent. intros w. by destruct (Disk.mkdir_p _ _). }
  intros _. apply emits_retry_loop; [|constructor].
  intros j. apply emits_download_to_filename. by constructor.
Qed.

Lemma emits_mkdir_parents (P : event → Prop) (p : path) :
  P (EvMkdir p) → emits P (mkdir_parents p).
Proof.
  intros H. apply emits_bind; [by apply emits_tell|]. intros _.
  apply emits_silent. intros w. by destruct (Disk.mkdir_p _ _).
Qed.

Lemma emits_lift_disk {A} (P : event → Prop) (f : gmap path node → gmap path node * result A) :
  emits P (lift_disk f).
Proof. apply emits_silent. intros w. unfold lift_disk. by destruct (f _). Qed.

Lemma emits_lift_result {A} (P : event → Prop) (r : result A) : emits P (lift_result r).
Proof. by apply emits_silent. Qed.

Lemma emits_with_TemporaryDirectory {A} (P : event → Prop) (e : env) (body : path → M A) :
  P (EvMkdtemp (workspace e)) → P (EvCleanup (workspace e)) →
  emits P (body (workspace e)) →
  emits P (with_TemporaryDirectory e body).
Proof.
  intros H1 H2 Hb w. unfold with_TemporaryDirectory. fold (workspace e).
  destruct (Hb (emit (EvMkdtemp (workspace e))
                  (set_disk (<[workspace e := Dir]> (disk w)) w))) as (evs & E & F).
  destruct (body _ _) as [w1 r]. cbn [fst emit set_disk trace] in *.
  exists (EvMkdtemp (workspace e) :: evs ++ [EvCleanup (workspace e)]).
  rewrite E, <- !(assoc_L (++)). split; [done|].
  constructor; [done|]. apply Forall_app. split; [done|]. by constructor.
Qed.

Lemma emits_assert_known_table (P : event → Prop) (e : env) (tn : option string) :
  emits P (assert_known_table e tn).
Proof.
  apply emits_silent. intros w. unfold assert_known_table.
  destruct tn as [name|]; [|done]. unfold bind, py_assert.
  by destruct (bool_decide _).
Qed.


(** ** The stage preconditions and arguments *)

Lemma bind_tell {A} (ev : event) (k : M A) (w : world) :
  (tell ev;; k) w = k (emit ev w).
Proof. reflexivity. Qed.

Lemma assert_known_table_pass (e : env) (name : string) (w : world) :
  name ∈ get_table_names e → assert_known_table e (Some name) w = (w, Ok name).
Proof.
  intros H. unfold assert_known_table, bind, py_assert.
  by rewrite bool_decide_eq_true_2.
Qed.

Lemma assert_known_table_fail (e : env) (tn : option string) (w : world) :
  (∀ name, tn = Some name → name ∉ get_table_names e) →
  assert_known_table e tn w = (w, Raise AssertionError).
Proof.
  intros H. unfold assert_known_table, bind, py_assert. destruct tn as [name|]; [|done].
  by rewrite bool_decide_eq_false_2 by by apply H.
Qed.

(** The trace of a stage that got past its assertion opens with the
    allocation of the workspace and the first directory made in it. *)
Lemma stage_opening {A} (e : env) (sub : path) (rest : path → M A) (w : world) :
  emits (λ _, True) (rest (workspace e)) →
  ∃ evs, trace (with_TemporaryDirectory e
                  (λ d, mkdir_parents (d ++ sub);; rest d) w).1
         = trace w ++ EvMkdtemp (workspace e) :: EvMkdir (workspace e ++ sub) :: evs.
Proof.
  intros Hrest. unfold with_TemporaryDirectory. fold (workspace e).
  set (w0 := emit _ _).
  assert (∃ evs, trace ((mkdir_parents (workspace e ++ sub);; rest (workspace e)) w0).1
                 = trace w0 ++ EvMkdir (workspace e ++ sub) :: evs) as (evs & E).
  { cbv [mkdir_parents bind tell].
    destruct (Disk.mkdir_p _ _) as [fs|].
    - destruct (Hrest (set_disk fs (emit (EvMkdir (workspace e ++ sub)) w0)))
        as (evs & E & _).
      exists evs. rewrite E. cbn [set_disk emit trace]. by rewrite <- (assoc_L (++)).
    - by exists []. }
  destruct ((mkdir_parents _;; rest _) w0) as [w2 r]. cbn [fst] in *.
  exists (evs ++ [EvCleanup (workspace e)]). cbn [emit set_disk trace].
  rewrite E. subst w0. cbn [emit set_disk trace]. by rewrite <- !(assoc_L (++)).
Qed.

Lemma div_plain (d : path) (c : string) :
  c ≠ EmptyString → c ≠ "." → Py.contains "/" c = false → Path.div d c = d ++ [c].
Proof.
  intros H1 H2 H3. unfold Path.div, Path.parts.
  rewrite (PyFacts.split_char_absent "/" c H3).
  destruct c as [|a c]; [done|]. cbn [Py.startswith].
  change (Py.contains "/" (String a c) = false) in H3.
  rewrite PyFacts.contains_char_cons in H3. apply orb_false_iff in H3 as [-> _].
  rewrite filter_cons, decide_True by done. done.
Qed.

Ltac emits_trivially :=
  repeat first
    [ apply emits_ret | apply emits_raise | apply emits_lift_disk | apply emits_lift_result
    | apply emits_assert_known_table
    | (apply emits_tell; exact I) | (apply emits_mkdir_parents; exact I)
    | (eapply emits_weaken; [|apply emits_upload_folder]; intros; exact I)
    | (eapply emits_weaken; [|apply emits_download_folder]; intros; exact I)
    | (apply emits_silent; intros; reflexivity)
    | (apply emits_bind; [|intros ?]) ].

(** C4. With a table name outside the registry, [update_table] and
    [combine_table] raise [AssertionError] and leave the world as it was: no
    workspace, no access to the bucket, no event of any kind.  With a
    registered name the assertion passes and the stage goes on: its trace
    opens with the allocation of the workspace and the creation of its first
    directory. *)
Theorem table_name_precondition (e : env) (table_name : option string) (idx : option Z)
    (w : world) :
  ((∀ name, effective_table_name e table_name = Some name → name ∉ get_table_names e) →
     update_table e table_name idx w = (w, Raise AssertionError)
     ∧ combine_table e table_name w = (w, Raise AssertionError))
  ∧ (∀ name, effective_table_name e table_name = Some name → name ∈ get_table_names e →
       assert_known_table e (effective_table_name e table_name) w = (w, Ok name)
       ∧ (∃ evs, trace (update_table e table_name idx w).1
                 = trace w ++ EvMkdtemp (workspace e)
                             :: EvMkdir (workspace e ++ ["snapshot"]) :: evs)
       ∧ (∃ evs, trace (combine_table e table_name w).1
                 = trace w ++ EvMkdtemp (workspace e)
                             :: EvMkdir (workspace e ++ ["tables"]) :: evs)).
Proof.
  split.
  - intros H. unfold update_table, combine_table, bind.
    by rewrite (assert_known_table_fail _ _ _ H).
  - intros name Hn Hin.
    assert (assert_known_table e (effective_table_name e table_name) w = (w, Ok name)) as Ha.
    { rewrite Hn. by apply assert_known_table_pass. }
    split; [done|]. split.
    + unfold update_table. unfold bind at 1. rewrite Ha.
      apply (stage_opening e ["snapshot"]
               (λ d, mkdir_parents (Path.div d "intermediate");; _)).
      emits_trivially.
      destruct (effective_idx e idx) as [i|]; [|apply emits_ret].
      destruct (py_index _ _); [apply emits_ret|apply emits_raise].
    + unfold combine_table. unfold bind at 1. rewrite Ha.
      apply (stage_opening e ["tables"]
               (λ d, download_folder e (GCS_BUCKET_TEST e) "intermediate"
                       (Path.div d "intermediate");; _)).
      emits_trivially.
Qed.

Lemma table_name_precondition_witness :
  update_table Sample.calm (Some "hospitalizations") None Sample.cached
    = (Sample.cached, Raise AssertionError)
  ∧ combine_table Sample.calm (Some "hospitalizations") Sample.cached
    = (Sample.cached, Raise AssertionError)
  ∧ assert_known_table Sample.calm (effective_table_name Sample.calm (Some "by-age"))
      Sample.cached = (Sample.cached, Ok "by-age").
Proof.
  pose proof (table_name_precondition Sample.calm (Some "hospitalizations") None Sample.cached)
    as [Hbad _].
  pose proof (table_name_precondition Sample.calm (Some "by-age") None Sample.cached)
    as [_ Hgood].
  destruct Hbad as [H1 H2].
  { intros name [= <-]. by apply (bool_decide_unpack _). }
  destruct (Hgood "by-age" eq_refl) as [H3 _].
  { by apply (bool_decide_unpack _). }
  exact (conj H1 (conj H2 H3)).
Defined.

(** With [idx=1] only the second source is processed; with [idx=0] and no
    [idx] in the request, both are; source 0 is reached through the request. *)
Example update_table_idx_runs :
  let keys w := fst <$> map_to_list (store w) in
  let asks_for_0 :=
    Sample.with_request Sample.calm {["idx" := "0"]}
      (λ s, match s with Some "0" => Some 0%Z | _ => None end) in
  keys (update_table Sample.calm (Some "by-age") (Some 1%Z) blank).1
    = [("test", "snapshot/by_age-src1.raw"); ("test", "intermediate/by_age-src1.csv")]
  ∧ length (keys (update_table Sample.calm (Some "by-age") (Some 0%Z) blank).1) = 4
  ∧ keys (update_table asks_for_0 (Some "by-age") (Some 0%Z) blank).1
    = [("test", "snapshot/by_age-src0.raw"); ("test", "intermediate/by_age-src0.csv")]
  ∧ (update_table Sample.calm (Some "by-age") (Some 2%Z) blank).2 = Raise IndexError
  ∧ keys (update_table Sample.calm (Some "by-age") (Some (-1)%Z) blank).1
    = [("test", "snapshot/by_age-src1.raw"); ("test", "intermediate/by_age-src1.csv")].
Proof. by vm_compute. Qed.

(** ** Stage isolation *)

Lemma relative_to_Some (p d rel : path) : Path.relative_to p d = Some rel ↔ p = d ++ rel.
Proof.
  revert p. induction d as [|x d IH]; intros [|y p]; cbn [Path.relative_to app].
  - split; [by intros [= <-]|by intros <-].
  - split; [by intros [= <-]|by intros <-].
  - done.
  - case_decide as E.
    + subst y. rewrite IH. split; [by intros ->|by intros [= ->]].
    + split; [done|]. intros [= ? _]. by subst.
Qed.








(** ** FolderSync: one task *)

Lemma thread_map_world {A B} (f : A → M B) (xs : list A) (w : world) :
  (thread_map f xs w).1 = foldl (λ w' x, (f x w').1) w xs.
Proof.
  revert w. induction xs as [|x xs IH]; intros w; [done|]. cbn [thread_map foldl].
  destruct (f x w) as [w1 r] eqn:E. specialize (IH w1).
  destruct (thread_map f xs w1) as [w2 rs]. by cbn [fst] in *.
Qed.

Lemma thread_map_ok {A} (f : A → M unit) (xs : list A) (w : world) :
  (∀ x w', x ∈ xs → (f x w').2 = Ok tt) → ∃ bs, (thread_map f xs w).2 = Ok bs.
Proof.
  revert w. induction xs as [|x xs IH]; intros w H; [by eexists|]. cbn [thread_map].
  pose proof (H x w ltac:(left)) as Hx. destruct (f x w) as [w1 r]. cbn [snd] in Hx. subst r.
  destruct (IH w1) as [bs Hbs]; [intros; apply H; by right|].
  destruct (thread_map f xs w1) as [w2 rs]. cbn [snd] in *. subst rs. by eexists.
Qed.

(** One upload attempt, and the loop around it. *)
Lemma upload_attempt_run (e : env) (b name : string) (p : path) (i : nat) (w : world) :
  upload_from_filename e b name p i w
  = match disk w !! p with
    | Some (File data) =>
      if upload_ok e b name i
      then (set_store (<[(b, name) := data]> (store w)) (emit (EvUploadAttempt b name p) w),
            Ok tt)
      else (emit (EvUploadAttempt b name p) w, Raise StoreError)
    | _ => (emit (EvUploadAttempt b name p) w, Raise OSError)
    end.
Proof. reflexivity. Qed.

Lemma upload_retry_general (e : env) (b name : string) (p : path) (n i : nat) (w : world) :
  let run := retry_loop n i (upload_from_filename e b name p) w in
  run.2 = Ok tt
  ∧ disk run.1 = disk w
  ∧ store run.1 = match disk w !! p with
                  | Some (File data) =>
                    if existsb (upload_ok e b name) (seq i n)
                    then <[(b, name) := data]> (store w) else store w
                  | _ => store w
                  end.
Proof.
  revert i w. induction n as [|n IH]; intros i w; cbn [retry_loop seq existsb].
  { cbn. by destruct (disk w !! p) as [[|data]|]. }
  rewrite upload_attempt_run.
  destruct (disk w !! p) as [[|data]|] eqn:Hp.
  - destruct (IH (S i) (emit (EvStderr OSError) (emit (EvUploadAttempt b name p) w)))
      as (H1 & H2 & H3).
    cbn [emit disk store] in *. by rewrite Hp in H3.
  - destruct (upload_ok e b name i); [done|]. cbn [orb].
    destruct (IH (S i) (emit (EvStderr StoreError) (emit (EvUploadAttempt b name p) w)))
      as (H1 & H2 & H3).
    cbn [emit disk store] in *. by rewrite Hp in H3.
  - destruct (IH (S i) (emit (EvStderr OSError) (emit (EvUploadAttempt b name p) w)))
      as (H1 & H2 & H3).
    cbn [emit disk store] in *. by rewrite Hp in H3.
Qed.

(** The retry loop around an upload: never raises, never touches the disk,
    and stores the file exactly when it is a regular file and one of the
    three attempts goes through. *)
Lemma upload_retry_run (e : env) (b name : string) (p : path) (w : world) :
  let run := retry_loop BLOB_OP_MAX_RETRIES 0 (upload_from_filename e b name p) w in
  run.2 = Ok tt
  ∧ disk run.1 = disk w
  ∧ store run.1 = match disk w !! p with
                  | Some (File data) =>
                    if some_attempt_ok (upload_ok e b name)
                    then <[(b, name) := data]> (store w) else store w
                  | _ => store w
                  end.
Proof. apply upload_retry_general. Qed.

Lemma upload_retry_fail_general (e : env) (b name : string) (p : path) (n i : nat)
    (w : world) :
  (∀ j, upload_ok e b name j = false) →
  ∃ ex, trace (retry_loop n i (upload_from_filename e b name p) w).1
        = trace w ++ mjoin (replicate n [EvUploadAttempt b name p; EvStderr ex]).
Proof.
  intros Hfail. exists (match disk w !! p with Some (File _) => StoreError | _ => OSError end).
  revert i w. induction n as [|n IH]; intros i w; cbn [retry_loop replicate mjoin list_join].
  { cbn. by rewrite app_nil_r. }
  rewrite upload_attempt_run, Hfail.
  destruct (disk w !! p) as [[|data]|] eqn:Hp.
  all: rewrite IH; cbn [emit disk store trace]; rewrite Hp;
    by rewrite <- !(assoc_L (++)).
Qed.

(** When every attempt fails there are exactly three of them, each followed
    by the exception on [stderr]. *)
Lemma upload_retry_all_fail (e : env) (b name : string) (p : path) (w : world) :
  (∀ i, upload_ok e b name i = false) →
  ∃ ex, trace (retry_loop BLOB_OP_MAX_RETRIES 0 (upload_from_filename e b name p) w).1
        = trace w ++ [EvUploadAttempt b name p; EvStderr ex;
                      EvUploadAttempt b name p; EvStderr ex;
                      EvUploadAttempt b name p; EvStderr ex].
Proof. apply upload_retry_fail_general. Qed.

Lemma upload_file_run (e : env) (b remote_path : string) (local_folder p : path) (w : world) :
  is_Some (Path.relative_to p local_folder) →
  let run := _upload_file e b local_folder remote_path p w in
  run.2 = Ok tt
  ∧ disk run.1 = disk w
  ∧ store run.1 = upload_effect e b remote_path local_folder (disk w) (store w) p.
Proof.
  intros [rel Hrel]. unfold _upload_file, upload_effect, upload_write. rewrite Hrel.
  rewrite bind_tell.
  destruct (upload_retry_run e b (blob_name_of remote_path rel) p
              (emit (EvPrint ("Uploading " +:+ abs_str p +:+ " to " +:+ remote_path +:+ "/")) w))
    as (H1 & H2 & H3).
  cbn [emit disk store] in *. split; [done|]. split; [done|]. rewrite H3.
  destruct (disk w !! p) as [[|data]|]; [done| |done].
  by destruct (some_attempt_ok _).
Qed.

(** ** Opening a file for writing *)

Lemma locate_ext (rest base : path) (fs fs' : gmap path node) :
  (∀ x, Disk.is_dir fs x = Disk.is_dir fs' x) →
  Disk.locate base rest fs = Disk.locate base rest fs'.
Proof.
  intros H. revert base. induction rest as [|c rest IH]; intros base; [done|].
  cbn [Disk.locate]. case_decide; [apply IH|]. destruct rest as [|c' rest]; [done|].
  rewrite H. destruct (Disk.is_dir fs' _); [apply IH|done].
Qed.

Lemma is_dir_partial_alter (fs : gmap path node) (q x : path) (v : option node) :
  Disk.is_dir fs q = false → v ≠ Some Dir →
  Disk.is_dir (partial_alter (λ _, v) q fs) x = Disk.is_dir fs x.
Proof.
  intros Hq Hv. destruct (decide (x = q)) as [->|Hne].
  - rewrite Hq. unfold Disk.is_dir in *. destruct q as [|c q]; [done|].
    apply bool_decide_eq_false. by rewrite lookup_partial_alter_eq.
  - unfold Disk.is_dir. destruct x as [|c x]; [done|].
    by rewrite lookup_partial_alter_ne.
Qed.

Lemma writable_Some (p q : path) (fs : gmap path node) :
  Disk.writable p fs = Some q →
  q ≠ [] ∧ Disk.is_dir fs q = false ∧ fs !! q ≠ Some Dir ∧ Disk.locate [] p fs = Some q.
Proof.
  unfold Disk.writable. destruct (Disk.locate [] p fs) as [[|c r]|]; [done| |done].
  destruct (Disk.is_dir fs (c :: r)) eqn:E; [done|]. intros [= <-].
  split; [done|]. split; [done|]. split; [|done].
  by apply bool_decide_eq_false in E.
Qed.

(** What is put where a file was opened does not change where it opens. *)
Lemma writable_partial_alter (p q : path) (fs : gmap path node) (v : option node) :
  Disk.writable p fs = Some q → v ≠ Some Dir →
  Disk.writable p (partial_alter (λ _, v) q fs) = Some q.
Proof.
  intros Hw Hv. destruct (writable_Some _ _ _ Hw) as (Hne & Hd & _ & Hl).
  unfold Disk.writable.
  rewrite <- (locate_ext p [] fs) by (intros x; symmetry; by apply is_dir_partial_alter).
  rewrite Hl. destruct q as [|c q]; [done|].
  by rewrite (is_dir_partial_alter fs (c :: q) (c :: q) v Hd Hv), Hd.
Qed.

Lemma partial_alter_twice (fs : gmap path node) (q : path) (v v' : option node) :
  partial_alter (λ _, v) q (partial_alter (λ _, v') q fs) = partial_alter (λ _, v) q fs.
Proof.
  apply map_eq. intros x. destruct (decide (x = q)) as [->|Hne].
  - by rewrite !lookup_partial_alter_eq.
  - by rewrite !lookup_partial_alter_ne.
Qed.

Lemma left_behind_file (leaves : option nat) (data : content) :
  left_behind leaves data = File <$> ((λ k, take k data) <$> leaves)
  ∧ left_behind leaves data ≠ Some Dir.
Proof. by destruct leaves. Qed.

(** One download attempt, and the loop around it. *)
Lemma download_attempt_run (e : env) (b name : string) (p : path) (i : nat) (w : world) :
  download_to_filename e b name p i w
  = match Disk.writable p (disk w) with
    | None => (emit (EvDownloadAttempt b name p) w, Raise OSError)
    | Some q =>
      match store w !! (b, name) with
      | Some data =>
        if download_ok e b name i
        then (set_disk (<[q := File data]> (disk w)) (emit (EvDownloadAttempt b name p) w),
              Ok tt)
        else (set_disk (partial_alter
                          (λ _, left_behind (download_leaves e b name i) data) q (disk w))
                (emit (EvDownloadAttempt b name p) w), Raise StoreError)
      | None =>
        (set_disk (partial_alter
                     (λ _, left_behind (download_leaves e b name i) []) q (disk w))
           (emit (EvDownloadAttempt b name p) w), Raise StoreError)
      end
    end.
Proof.
  unfold download_to_filename, bind, tell. cbn [emit disk store].
  destruct (Disk.writable p (disk w)); [|done].
  destruct (store w !! (b, name)); [|done]. by destruct (download_ok e b name i).
Qed.

Lemma download_retry_general (e : env) (b name : string) (p : path) (n i : nat)
    (w : world) :
  let run := retry_loop n i (download_to_filename e b name p) w in
  run.2 = Ok tt
  ∧ store run.1 = store w
  ∧ disk run.1 = match Disk.writable p (disk w),
                       attempts_leave e b name (store w !! (b, name)) n i with
                 | Some q, Some v => partial_alter (λ _, File <$> v) q (disk w)
                 | _, _ => disk w
                 end.
Proof.
  revert i w. induction n as [|n IH]; intros i w; cbn [retry_loop attempts_leave].
  { cbn. by destruct (Disk.writable p (disk w)). }
  rewrite download_attempt_run.
  destruct (Disk.writable p (disk w)) as [q|] eqn:Hw.
  2: { destruct (IH (S i) (emit (EvStderr OSError) (emit (EvDownloadAttempt b name p) w)))
         as (H1 & H2 & H3).
       cbn [emit disk store] in *. by rewrite Hw in H3. }
  assert (∀ data ex,
            let w1 := emit (EvStderr ex)
                        (set_disk (partial_alter
                                     (λ _, left_behind (download_leaves e b name i) data)
                                     q (disk w))
                           (emit (EvDownloadAttempt b name p) w)) in
            store w1 = store w
            ∧ (retry_loop n (S i) (download_to_filename e b name p) w1).2 = Ok tt
            ∧ store (retry_loop n (S i) (download_to_filename e b name p) w1).1 = store w
            ∧ disk (retry_loop n (S i) (download_to_filename e b name p) w1).1
              = partial_alter
                  (λ _, File <$> default ((λ k, take k data) <$> download_leaves e b name i)
                                   (attempts_leave e b name (store w !! (b, name)) n (S i)))
                  q (disk w)) as Hfail.
  { intros data ex w1. destruct (IH (S i) w1) as (H1 & H2 & H3).
    subst w1. cbn [emit set_disk disk store] in *.
    split; [done|]. split; [done|]. split; [done|]. rewrite H3.
    destruct (left_behind_file (download_leaves e b name i) data) as [Hl Hnd].
    rewrite (writable_partial_alter _ _ _ _ Hw Hnd).
    destruct (attempts_leave _ _ _ _ _ _) as [v|]; cbn [default from_option]; unfold id.
    - by rewrite partial_alter_twice.
    - by rewrite Hl. }
  destruct (store w !! (b, name)) as [data|] eqn:Hs.
  - destruct (download_ok e b name i); [done|].
    by destruct (Hfail data StoreError) as (_ & ? & ? & ?).
  - by destruct (Hfail [] StoreError) as (_ & ? & ? & ?).
Qed.

Lemma attempts_leave_all (e : env) (b name : string) (st : gmap (string * string) content) :
  attempts_leave e b name (st !! (b, name)) BLOB_OP_MAX_RETRIES 0
  = Some (download_result e b name st).
Proof.
  unfold download_result, some_attempt_ok. cbn [BLOB_OP_MAX_RETRIES attempts_leave seq existsb].
  destruct (st !! (b, name)) as [data|]; [|done].
  destruct (download_ok e b name 0); [done|].
  destruct (download_ok e b name 1); [done|].
  by destruct (download_ok e b name 2).
Qed.

(** The retry loop around a download, once the parent directory exists. *)
Lemma download_retry_run (e : env) (b name : string) (p : path) (w : world) :
  let run := retry_loop BLOB_OP_MAX_RETRIES 0 (download_to_filename e b name p) w in
  run.2 = Ok tt
  ∧ store run.1 = store w
  ∧ disk run.1 = match Disk.writable p (disk w) with
                 | Some q =>
                   partial_alter (λ _, File <$> download_result e b name (store w)) q (disk w)
                 | None => disk w
                 end.
Proof.
  destruct (download_retry_general e b name p BLOB_OP_MAX_RETRIES 0 w) as (H1 & H2 & H3).
  rewrite attempts_leave_all in H3. done.
Qed.

Lemma download_retry_fail_general (e : env) (b name : string) (p : path) (n i : nat)
    (w : world) :
  (∀ j, download_ok e b name j = false) →
  ∃ ex, trace (retry_loop n i (download_to_filename e b name p) w).1
        = trace w ++ mjoin (replicate n [EvDownloadAttempt b name p; EvStderr ex]).
Proof.
  intros Hfail.
  exists (match Disk.writable p (disk w) with Some _ => StoreError | None => OSError end).
  revert i w. induction n as [|n IH]; intros i w; cbn [retry_loop replicate mjoin list_join].
  { cbn. by rewrite app_nil_r. }
  rewrite download_attempt_run, Hfail.
  destruct (Disk.writable p (disk w)) as [q|] eqn:Hw.
  - destruct (store w !! (b, name)) as [data|] eqn:Hs.
    all: rewrite IH; cbn [emit set_disk disk store trace].
    all: rewrite (writable_partial_alter _ _ _ _ Hw)
      by apply left_behind_file.
    all: by rewrite <- !(assoc_L (++)).
  - rewrite IH. cbn [emit disk store trace]. rewrite Hw. by rewrite <- !(assoc_L (++)).
Qed.

Lemma download_retry_all_fail (e : env) (b name : string) (p : path) (w : world) :
  (∀ i, download_ok e b name i = false) →
  ∃ ex, trace (retry_loop BLOB_OP_MAX_RETRIES 0 (download_to_filename e b name p) w).1
        = trace w ++ [EvDownloadAttempt b name p; EvStderr ex;
                      EvDownloadAttempt b name p; EvStderr ex;
                      EvDownloadAttempt b name p; EvStderr ex].
Proof. apply download_retry_fail_general. Qed.

Lemma download_blob_run (e : env) (b remote_path : string) (local_folder : path)
    (name : string) (w : world) :
  let run := _download_blob e b remote_path local_folder name w in
  store run.1 = store w
  ∧ disk run.1 = place (disk w) (download_task e b remote_path local_folder (store w) name)
  ∧ run.2 = match Disk.mkdir_p (Path.parent (download_target remote_path local_folder name))
                    (disk w) with
            | Some _ => Ok tt
            | None => Raise OSError
            end.
Proof.
  unfold _download_blob, place, download_task, download_target. cbn [fst snd].
  set (fp := Path.div local_folder (blob_rel_path remote_path name)).
  cbv [bind tell]. cbn [emit disk].
  destruct (Disk.mkdir_p (Path.parent fp) (disk w)) as [fs|] eqn:Hm; cbn zeta.
  - set (w1 := set_disk fs _).
    destruct (download_retry_run e b name fp w1) as (H1 & H2 & H3).
    subst w1. cbn [set_disk emit disk store] in *. done.
  - done.
Qed.

(** ** Joining and splitting paths *)

Lemma app_String (c : ascii) (s t : string) : String c s +:+ t = String c (s +:+ t).
Proof. reflexivity. Qed.

Lemma split_slash_app (x s : string) :
  Py.contains "/" x = false →
  Py.split "/" None (x +:+ "/" +:+ s) = x :: Py.split "/" None s.
Proof.
  induction x as [|a x IH]; intros Hx.
  - change (EmptyString +:+ "/" +:+ s) with (String "/" s).
    by rewrite PyFacts.split_char_cons.
  - rewrite PyFacts.contains_char_cons in Hx. apply orb_false_iff in Hx as [Ha Hx].
    rewrite app_String, PyFacts.split_char_cons, Ha, IH by done. done.
Qed.

Lemma split_join_slash (rel : path) :
  rel ≠ [] → Forall (λ c, Py.contains "/" c = false) rel →
  Py.split "/" None (Py.join "/" rel) = rel.
Proof.
  intros Hne H. induction H as [|c rel Hc H IH]; [done|].
  destruct rel as [|c' rel]; cbn [Py.join].
  - by apply PyFacts.split_char_absent.
  - rewrite split_slash_app by done. f_equal. by apply IH.
Qed.

Lemma valid_names_slash_free (rel : path) :
  Forall valid_name rel → Forall (λ c, Py.contains "/" c = false) rel.
Proof. intros H. eapply Forall_impl; [exact H|]. by intros c (_ & _ & _ & ?). Qed.

Lemma valid_names_plain (p : path) : Forall valid_name p → ".." ∉ p.
Proof.
  intros H Hin. rewrite Forall_forall in H. by destruct (H _ Hin) as (_ & _ & ? & _).
Qed.

Lemma join_slash_starts (rel : path) :
  rel ≠ [] → Forall valid_name rel → Py.startswith "/" (Py.join "/" rel) = false.
Proof.
  intros Hne H. destruct H as [|c rel (Hc1 & _ & _ & Hc2) H]; [done|].
  destruct c as [|a c]; [done|].
  rewrite PyFacts.contains_char_cons in Hc2. apply orb_false_iff in Hc2 as [Ha _].
  destruct rel; cbn [Py.join]; rewrite ?app_String; cbn [Py.startswith]; by rewrite Ha.
Qed.

Lemma parts_join_slash (rel : path) :
  rel ≠ [] → Forall valid_name rel → Path.parts (Py.join "/" rel) = rel.
Proof.
  intros Hne H. unfold Path.parts.
  rewrite split_join_slash by (done || by apply valid_names_slash_free).
  clear Hne. induction H as [|c rel (Hc1 & Hc2 & _) H IH]; [done|].
  rewrite filter_cons, decide_True by done. by f_equal.
Qed.

(** [local_folder / str(rel)] leads back to the entry [rel] names. *)
Lemma div_str (d rel : path) :
  rel ≠ [] → Forall valid_name rel → Path.div d (Path.str rel) = d ++ rel.
Proof.
  intros Hne H. unfold Path.div, Path.str. destruct rel as [|c rel]; [done|].
  by rewrite join_slash_starts, parts_join_slash.
Qed.

Lemma blob_name_of_valid (remote_path : string) (rel : path) :
  rel ≠ [] → Forall valid_name rel →
  blob_name_of remote_path rel
  = remote_path
    +:+ (if (String.eqb remote_path EmptyString || ends_with_slash remote_path)%bool
         then EmptyString else "/")
    +:+ Py.join "/" rel.
Proof.
  intros Hne H. unfold blob_name_of, os_path_join, Path.str.
  destruct rel as [|c rel]; [done|]. rewrite join_slash_starts by done.
  by destruct (_ || _)%bool.
Qed.

Lemma blob_name_of_inj (remote_path : string) (rel rel' : path) :
  rel ≠ [] → rel' ≠ [] → Forall valid_name rel → Forall valid_name rel' →
  blob_name_of remote_path rel = blob_name_of remote_path rel' → rel = rel'.
Proof.
  intros Hne Hne' H H' E. rewrite !blob_name_of_valid in E by done.
  apply (inj (String.app remote_path)) in E.
  apply (inj (String.app _)) in E.
  rewrite <- (split_join_slash rel), <- (split_join_slash rel'), E;
    (done || by apply valid_names_slash_free).
Qed.

(** ** FolderSync: [upload_folder] as a whole *)

Lemma upload_tasks_fold (e : env) (b remote_path : string) (local_folder : path)
    (files : list path) (w : world) :
  Forall (λ p, is_Some (Path.relative_to p local_folder)) files →
  let w' := foldl (λ w' p, (_upload_file e b local_folder remote_path p w').1) w files in
  disk w' = disk w
  ∧ store w' = foldl (upload_effect e b remote_path local_folder (disk w)) (store w) files.
Proof.
  intros H. revert w. induction H as [|p files Hp _ IH]; intros w; [done|].
  cbn [foldl]. destruct (upload_file_run e b remote_path local_folder p w Hp) as (_ & Hd & Hs).
  destruct (IH (_upload_file e b local_folder remote_path p w).1) as [IH1 IH2].
  rewrite Hd, Hs in *. done.
Qed.

Lemma glob_dotted_relative (d : path) (fs : gmap path node) :
  Forall (λ p, is_Some (Path.relative_to p d)) (Disk.glob_dotted d fs).
Proof.
  apply Forall_forall. intros p [_ (rel & -> & _)%glob_selects_relative]%elem_of_glob_dotted.
  by eexists.
Qed.

(** [upload_folder] never raises once the bucket is known, leaves the disk
    alone and applies the upload tasks of the matched entries in turn. *)
Lemma upload_folder_run (e : env) (bucket_name remote_path b : string) (local_folder : path)
    (w : world) :
  bucket_of e bucket_name = Some b →
  let run := upload_folder e bucket_name remote_path local_folder w in
  run.2 = Ok tt
  ∧ disk run.1 = disk w
  ∧ store run.1 = foldl (upload_effect e b remote_path local_folder (disk w)) (store w)
                        (Disk.glob_dotted local_folder (disk w)).
Proof.
  intros Hb. unfold upload_folder, bind. rewrite (get_storage_bucket_run _ _ _ _ Hb).
  pose proof (glob_dotted_relative local_folder (disk w)) as Hrel.
  pose proof (thread_map_world (_upload_file e b local_folder remote_path)
                (Disk.glob_dotted local_folder (disk w)) w) as Hw.
  destruct (thread_map_ok (_upload_file e b local_folder remote_path)
              (Disk.glob_dotted local_folder (disk w)) w) as [bs Hbs].
  { intros p w' Hp. rewrite Forall_forall in Hrel.
    by destruct (upload_file_run e b remote_path local_folder p w' (Hrel p Hp)). }
  destruct (thread_map _ _ w) as [w' r]. cbn [fst snd] in *. subst r w'.
  split; [done|]. by apply upload_tasks_fold.
Qed.

Lemma upload_folder_no_bucket (e : env) (bucket_name remote_path : string)
    (local_folder : path) (w : world) :
  bucket_of e bucket_name = None →
  upload_folder e bucket_name remote_path local_folder w = (w, Raise AssertionError).
Proof.
  intros Hb. unfold upload_folder, bind. by rewrite (get_storage_bucket_fail _ _ _ Hb).
Qed.

(** A fold of writes into a map, looked up at one key. *)
Section FoldWrites.
Context {K V X : Type} `{Countable K}.
Context (wr : X → option (K * V)).

Lemma fold_writes_untouched (xs : list X) (m : gmap K V) (k : K) :
  (∀ x v, x ∈ xs → wr x ≠ Some (k, v)) → foldl (write_step wr) m xs !! k = m !! k.
Proof.
  revert m. induction xs as [|x xs IH]; intros m Hx; [done|]. cbn [foldl].
  rewrite IH by (intros; apply Hx; by right). unfold write_step.
  destruct (wr x) as [[k' v]|] eqn:E; [|done].
  apply lookup_insert_ne. intros ->. by eapply (Hx x v); [left|].
Qed.

Lemma fold_writes_written (xs : list X) (m : gmap K V) (x : X) (k : K) (v : V) :
  x ∈ xs → wr x = Some (k, v) →
  (∀ y v', y ∈ xs → wr y = Some (k, v') → v' = v) →
  foldl (write_step wr) m xs !! k = Some v.
Proof.
  induction xs as [|y xs IH] using rev_ind; intros Hin Hx Hsame;
    [by apply elem_of_nil in Hin|].
  rewrite foldl_app. cbn [foldl]. unfold write_step at 1.
  destruct (wr y) as [[k' v']|] eqn:E.
  - destruct (decide (k' = k)) as [->|Hk].
    + rewrite lookup_insert_eq. f_equal. eapply Hsame; [|done].
      apply elem_of_app. right. by left.
    + rewrite lookup_insert_ne by done. apply IH; [|done|].
      * apply elem_of_app in Hin as [?|Hy]; [done|].
        apply list_elem_of_singleton in Hy as ->. congruence.
      * intros z v'' Hz. apply Hsame. apply elem_of_app. by left.
  - apply IH; [|done|].
    + apply elem_of_app in Hin as [?|Hy]; [done|].
      apply list_elem_of_singleton in Hy as ->. congruence.
    + intros z v'' Hz. apply Hsame. apply elem_of_app. by left.
Qed.
End FoldWrites.

(** ** The disk: [mkdir -p] and writing a file *)

(** [mkdirs] succeeds when no regular file is in the way, turns every path
    on the way into a directory and changes nothing else. *)
Lemma mkdirs_step (c : string) (rest base : path) (fs : gmap path node) :
  c ≠ ".." →
  Disk.mkdirs base (c :: rest) fs
  = match fs !! (base ++ [c]) with
    | Some (File _) => None
    | Some Dir => Disk.mkdirs (base ++ [c]) rest fs
    | None => Disk.mkdirs (base ++ [c]) rest (<[base ++ [c] := Dir]> fs)
    end.
Proof. intros Hc. cbn [Disk.mkdirs]. by rewrite decide_False. Qed.

Lemma mkdirs_spec (rest base : path) (fs : gmap path node) :
  ".." ∉ rest →
  (∀ r c, r ≠ [] → r `prefix_of` rest → fs !! (base ++ r) ≠ Some (File c)) →
  ∃ fs', Disk.mkdirs base rest fs = Some fs'
    ∧ (∀ r, r ≠ [] → r `prefix_of` rest → fs' !! (base ++ r) = Some Dir)
    ∧ (∀ q, (∀ r, r ≠ [] → r `prefix_of` rest → q ≠ base ++ r) → fs' !! q = fs !! q).
Proof.
  revert base fs. induction rest as [|c rest IH]; intros base fs Hplain Hroom.
  { exists fs. split; [done|]. split; [|done].
    intros r Hr Hp. by apply prefix_nil_inv in Hp. }
  apply not_elem_of_cons in Hplain as [Hc Hplain].
  assert (∀ r', (base ++ [c]) ++ r' = base ++ c :: r') as Hassoc.
  { intros r'. by rewrite <- (assoc_L (++)). }
  assert (∃ fsm, Disk.mkdirs base (c :: rest) fs = Disk.mkdirs (base ++ [c]) rest fsm
                 ∧ fsm !! (base ++ [c]) = Some Dir
                 ∧ ∀ q, q ≠ base ++ [c] → fsm !! q = fs !! q) as (fsm & -> & Hq0 & Hfsm).
  { rewrite mkdirs_step by done. destruct (fs !! (base ++ [c])) as [[|data]|] eqn:E.
    - exists fs. done.
    - exfalso. by apply (Hroom [c] data); [|apply prefix_cons, prefix_nil|].
    - exists (<[base ++ [c] := Dir]> fs). split; [done|].
      split; [apply lookup_insert_eq|]. intros q Hq. by apply lookup_insert_ne. }
  destruct (IH (base ++ [c]) fsm) as (fs' & Hfs' & Ha & Hb); [done| |].
  { intros r' data Hr' Hp. rewrite Hassoc, Hfsm.
    - apply Hroom; [done|]. by apply prefix_cons.
    - intros E. apply (f_equal length) in E. rewrite !length_app in E.
      destruct r'; [done|]. cbn in E. lia. }
  exists fs'. split; [done|]. split.
  - intros r Hr Hp. destruct r as [|x r]; [done|].
    pose proof (prefix_cons_inv_1 _ _ _ _ Hp) as ->.
    apply prefix_cons_inv_2 in Hp. destruct r as [|y r].
    + rewrite Hb; [done|]. intros r' Hr' _ E. rewrite Hassoc in E.
      apply app_inv_head in E. injection E as E. by subst.
    + rewrite <- Hassoc. by apply Ha.
  - intros q Hq. rewrite Hb.
    + apply Hfsm. apply (Hq [c]); [done|]. apply prefix_cons, prefix_nil.
    + intros r' Hr' Hp. rewrite Hassoc. apply Hq; [done|]. by apply prefix_cons.
Qed.

Lemma mkdir_p_spec (p : path) (fs : gmap path node) :
  ".." ∉ p →
  (∀ q c, q ≠ [] → q `prefix_of` p → fs !! q ≠ Some (File c)) →
  ∃ fs', Disk.mkdir_p p fs = Some fs'
    ∧ (∀ q, q ≠ [] → q `prefix_of` p → fs' !! q = Some Dir)
    ∧ (∀ q, ¬ (q ≠ [] ∧ q `prefix_of` p) → fs' !! q = fs !! q).
Proof.
  intros Hplain Hroom. destruct (mkdirs_spec p [] fs) as (fs' & H1 & H2 & H3); [done| |].
  { intros r c. apply Hroom. }
  exists fs'. split; [done|]. split; [done|].
  intros q Hq. apply H3. intros r Hr Hp ->. by apply Hq.
Qed.

(** A regular file in the way makes [mkdir -p] fail. *)
Lemma mkdirs_blocked (rest base r : path) (c : content) (fs : gmap path node) :
  ".." ∉ r →
  r ≠ [] → r `prefix_of` rest → fs !! (base ++ r) = Some (File c) →
  Disk.mkdirs base rest fs = None.
Proof.
  revert base r fs. induction rest as [|x rest IH]; intros base r fs Hplain Hr Hp Hf.
  { by apply prefix_nil_inv in Hp. }
  destruct r as [|y r]; [done|].
  pose proof (prefix_cons_inv_1 _ _ _ _ Hp) as ->. apply prefix_cons_inv_2 in Hp.
  apply not_elem_of_cons in Hplain as [Hx Hplain].
  rewrite mkdirs_step by done. destruct r as [|y r].
  - by rewrite Hf.
  - assert ((base ++ [x]) ++ y :: r = base ++ x :: y :: r) as Hassoc.
    { by rewrite <- (assoc_L (++)). }
    destruct (fs !! (base ++ [x])) as [[|data]|] eqn:E; [|done|].
    + apply (IH _ (y :: r)); [done..|]. by rewrite Hassoc.
    + apply (IH _ (y :: r)); [done..|]. rewrite Hassoc, lookup_insert_ne; [done|].
      intros E'. apply (f_equal length) in E'. rewrite !length_app in E'. cbn in E'. lia.
Qed.

Lemma parent_prefix (p : path) : Path.parent p `prefix_of` p.
Proof.
  unfold Path.parent. destruct (decide (p = [])) as [->|Hp]; [done|].
  exists [List.last p EmptyString]. by apply app_removelast_last.
Qed.

Lemma parent_strict (p : path) : p ≠ [] → Path.parent p ≠ p.
Proof.
  intros Hp E. unfold Path.parent in E.
  pose proof (app_removelast_last EmptyString Hp) as H. rewrite E in H.
  apply (f_equal length) in H. rewrite length_app in H. cbn in H. lia.
Qed.

Lemma prefix_of_parent (q p : path) : q `prefix_of` p → q ≠ p → q `prefix_of` Path.parent p.
Proof.
  intros [r ->] Hq. destruct r as [|x r] using rev_ind; [by rewrite app_nil_r in Hq|].
  unfold Path.parent. rewrite (assoc_L (++)), removelast_last. by eexists.
Qed.

Lemma plain_prefix (q p : path) : ".." ∉ p → q `prefix_of` p → ".." ∉ q.
Proof. intros Hp [r ->] Hq. apply Hp, elem_of_app. by left. Qed.

(** A path without [..] whose directories are all there leads to itself. *)
Lemma locate_plain (rest base : path) (fs : gmap path node) :
  ".." ∉ rest →
  (∀ r, r ≠ [] → r `prefix_of` rest → r ≠ rest → fs !! (base ++ r) = Some Dir) →
  Disk.locate base rest fs = Some (base ++ rest).
Proof.
  revert base. induction rest as [|c rest IH]; intros base Hplain Hdirs.
  { by rewrite app_nil_r. }
  apply not_elem_of_cons in Hplain as [Hc Hplain].
  cbn [Disk.locate]. rewrite decide_False by done.
  destruct rest as [|c' rest]; [done|].
  assert (Disk.is_dir fs (base ++ [c]) = true) as ->.
  { unfold Disk.is_dir. destruct (base ++ [c]) as [|x l] eqn:E; [done|].
    apply bool_decide_eq_true. rewrite <- E.
    apply Hdirs; [done|apply prefix_cons, prefix_nil|done]. }
  rewrite IH; [by rewrite <- (assoc_L (++))|done|].
  intros r Hr Hp Hne. rewrite <- (assoc_L (++)). apply Hdirs; [done|by apply prefix_cons|].
  cbn [app]. intros [= ->]. by apply Hne.
Qed.

Lemma writable_plain (p : path) (fs : gmap path node) :
  ".." ∉ p →
  (∀ q, q ≠ [] → q `prefix_of` p → q ≠ p → fs !! q = Some Dir) →
  Disk.writable p fs = if decide (p ≠ [] ∧ fs !! p ≠ Some Dir) then Some p else None.
Proof.
  intros Hplain Hdirs. unfold Disk.writable.
  rewrite (locate_plain p [] fs Hplain Hdirs). cbn [app].
  destruct p as [|c p]; [by rewrite decide_False by (by intros [? _])|].
  unfold Disk.is_dir. case_bool_decide as Hd.
  - rewrite decide_False; [done|]. by intros [_ ?].
  - by rewrite decide_True.
Qed.

Lemma write_file_spec (p : path) (data : content) (fs : gmap path node) :
  ".." ∉ p →
  (∀ q, q ≠ [] → q `prefix_of` p → q ≠ p → fs !! q = Some Dir) →
  p ≠ [] → fs !! p ≠ Some Dir →
  Disk.write_file p data fs = Some (<[p := File data]> fs).
Proof.
  intros Hplain Hdirs Hp Hf. unfold Disk.write_file.
  by rewrite writable_plain, decide_True.
Qed.

(** ** Placing downloaded files on the disk *)

Lemma strict_prefix_parent (q p : path) :
  q ≠ [] → q `prefix_of` Path.parent p → q `prefix_of` p ∧ q ≠ p.
Proof.
  intros Hq Hp. split; [etrans; [exact Hp|apply parent_prefix]|]. intros ->.
  destruct (decide (p = [])) as [->|Hne]; [done|].
  apply prefix_length in Hp. pose proof (parent_prefix p) as [r Hr].
  assert (r ≠ []).
  { intros ->. rewrite app_nil_r in Hr. by apply (parent_strict p). }
  apply (f_equal length) in Hr. rewrite length_app in Hr. destruct r; [done|]. cbn in Hr. lia.
Qed.

(** One task: with no regular file on the way to the target, the directory
    is made, and the file is written unless a directory has its place. *)
Lemma place_lookup (fs : gmap path node) (fp : path) (od : option content) :
  ".." ∉ fp →
  (∀ q c, q ≠ [] → q `prefix_of` fp → q ≠ fp → fs !! q ≠ Some (File c)) →
  is_Some (Disk.mkdir_p (Path.parent fp) fs)
  ∧ ∀ q, place fs (fp, od) !! q
         = if decide (q ≠ [] ∧ q `prefix_of` fp ∧ q ≠ fp) then Some Dir
           else if decide (q = fp ∧ q ≠ [] ∧ fs !! fp ≠ Some Dir)
                then File <$> od
                else fs !! q.
Proof.
  intros Hplain Hroom.
  destruct (mkdir_p_spec (Path.parent fp) fs) as (fs1 & Hm & Ha & Hb).
  { eapply plain_prefix; [exact Hplain|apply parent_prefix]. }
  { intros q c Hq Hp. destruct (strict_prefix_parent q fp Hq Hp). by apply Hroom. }
  split; [by eexists|]. intros q. unfold place. cbn [fst snd]. rewrite Hm.
  assert (fs1 !! fp = fs !! fp) as Hfp.
  { apply Hb. intros [Hne Hp]. by destruct (strict_prefix_parent fp fp Hne Hp). }
  assert (∀ q, q ≠ [] ∧ q `prefix_of` fp ∧ q ≠ fp → fs1 !! q = Some Dir) as Ha'.
  { intros q' (? & ? & ?). apply Ha; [done|]. by apply prefix_of_parent. }
  assert (∀ q, ¬ (q ≠ [] ∧ q `prefix_of` fp ∧ q ≠ fp) → fs1 !! q = fs !! q) as Hb'.
  { intros q' Hq'. apply Hb. intros [Hne Hp]. apply Hq'.
    destruct (strict_prefix_parent q' fp Hne Hp). done. }
  rewrite (writable_plain fp fs1 Hplain) by (intros q' ? ? ?; by apply Ha').
  rewrite Hfp. destruct (decide (fp ≠ [] ∧ fs !! fp ≠ Some Dir)) as [[Hne Hnd]|Hno].
  - case_decide as H1.
    + rewrite lookup_partial_alter_ne; [by apply Ha'|]. intros ->. by destruct H1 as (_ & _ & ?).
    + case_decide as H2.
      * destruct H2 as (-> & _ & _). by rewrite lookup_partial_alter_eq.
      * rewrite lookup_partial_alter_ne; [by apply Hb'|]. intros ->. by apply H2.
  - case_decide as H1; [by apply Ha'|].
    rewrite decide_False; [by apply Hb'|]. intros (-> & ? & ?). by apply Hno.
Qed.

(** Many tasks: when no target lies on the way to another and no regular
    file of the original disk is on the way to a target, every [mkdir]
    succeeds and the disk ends up as [placed] describes. *)
Lemma place_all (fs0 : gmap path node) (tasks : list (path * option content)) :
  (∀ t, t ∈ tasks → ".." ∉ t.1) →
  (∀ t t', t ∈ tasks → t' ∈ tasks → t.1 `prefix_of` t'.1 → t = t') →
  (∀ t q c, t ∈ tasks → q ≠ [] → q `prefix_of` t.1 → q ≠ t.1 → fs0 !! q ≠ Some (File c)) →
  placed fs0 tasks (foldl place fs0 tasks)
  ∧ ∀ l1 t l2, tasks = l1 ++ t :: l2 →
      is_Some (Disk.mkdir_p (Path.parent t.1) (foldl place fs0 l1)).
Proof.
  induction tasks as [|[fp od] tasks IH] using rev_ind; intros Hplain Hapart Hroom.
  { split.
    - split.
      + intros q c Hq. by left.
      + by intros q c Hq%elem_of_nil.
      + by intros q Hq%elem_of_nil.
      + by intros q t Hq%elem_of_nil.
      + done.
    - intros l1 t l2 E. by destruct l1. }
  destruct IH as [IH Hmk].
  { intros t Ht. apply Hplain, elem_of_app. by left. }
  { intros t t' Ht Ht'. apply Hapart; apply elem_of_app; by left. }
  { intros t q c Ht. apply Hroom. apply elem_of_app. by left. }
  set (fsI := foldl place fs0 tasks) in *.
  assert ((fp, od) ∈ tasks ++ [(fp, od)]) as Hlast.
  { apply elem_of_app. right. by left. }
  assert (∀ t, t ∈ tasks → t ∈ tasks ++ [(fp, od)]) as Hold.
  { intros t Ht. apply elem_of_app. by left. }
  assert (∀ q x, (q, x) ∈ tasks → q `prefix_of` fp → q = fp ∧ x = od) as Hsame.
  { intros q x Hq Hp. by injection (Hapart (q, x) (fp, od) (Hold _ Hq) Hlast Hp). }
  destruct (place_lookup fsI fp od) as [Hmkdir L].
  { apply (Hplain (fp, od)), elem_of_app. right. by left. }
  { intros q c Hq Hp Hne Hf. destruct (placed_file _ _ _ IH q c Hf) as [H0|Hin].
    - by eapply (Hroom (fp, od)).
    - by destruct (Hsame _ _ Hin Hp). }
  assert (fsI !! fp = fs0 !! fp ∨ (fp, od) ∈ tasks) as Hfp.
  { destruct (decide ((fp, od) ∈ tasks)) as [?|Hnew]; [by right|left].
    apply (placed_other _ _ _ IH). intros t Ht Hp. apply Hnew.
    by rewrite (Hapart (fp, od) t Hlast (Hold _ Ht) Hp). }
  split.
  - rewrite foldl_app. cbn [foldl]. fold fsI. split.
    + intros q c. rewrite L. destruct (decide (_ ∧ _ `prefix_of` _ ∧ _)) as [HS|HS]; [by intros [=]|]. destruct (decide (_ = _ ∧ _ ∧ _)) as [HW|HW].
      * destruct od as [c'|]; [|done].
        intros [= ->]. right. by destruct HW as (-> & _).
      * intros Hf. destruct (placed_file _ _ _ IH q c Hf); [by left|right; auto].
    + intros q c Hin Hq Hnd. rewrite L. apply elem_of_app in Hin as [Hin|Hin].
      * pose proof (placed_written _ _ _ IH q c Hin Hq Hnd) as Hw.
        rewrite decide_False.
        2:{ intros (_ & Hp & Hne). by destruct (Hsame _ _ Hin Hp). }
        destruct (decide (_ = _ ∧ _ ∧ _)) as [HW|HW]; [|done]. destruct HW as (-> & _).
        destruct (Hsame _ _ Hin ltac:(reflexivity)) as [_ <-]. done.
      * apply list_elem_of_singleton in Hin as [= <- <-].
        rewrite decide_False by (by intros (_ & _ & ?)).
        rewrite decide_True; [done|]. split; [done|]. split; [done|].
        destruct Hfp as [->|Hin]; [done|].
        intros E. pose proof (placed_written _ _ _ IH q c Hin Hq Hnd) as E'. congruence.
    + intros q Hin Hq Hnd. rewrite L. apply elem_of_app in Hin as [Hin|Hin].
      * pose proof (placed_removed _ _ _ IH q Hin Hq Hnd) as Hs.
        rewrite decide_False.
        2:{ intros (_ & Hp & Hne). by destruct (Hsame _ _ Hin Hp). }
        destruct (decide (_ = _ ∧ _ ∧ _)) as [HW|HW]; [|done]. destruct HW as (-> & _).
        destruct (Hsame _ _ Hin ltac:(reflexivity)) as [_ <-]. done.
      * apply list_elem_of_singleton in Hin as [= <- <-].
        rewrite decide_False by (by intros (_ & _ & ?)).
        rewrite decide_True; [done|]. split; [done|]. split; [done|].
        destruct Hfp as [->|Hin]; [done|].
        intros E. pose proof (placed_removed _ _ _ IH q Hin Hq Hnd) as E'. congruence.
    + intros q t Hin Hq Hp Hne. rewrite L. destruct (decide (_ ∧ _ `prefix_of` _ ∧ _)) as [HS|HS]; [done|].
      apply elem_of_app in Hin as [Hin|Hin].
      * pose proof (placed_dir _ _ _ IH q t Hin Hq Hp Hne) as Hd.
        rewrite decide_False; [done|]. intros (-> & _).
        apply Hne. by destruct (Hapart (fp, od) t Hlast (Hold _ Hin) Hp).
      * apply list_elem_of_singleton in Hin as ->. by destruct HS.
    + intros q Hq.
      assert (¬ q `prefix_of` fp) as Hnp by apply (Hq (fp, od) Hlast).
      rewrite L, decide_False by (by intros (_ & ? & _)).
      rewrite decide_False by (intros (-> & _); by apply Hnp).
      apply (placed_other _ _ _ IH). intros t Ht. apply Hq. auto.
  - intros l1 t l2 E. destruct l2 as [|t2 l2 _] using rev_ind.
    + apply app_inj_tail in E as [<- <-]. done.
    + rewrite app_comm_cons, (assoc_L (++)) in E. apply app_inj_tail in E as [-> _].
      by eapply Hmk.
Qed.

(** ** FolderSync: [download_folder] as a whole *)

Lemma download_tasks_fold (e : env) (b remote_path : string) (local_folder : path)
    (names : list string) (w : world) :
  let w' := foldl (λ w' n, (_download_blob e b remote_path local_folder n w').1) w names in
  store w' = store w
  ∧ disk w' = foldl place (disk w)
                (download_task e b remote_path local_folder (store w) <$> names).
Proof.
  revert w. induction names as [|n names IH]; intros w; [done|].
  cbn [foldl fmap list_fmap].
  destruct (download_blob_run e b remote_path local_folder n w) as (Hs & Hd & _).
  destruct (IH (_download_blob e b remote_path local_folder n w).1) as [IH1 IH2].
  rewrite Hs, Hd in *. done.
Qed.

Lemma thread_map_ok_fold {A} (f : A → M unit) (xs : list A) (w : world) :
  (∀ l1 x l2, xs = l1 ++ x :: l2 → (f x (foldl (λ w' y, (f y w').1) w l1)).2 = Ok tt) →
  ∃ bs, (thread_map f xs w).2 = Ok bs.
Proof.
  revert w. induction xs as [|x xs IH]; intros w H; [by eexists|]. cbn [thread_map].
  pose proof (H [] x xs eq_refl) as Hx. cbn [foldl] in Hx.
  destruct (IH (f x w).1) as [bs Hbs].
  { intros l1 y l2 ->. apply (H (x :: l1) y l2 eq_refl). }
  destruct (f x w) as [w1 r]. cbn [fst snd] in *. subst r.
  destruct (thread_map f xs w1) as [w2 rs]. cbn [snd] in *. subst rs. by eexists.
Qed.

Lemma download_folder_world (e : env) (bucket_name remote_path b : string)
    (local_folder : path) (w : world) :
  bucket_of e bucket_name = Some b →
  (download_folder e bucket_name remote_path local_folder w).1
  = (thread_map (_download_blob e b remote_path local_folder)
       (blob_names b remote_path (store w)) (emit (EvListBlobs b remote_path) w)).1.
Proof.
  intros Hb. unfold download_folder, bind. rewrite (get_storage_bucket_run _ _ _ _ Hb).
  unfold list_blobs. by destruct (thread_map _ _ _) as [w' [bs|ex]].
Qed.

Lemma upload_folder_world (e : env) (bucket_name remote_path b : string)
    (local_folder : path) (w : world) :
  bucket_of e bucket_name = Some b →
  (upload_folder e bucket_name remote_path local_folder w).1
  = (thread_map (_upload_file e b local_folder remote_path)
       (Disk.glob_dotted local_folder (disk w)) w).1.
Proof.
  intros Hb. unfold upload_folder, bind. rewrite (get_storage_bucket_run _ _ _ _ Hb).
  by destruct (thread_map _ _ _) as [w' [bs|ex]].
Qed.

Lemma download_tasks_elem (e : env) (b remote_path : string) (local_folder : path)
    (st : gmap (string * string) content) (names : list string) (t : path * option content) :
  t ∈ download_task e b remote_path local_folder st <$> names
  ↔ ∃ n, n ∈ names ∧ t = download_task e b remote_path local_folder st n.
Proof.
  rewrite list_elem_of_fmap. split; intros (n & H1 & H2); exists n; done.
Qed.

(** [download_folder] leaves the bucket alone and places the listed blobs
    on the disk in turn; it raises only when a directory cannot be made. *)
Lemma download_folder_run (e : env) (bucket_name remote_path b : string)
    (local_folder : path) (w : world) :
  bucket_of e bucket_name = Some b →
  let names := blob_names b remote_path (store w) in
  let tasks := download_task e b remote_path local_folder (store w) <$> names in
  let run := download_folder e bucket_name remote_path local_folder w in
  store run.1 = store w
  ∧ disk run.1 = foldl place (disk w) tasks
  ∧ (download_fits remote_path local_folder names (disk w) →
       run.2 = Ok tt ∧ placed (disk w) tasks (disk run.1)).
Proof.
  intros Hb names tasks run.
  assert (store run.1 = store w ∧ disk run.1 = foldl place (disk w) tasks) as [Hs Hd].
  { subst run. rewrite (download_folder_world _ _ _ _ _ _ Hb), thread_map_world.
    apply (download_tasks_fold e b remote_path local_folder names
             (emit (EvListBlobs b remote_path) w)). }
  split; [done|]. split; [done|]. intros (Hapart & Hroom & Hplain).
  destruct (place_all (disk w) tasks) as [Hplaced Hmk].
  { intros t (n & Hn & ->)%download_tasks_elem. cbn [download_task fst]. by apply Hplain. }
  { intros t t' (n & Hn & ->)%download_tasks_elem (m & Hm & ->)%download_tasks_elem Hp.
    cbn [download_task fst] in Hp. by rewrite (Hapart n m Hn Hm Hp). }
  { intros t q c (n & Hn & ->)%download_tasks_elem. cbn [download_task fst].
    by apply Hroom. }
  split; [|by rewrite Hd].
  subst run. unfold download_folder, bind. rewrite (get_storage_bucket_run _ _ _ _ Hb).
  unfold list_blobs. fold names.
  destruct (thread_map_ok_fold (_download_blob e b remote_path local_folder) names
              (emit (EvListBlobs b remote_path) w)) as [bs Hbs].
  { intros l1 n l2 E.
    destruct (download_blob_run e b remote_path local_folder n
                (foldl (λ w' y, (_download_blob e b remote_path local_folder y w').1)
                   (emit (EvListBlobs b remote_path) w) l1)) as (_ & _ & ->).
    destruct (download_tasks_fold e b remote_path local_folder l1
                (emit (EvListBlobs b remote_path) w)) as [_ ->].
    cbn [emit disk store].
    destruct (Hmk (download_task e b remote_path local_folder (store w) <$> l1)
                (download_task e b remote_path local_folder (store w) n)
                (download_task e b remote_path local_folder (store w) <$> l2))
      as [fs' Hfs'].
    { subst tasks. by rewrite E, fmap_app, fmap_cons. }
    cbn [download_task fst] in Hfs'. by rewrite Hfs'. }
  destruct (thread_map _ _ _) as [w' r]. cbn [snd] in *. by subst r.
Qed.

(** ** Counting events *)

Lemma occurrences_app (ev : event) (l1 l2 : list event) :
  occurrences ev (l1 ++ l2) = occurrences ev l1 + occurrences ev l2.
Proof. unfold occurrences. by rewrite filter_app, length_app. Qed.

Lemma occurrences_cons (ev x : event) (l : list event) :
  occurrences ev (x :: l) = (if decide (x = ev) then 1 else 0) + occurrences ev l.
Proof. unfold occurrences. rewrite filter_cons. by case_decide. Qed.

Lemma occurrences_none (ev : event) (l : list event) :
  Forall (λ ev', ev' ≠ ev) l → occurrences ev l = 0.
Proof.
  induction 1 as [|x l Hx _ IH]; [done|]. by rewrite occurrences_cons, decide_False, IH.
Qed.

Lemma events_of_app {A} (m : M A) (w : world) (evs : list event) :
  trace (m w).1 = trace w ++ evs → events_of m w = evs.
Proof. intros E. unfold events_of. by rewrite E, drop_app_length. Qed.

(** In a [thread_map], the events proper to one task are counted in the run
    of that task alone. *)
Lemma thread_map_count {A B} (f : A → M B) (l1 l2 : list A) (x : A) (ev : event) (n : nat)
    (w : world) :
  (∀ y, y ∈ l1 ++ l2 → emits (λ ev', ev' ≠ ev) (f y)) →
  (∃ evs, trace (f x (thread_map f l1 w).1).1 = trace (thread_map f l1 w).1 ++ evs
          ∧ occurrences ev evs = n) →
  ∃ evs, trace (thread_map f (l1 ++ x :: l2) w).1 = trace w ++ evs
         ∧ occurrences ev evs = n.
Proof.
  intros Hother (evsx & Ex & Cx).
  assert (emits (λ ev', ev' ≠ ev) (thread_map f l1)) as H1.
  { apply emits_thread_map, Forall_forall. intros y Hy. apply Hother, elem_of_app. by left. }
  assert (emits (λ ev', ev' ≠ ev) (thread_map f l2)) as H2.
  { apply emits_thread_map, Forall_forall. intros y Hy. apply Hother, elem_of_app. by right. }
  destruct (H1 w) as (evs1 & E1 & F1).
  destruct (H2 (f x (thread_map f l1 w).1).1) as (evs2 & E2 & F2).
  exists (evs1 ++ evsx ++ evs2).
  rewrite thread_map_world, foldl_app. cbn [foldl]. rewrite <- !thread_map_world.
  rewrite E2, Ex, E1, <- !(assoc_L (++)). split; [done|].
  rewrite !occurrences_app, (occurrences_none _ _ F1), (occurrences_none _ _ F2). lia.
Qed.

(** ** Bounded retry *)

Lemma all_fail_no_attempt_ok (ok : nat → bool) :
  (∀ i, ok i = false) → some_attempt_ok ok = false.
Proof. intros H. unfold some_attempt_ok. cbn. by rewrite !H. Qed.

Lemma upload_effect_write_step (e : env) (b remote_path : string) (local_folder : path)
    (fs : gmap path node) (st : gmap (string * string) content) (p : path) :
  upload_effect e b remote_path local_folder fs st p
  = write_step (upload_write_at e b remote_path local_folder fs) st p.
Proof.
  unfold upload_effect, write_step, upload_write_at.
  by destruct (upload_write _ _ _ _ _ _) as [[name data]|].
Qed.

Lemma upload_fold_write_step (e : env) (b remote_path : string) (local_folder : path)
    (fs : gmap path node) (st : gmap (string * string) content) (files : list path) :
  foldl (upload_effect e b remote_path local_folder fs) st files
  = foldl (write_step (upload_write_at e b remote_path local_folder fs)) st files.
Proof.
  revert st. induction files as [|p files IH]; intros st; [done|].
  cbn [foldl]. by rewrite IH, upload_effect_write_step.
Qed.

Lemma upload_write_at_Some (e : env) (b remote_path : string) (local_folder : path)
    (fs : gmap path node) (p : path) (k : string * string) (data : content) :
  upload_write_at e b remote_path local_folder fs p = Some (k, data)
  ↔ ∃ rel, Path.relative_to p local_folder = Some rel
           ∧ fs !! p = Some (File data)
           ∧ k = (b, blob_name_of remote_path rel)
           ∧ some_attempt_ok (upload_ok e b (blob_name_of remote_path rel)) = true.
Proof.
  unfold upload_write_at, upload_write.
  destruct (Path.relative_to p local_folder) as [rel|]; [|split; [done|by intros (? & ? & _)]].
  destruct (fs !! p) as [[|data']|];
    [split; [done|by intros (? & _ & ? & _)]| |split; [done|by intros (? & _ & ? & _)]].
  destruct (some_attempt_ok _) eqn:E; cbn.
  - split.
    + intros [= <- <-]. by exists rel.
    + intros (rel' & [= <-] & [= <-] & -> & _). done.
  - split; [done|]. intros (rel' & [= <-] & _ & _ & E').
    unfold some_attempt_ok in E. cbn in E. congruence.
Qed.

Lemma NoDup_glob_dotted (d : path) (fs : gmap path node) : NoDup (Disk.glob_dotted d fs).
Proof. apply NoDup_filter, NoDup_fst_map_to_list. Qed.

Lemma upload_file_count (e : env) (b remote_path : string) (local_folder p rel : path)
    (w : world) :
  Path.relative_to p local_folder = Some rel →
  (∀ i, upload_ok e b (blob_name_of remote_path rel) i = false) →
  ∃ evs, trace (_upload_file e b local_folder remote_path p w).1 = trace w ++ evs
         ∧ occurrences (EvUploadAttempt b (blob_name_of remote_path rel) p) evs = 3.
Proof.
  intros Hrel Hfail. unfold _upload_file. rewrite Hrel, bind_tell.
  destruct (upload_retry_all_fail e b _ p (emit (EvPrint
              ("Uploading " +:+ abs_str p +:+ " to " +:+ remote_path +:+ "/")) w) Hfail)
    as [ex ->].
  cbn [emit trace]. rewrite <- (assoc_L (++)). eexists. split; [done|]. cbn [app].
  rewrite !occurrences_cons. repeat case_decide; simplify_eq; done.
Qed.

Lemma upload_file_other (e : env) (b remote_path name : string) (local_folder p p' : path) :
  p' ≠ p →
  emits (λ ev, ev ≠ EvUploadAttempt b name p) (_upload_file e b local_folder remote_path p').
Proof.
  intros Hne. unfold _upload_file. apply emits_bind; [by apply emits_tell|]. intros _.
  destruct (Path.relative_to p' local_folder); [|apply emits_raise].
  apply emits_retry_loop; [|done]. intros j. apply emits_upload_from_filename. congruence.
Qed.

Lemma download_blob_count (e : env) (b remote_path name : string) (local_folder : path)
    (w : world) :
  is_Some (Disk.mkdir_p (Path.parent (download_target remote_path local_folder name)) (disk w)) →
  (∀ i, download_ok e b name i = false) →
  ∃ evs, trace (_download_blob e b remote_path local_folder name w).1 = trace w ++ evs
         ∧ occurrences (EvDownloadAttempt b name (download_target remote_path local_folder name))
             evs = 3.
Proof.
  intros [fs Hfs] Hfail. unfold _download_blob. fold (download_target remote_path local_folder name).
  rewrite bind_tell. unfold bind at 1. cbn [emit disk]. rewrite Hfs.
  match goal with
  | |- context [retry_loop _ _ (download_to_filename _ _ _ ?p) ?w'] =>
    destruct (download_retry_all_fail e b name p w' Hfail) as [ex ->]
  end.
  cbn [emit set_disk trace]. rewrite <- (assoc_L (++)). eexists. split; [done|]. cbn [app].
  rewrite !occurrences_cons. repeat case_decide; simplify_eq; done.
Qed.

Lemma download_blob_other (e : env) (b remote_path name name' : string) (local_folder p : path) :
  name' ≠ name →
  emits (λ ev, ev ≠ EvDownloadAttempt b name p)
        (_download_blob e b remote_path local_folder name').
Proof.
  intros Hne. unfold _download_blob. apply emits_bind; [by apply emits_tell|]. intros _.
  apply emits_bind.
  { apply emits_silent. intros w. by destruct (Disk.mkdir_p _ _). }
  intros _. apply emits_retry_loop; [|done]. intros j.
  apply emits_download_to_filename. congruence.
Qed.

Lemma download_mkdirs_ok (e : env) (b remote_path : string) (local_folder : path)
    (w : world) (l1 l2 : list string) (n : string) :
  download_fits remote_path local_folder (blob_names b remote_path (store w)) (disk w) →
  blob_names b remote_path (store w) = l1 ++ n :: l2 →
  is_Some (Disk.mkdir_p (Path.parent (download_target remote_path local_folder n))
             (disk (thread_map (_download_blob e b remote_path local_folder) l1
                      (emit (EvListBlobs b remote_path) w)).1)).
Proof.
  intros (Hapart & Hroom & Hplain) E.
  rewrite thread_map_world.
  destruct (download_tasks_fold e b remote_path local_folder l1
              (emit (EvListBlobs b remote_path) w)) as [_ ->].
  cbn [emit disk store].
  set (task := download_task e b remote_path local_folder (store w)).
  destruct (place_all (disk w) (task <$> blob_names b remote_path (store w))) as [_ Hmk].
  { intros t (x & Hx & ->)%download_tasks_elem. cbn [download_task fst]. by apply Hplain. }
  { intros t t' (x & Hx & ->)%download_tasks_elem (y & Hy & ->)%download_tasks_elem Hp.
    cbn [download_task fst] in Hp. by rewrite (Hapart x y Hx Hy Hp). }
  { intros t q c (x & Hx & ->)%download_tasks_elem. cbn [download_task fst].
    by apply Hroom. }
  apply (Hmk (task <$> l1) (task n) (task <$> l2)).
  by rewrite E, fmap_app, fmap_cons.
Qed.

(** C1, as the spec has it, fails: a file whose upload fails three times is
    still in the bucket afterwards when an earlier version of it was there,
    since nothing removes it. *)
Lemma failed_upload_leaves_old_blob :
  let e := Sample.with_store_failures Sample.calm in
  let run := upload_folder e "test" "p" ["w"] stale in
  ["w"; "a.csv"] ∈ Disk.glob_dotted ["w"] (disk stale)
  ∧ blob_name_of "p" ["a.csv"] = "p/a.csv"
  ∧ (∀ i, upload_ok e "test" "p/a.csv" i = false)
  ∧ run.2 = Ok tt
  ∧ occurrences (EvUploadAttempt "test" "p/a.csv" ["w"; "a.csv"])
      (events_of (upload_folder e "test" "p" ["w"]) stale) = 3
  ∧ store run.1 !! ("test", "p/a.csv") = Some (Sample.bytes "old").
Proof.
  split.
  { apply elem_of_glob_dotted. split; [by vm_compute; eexists|by vm_compute]. }
  split; [by vm_compute|]. split; [done|]. by vm_compute.
Qed.

(** C1, amended. A transfer whose store operation fails on every attempt is
    attempted exactly three times.  A failed upload leaves the bucket as it
    was at that key, so what was absent stays absent.  A failed download
    does touch its target: every attempt opens the target for writing
    before it asks the store, so that afterwards the target holds what the
    last attempt left of the blob, an empty or truncated file, or is gone
    when that attempt removed it; what was there before is lost either
    way.  [upload_folder] returns normally all the same; so does
    [download_folder] when the listed blobs fit on the disk, that is, when
    every directory it needs can be made. *)
Theorem transfers_retry_three_times (e : env) (bucket_name remote_path b : string)
    (local_folder : path) (w : world) :
  bucket_of e bucket_name = Some b →
  ((upload_folder e bucket_name remote_path local_folder w).2 = Ok tt
   ∧ ∀ p rel,
       p ∈ Disk.glob_dotted local_folder (disk w) →
       Path.relative_to p local_folder = Some rel →
       (∀ i, upload_ok e b (blob_name_of remote_path rel) i = false) →
       occurrences (EvUploadAttempt b (blob_name_of remote_path rel) p)
         (events_of (upload_folder e bucket_name remote_path local_folder) w)
       = BLOB_OP_MAX_RETRIES
       ∧ store (upload_folder e bucket_name remote_path local_folder w).1
           !! (b, blob_name_of remote_path rel)
         = store w !! (b, blob_name_of remote_path rel))
  ∧ (download_fits remote_path local_folder (blob_names b remote_path (store w)) (disk w) →
     (download_folder e bucket_name remote_path local_folder w).2 = Ok tt
     ∧ ∀ name data,
         name ∈ blob_names b remote_path (store w) →
         store w !! (b, name) = Some data →
         (∀ i, download_ok e b name i = false) →
         occurrences
           (EvDownloadAttempt b name (download_target remote_path local_folder name))
           (events_of (download_folder e bucket_name remote_path local_folder) w)
         = BLOB_OP_MAX_RETRIES
         ∧ (download_target remote_path local_folder name ≠ [] →
            disk w !! download_target remote_path local_folder name ≠ Some Dir →
            disk (download_folder e bucket_name remote_path local_folder w).1
              !! download_target remote_path local_folder name
            = (λ n, File (take n data))
                <$> download_leaves e b name (BLOB_OP_MAX_RETRIES - 1))).
Proof.
  intros Hb. split.
  - destruct (upload_folder_run e bucket_name remote_path b local_folder w Hb)
      as (Hok & _ & Hst).
    split; [done|]. intros p rel Hp Hrel Hfail. split.
    + apply list_elem_of_split in Hp as (l1 & l2 & E).
      pose proof (NoDup_glob_dotted local_folder (disk w)) as Hnd. rewrite E in Hnd.
      destruct (thread_map_count (_upload_file e b local_folder remote_path) l1 l2 p
                  (EvUploadAttempt b (blob_name_of remote_path rel) p) 3 w)
        as (evs & Eev & Cev).
      { intros y Hy. apply upload_file_other. intros ->.
        apply NoDup_app in Hnd as (_ & Hnd1 & Hnd2). apply NoDup_cons in Hnd2 as [Hnd2 _].
        apply elem_of_app in Hy as [Hy|Hy]; [|done].
        apply (Hnd1 _ Hy). by left. }
      { by apply upload_file_count. }
      rewrite (events_of_app _ _ evs); [done|].
      by rewrite (upload_folder_world _ _ _ _ _ _ Hb), E.
    + rewrite Hst, upload_fold_write_step. apply fold_writes_untouched.
      intros p' data Hp' (rel' & _ & _ & [= E] & Hany)%upload_write_at_Some.
      rewrite <- E, (all_fail_no_attempt_ok _ Hfail) in Hany. done.
  - intros Hfits.
    destruct (download_folder_run e bucket_name remote_path b local_folder w Hb)
      as (_ & _ & Hrun).
    destruct (Hrun Hfits) as [Hok Hplaced]. split; [done|].
    intros name data Hname Hdata Hfail. split.
    + apply list_elem_of_split in Hname as (l1 & l2 & E).
      pose proof (NoDup_blob_names b remote_path (store w)) as Hnd. rewrite E in Hnd.
      destruct (thread_map_count (_download_blob e b remote_path local_folder) l1 l2 name
                  (EvDownloadAttempt b name (download_target remote_path local_folder name))
                  3 (emit (EvListBlobs b remote_path) w))
        as (evs & Eev & Cev).
      { intros y Hy. apply download_blob_other. intros ->.
        apply NoDup_app in Hnd as (_ & Hnd1 & Hnd2). apply NoDup_cons in Hnd2 as [Hnd2 _].
        apply elem_of_app in Hy as [Hy|Hy]; [|done].
        apply (Hnd1 _ Hy). by left. }
      { apply download_blob_count; [|done]. by eapply download_mkdirs_ok. }
      rewrite (events_of_app _ _ (EvListBlobs b remote_path :: evs)).
      * rewrite occurrences_cons, decide_False by done. done.
      * rewrite (download_folder_world _ _ _ _ _ _ Hb), E, Eev. cbn [emit trace].
        by rewrite <- (assoc_L (++)).
    + intros Hne Hnd.
      assert (download_task e b remote_path local_folder (store w) name
              ∈ download_task e b remote_path local_folder (store w)
                  <$> blob_names b remote_path (store w)) as Hin.
      { apply download_tasks_elem. by exists name. }
      unfold download_task, download_result in Hin.
      rewrite Hdata, (all_fail_no_attempt_ok _ Hfail) in Hin.
      destruct (download_leaves e b name (BLOB_OP_MAX_RETRIES - 1)) as [n|];
        cbn [fmap option_fmap option_map] in *.
      * by apply (placed_written _ _ _ Hplaced).
      * by apply (placed_removed _ _ _ Hplaced).
Qed.

Lemma stale_download_fits :
  download_fits "p" ["w"] (blob_names "test" "p" (store stale)) (disk stale).
Proof.
  assert (blob_names "test" "p" (store stale) = ["p/a.csv"]) as -> by (by vm_compute).
  assert (download_target "p" ["w"] "p/a.csv" = ["w"; "a.csv"]) as E by (by vm_compute).
  split; [|split].
  - intros n m ->%list_elem_of_singleton ->%list_elem_of_singleton _. done.
  - intros n q c ->%list_elem_of_singleton Hq Hp Hne.
    rewrite E in Hp, Hne. destruct q as [|x [|y [|z q]]]; [done| | |].
    + apply prefix_cons_inv_1 in Hp as ->. by vm_compute.
    + pose proof (prefix_cons_inv_1 _ _ _ _ Hp) as ->. apply prefix_cons_inv_2 in Hp.
      apply prefix_cons_inv_1 in Hp as ->. done.
    + do 2 apply prefix_cons_inv_2 in Hp. by apply prefix_nil_not in Hp.
  - intros n ->%list_elem_of_singleton. rewrite E.
    apply (bool_decide_unpack _). by vm_compute.
Qed.

Lemma transfers_retry_three_times_witness :
  let e := Sample.with_store_failures Sample.calm in
  (occurrences (EvUploadAttempt "test" (blob_name_of "p" ["a.csv"]) ["w"; "a.csv"])
     (events_of (upload_folder e "test" "p" ["w"]) stale) = BLOB_OP_MAX_RETRIES
   ∧ store (upload_folder e "test" "p" ["w"] stale).1 !! ("test", blob_name_of "p" ["a.csv"])
     = store stale !! ("test", blob_name_of "p" ["a.csv"]))
  ∧ (download_folder e "test" "p" ["w"] stale).2 = Ok tt
  ∧ occurrences (EvDownloadAttempt "test" "p/a.csv" (download_target "p" ["w"] "p/a.csv"))
      (events_of (download_folder e "test" "p" ["w"]) stale) = BLOB_OP_MAX_RETRIES
  ∧ disk stale !! download_target "p" ["w"] "p/a.csv" = Some (File (Sample.bytes "new"))
  ∧ disk (download_folder e "test" "p" ["w"] stale).1 !! download_target "p" ["w"] "p/a.csv"
    = Some (File []).
Proof.
  intros e.
  destruct (transfers_retry_three_times e "test" "p" "test" ["w"] stale eq_refl)
    as [[_ Hup] Hdown].
  destruct (Hdown stale_download_fits) as [Hok Hd].
  split.
  - apply Hup; [|done|done].
    apply elem_of_glob_dotted. split; [by vm_compute; eexists|by vm_compute].
  - split; [exact Hok|].
    destruct (Hd "p/a.csv" (Sample.bytes "old")) as [Hn Hleft]; [|done|done|].
    { apply elem_of_blob_names. split; [by vm_compute; eexists|by vm_compute]. }
    split; [exact Hn|]. split; [by vm_compute|].
    rewrite Hleft; [done|by vm_compute|by vm_compute].
Defined.

(** ** What [upload_folder] uploads *)

Lemma name_app (d rel : path) : rel ≠ [] → Path.name (d ++ rel) = Path.name rel.
Proof.
  intros Hne. unfold Path.name. induction d as [|x d IH]; [done|].
  cbn [app List.last]. rewrite IH. destruct (d ++ rel) eqn:E; [|done].
  by apply app_eq_nil in E as [_ ->].
Qed.

Lemma glob_selects_spec (d p : path) :
  Disk.glob_selects d p = true
  ↔ ∃ rel, rel ≠ [] ∧ p = d ++ rel ∧ Py.contains "." (Path.name p) = true.
Proof.
  unfold Disk.glob_selects, Disk.matches_star_dot_star. split.
  - destruct (Path.relative_to p d) as [[|c rel]|] eqn:E; [done| |done].
    apply relative_to_Some in E as ->. intros H. exists (c :: rel).
    by rewrite name_app.
  - intros (rel & Hne & -> & H). rewrite (proj2 (relative_to_Some _ _ _) eq_refl).
    destruct rel as [|c rel]; [done|]. by rewrite name_app in H.
Qed.

(** C2, as the spec has it, fails: a regular file whose name has no dot is
    not matched by the pattern and is not uploaded. *)
Lemma undotted_file_is_skipped :
  let run := upload_folder Sample.calm "test" "p" ["w"] tree in
  disk tree !! ["w"; "README"] = Some (File (Sample.bytes "read me"))
  ∧ run.2 = Ok tt
  ∧ store run.1 !! ("test", "p/README") = None
  ∧ fst <$> map_to_list (store run.1) = [("test", "p/a.csv"); ("test", "p/d/b.txt")]
  ∧ ¬ (["w"; "README"] ∈ Disk.glob_dotted ["w"] (disk tree)).
Proof.
  split; [by vm_compute|]. split; [by vm_compute|]. split; [by vm_compute|].
  split; [by vm_compute|].
  intros [_ H]%elem_of_glob_dotted. by vm_compute in H.
Qed.

(** A regular file with a dot in its name is in the bucket after
    [upload_folder], once one of its attempts has gone through. *)
Lemma upload_folder_stores (e : env) (bucket_name remote_path b : string)
    (local_folder : path) (w : world) (rel : path) (data : content) :
  bucket_of e bucket_name = Some b →
  disk_names_ok (disk w) →
  rel ≠ [] → disk w !! (local_folder ++ rel) = Some (File data) →
  Py.contains "." (Path.name (local_folder ++ rel)) = true →
  some_attempt_ok (upload_ok e b (blob_name_of remote_path rel)) = true →
  store (upload_folder e bucket_name remote_path local_folder w).1
    !! (b, blob_name_of remote_path rel) = Some data.
Proof.
  intros Hb Hnames Hne Hf Hdot Hany.
  destruct (upload_folder_run e bucket_name remote_path b local_folder w Hb)
    as (_ & _ & ->).
  rewrite upload_fold_write_step.
  assert (upload_write_at e b remote_path local_folder (disk w) (local_folder ++ rel)
          = Some ((b, blob_name_of remote_path rel), data)) as Hw.
  { apply upload_write_at_Some. exists rel.
    by rewrite (proj2 (relative_to_Some _ _ _) eq_refl). }
  eapply fold_writes_written; [|exact Hw|].
  - apply elem_of_glob_dotted. split; [by eexists|].
    apply glob_selects_spec. by exists rel.
  - intros p data' Hp (r & Hr & Hf' & [= E] & _)%upload_write_at_Some.
    apply relative_to_Some in Hr as ->.
    assert (rel = r) as <-; [|congruence].
    apply elem_of_glob_dotted in Hp as [Hp (r' & Hr' & ->%app_inv_head & _)%glob_selects_spec].
    eapply blob_name_of_inj; [done..| | |done].
    + assert (is_Some (disk w !! (local_folder ++ rel))) as Hs by by eexists.
      by apply Hnames, Forall_app in Hs as [_ ?].
    + by apply Hnames, Forall_app in Hp as [_ ?].
Qed.

(** C2, amended. [upload_folder] enumerates the entries at any depth below
    [local_folder] whose own name contains a dot.  Each regular file among
    them is uploaded to the key [os.path.join(remote_path, relative path)]
    when one of its three attempts goes through; a file whose name has no
    dot is skipped and its key is left as it was. *)
Theorem upload_folder_uploads_dotted_files (e : env) (bucket_name remote_path b : string)
    (local_folder : path) (w : world) :
  bucket_of e bucket_name = Some b →
  disk_names_ok (disk w) →
  let run := upload_folder e bucket_name remote_path local_folder w in
  run.2 = Ok tt
  ∧ (∀ p, p ∈ Disk.glob_dotted local_folder (disk w)
          ↔ is_Some (disk w !! p)
            ∧ ∃ rel, rel ≠ [] ∧ p = local_folder ++ rel
                     ∧ Py.contains "." (Path.name p) = true)
  ∧ (∀ rel data,
       rel ≠ [] → disk w !! (local_folder ++ rel) = Some (File data) →
       Py.contains "." (Path.name (local_folder ++ rel)) = true →
       some_attempt_ok (upload_ok e b (blob_name_of remote_path rel)) = true →
       store run.1 !! (b, blob_name_of remote_path rel) = Some data)
  ∧ (∀ rel,
       rel ≠ [] → is_Some (disk w !! (local_folder ++ rel)) →
       Py.contains "." (Path.name (local_folder ++ rel)) = false →
       store run.1 !! (b, blob_name_of remote_path rel)
       = store w !! (b, blob_name_of remote_path rel)).
Proof.
  intros Hb Hnames run.
  destruct (upload_folder_run e bucket_name remote_path b local_folder w Hb)
    as (Hok & _ & Hst). fold run in Hok, Hst.
  assert (∀ p, p ∈ Disk.glob_dotted local_folder (disk w)
               ↔ is_Some (disk w !! p)
                 ∧ ∃ rel, rel ≠ [] ∧ p = local_folder ++ rel
                          ∧ Py.contains "." (Path.name p) = true) as Hglob.
  { intros p. by rewrite elem_of_glob_dotted, glob_selects_spec. }
  assert (∀ rel, is_Some (disk w !! (local_folder ++ rel)) → Forall valid_name rel) as Hvalid.
  { intros rel Hsome. by apply Hnames, Forall_app in Hsome as [_ ?]. }
  assert (∀ p rel data,
            rel ≠ [] → is_Some (disk w !! (local_folder ++ rel)) →
            p ∈ Disk.glob_dotted local_folder (disk w) →
            upload_write_at e b remote_path local_folder (disk w) p
              = Some ((b, blob_name_of remote_path rel), data) →
            p = local_folder ++ rel) as Hinj.
  { intros p rel data Hne Hsome Hp (r & Hr & Hf & [= E] & _)%upload_write_at_Some.
    apply relative_to_Some in Hr as ->. f_equal.
    apply Hglob in Hp as [Hp (r' & Hr' & ->%app_inv_head & _)].
    symmetry. by eapply blob_name_of_inj; [| | apply Hvalid..|]. }
  split; [done|]. split; [done|]. split.
  - intros rel data Hne Hf Hdot Hany. rewrite Hst, upload_fold_write_step.
    assert (upload_write_at e b remote_path local_folder (disk w) (local_folder ++ rel)
            = Some ((b, blob_name_of remote_path rel), data)) as Hw.
    { apply upload_write_at_Some. exists rel.
      by rewrite (proj2 (relative_to_Some _ _ _) eq_refl). }
    eapply fold_writes_written; [|exact Hw|].
    + apply Hglob. split; [by eexists|]. by exists rel.
    + intros p data' Hp Hw'.
      rewrite (Hinj p rel data' Hne ltac:(by eexists) Hp Hw') in Hw'. congruence.
  - intros rel Hne Hsome Hdot. rewrite Hst, upload_fold_write_step.
    apply fold_writes_untouched. intros p data Hp Hw.
    pose proof (Hinj p rel data Hne Hsome Hp Hw) as ->.
    apply Hglob in Hp as [_ (r & _ & _ & Hdot')]. congruence.
Qed.

Lemma tree_names_ok : disk_names_ok (disk tree).
Proof.
  intros p [v Hp]. apply elem_of_map_to_list in Hp.
  assert (Forall (λ kv, Forall (λ c, bool_decide (c ≠ EmptyString ∧ c ≠ "." ∧ c ≠ ".."
                                                  ∧ Py.contains "/" c = false)) kv.1)
                 (map_to_list (disk tree))) as H.
  { by vm_compute; repeat constructor. }
  rewrite Forall_forall in H. specialize (H _ Hp). cbn [fst] in H.
  eapply Forall_impl; [exact H|]. intros c Hc. by apply bool_decide_unpack in Hc.
Qed.

Lemma upload_folder_uploads_dotted_files_witness :
  let run := upload_folder Sample.calm "test" "p" ["w"] tree in
  store run.1 !! ("test", blob_name_of "p" ["d"; "b.txt"]) = Some (Sample.bytes "beta")
  ∧ store run.1 !! ("test", blob_name_of "p" ["README"])
    = store tree !! ("test", blob_name_of "p" ["README"]).
Proof.
  intros run.
  destruct (upload_folder_uploads_dotted_files Sample.calm "test" "p" "test" ["w"] tree
              eq_refl tree_names_ok) as (_ & _ & Hdot & Hskip).
  split.
  - apply Hdot; by vm_compute.
  - apply Hskip; [done|by vm_compute; eexists|by vm_compute].
Defined.

(** ** Stripping the prefix from a blob name *)

Lemma startswith_app (p s : string) : Py.startswith p (p +:+ s) = true.
Proof.
  induction p as [|a p IH]; [done|]. rewrite app_String. cbn [Py.startswith].
  by rewrite Ascii.eqb_refl.
Qed.

Lemma startswith_contains (sub s : string) :
  Py.contains sub s = false → Py.startswith sub s = false.
Proof. destruct s; cbn; by destruct (Py.startswith sub _). Qed.

Lemma split_go_skip (sep : string) (m : option nat) (x s : string) :
  Py.split_go sep m (String.length x) (x +:+ s) = Py.split_go sep m 0 s.
Proof.
  induction x as [|a x IH]; [done|]. cbn [String.length]. rewrite app_String.
  cbn [Py.split_go]. exact IH.
Qed.

Lemma split_go_absent (sep : string) (m : option nat) (s : string) :
  Py.contains sep s = false → Py.split_go sep m 0 s = [s].
Proof.
  induction s as [|c s IH]; intros H; [done|]. cbn [Py.split_go].
  rewrite (startswith_contains _ _ H).
  assert (Py.contains sep s = false) as Hs.
  { cbn [Py.contains] in H. by destruct (Py.startswith sep (String c s)). }
  rewrite (IH Hs). cbn [Py.cons_hd]. by destruct m as [[|k]|].
Qed.

(** A blob name made of the prefix, a slash and a relative path gives the
    relative path back, provided the prefix and slash do not occur inside
    the relative path. *)
Lemma blob_rel_path_strip (remote_path s : string) :
  Py.contains (remote_path +:+ "/") s = false →
  blob_rel_path remote_path (remote_path +:+ "/" +:+ s) = s.
Proof.
  intros H. unfold blob_rel_path, Py.split.
  set (sep := remote_path +:+ "/").
  assert (remote_path +:+ "/" +:+ s = sep +:+ s) as ->.
  { unfold sep. clear. induction remote_path as [|a r IH]; [done|].
    rewrite !app_String. by f_equal. }
  destruct sep as [|c sep'] eqn:E.
  { exfalso. unfold sep in E. by destruct remote_path. }
  rewrite app_String. cbn [Py.split_go fmap option_fmap option_map Nat.pred].
  rewrite <- app_String, startswith_app.
  replace (String.length (String c sep') - 1) with (String.length sep') by (cbn; lia).
  fold sep in H. rewrite E in H.
  by rewrite split_go_skip, split_go_absent.
Qed.

(** The slip in the prefix removal: [split] cuts at the first two
    occurrences of the prefix, so a relative path that contains the prefix
    and a slash again loses its head. *)
Example blob_rel_path_cuts_twice :
  blob_name_of "tables" ["old"; "tables"; "a.csv"] = "tables/old/tables/a.csv"
  ∧ blob_rel_path "tables" "tables/old/tables/a.csv" = "a.csv"
  ∧ blob_rel_path "a" "a/data/x.csv" = "x.csv".
Proof. by vm_compute. Qed.

(** ** More on folds of writes and on trees *)

Lemma fold_writes_origin {K V X} `{Countable K} (wr : X → option (K * V)) (xs : list X)
    (m : gmap K V) (k : K) (v : V) :
  foldl (write_step wr) m xs !! k = Some v →
  m !! k = Some v ∨ ∃ x, x ∈ xs ∧ wr x = Some (k, v).
Proof.
  induction xs as [|y xs IH] using rev_ind; [by left|].
  rewrite foldl_app. cbn [foldl]. unfold write_step at 1.
  assert (∀ x, x ∈ xs → x ∈ xs ++ [y]) as Hold by (intros; apply elem_of_app; by left).
  destruct (wr y) as [[k' v']|] eqn:E.
  - destruct (decide (k' = k)) as [->|Hk].
    + rewrite lookup_insert_eq. intros [= ->]. right. exists y. split; [|done].
      apply elem_of_app. right. by left.
    + rewrite lookup_insert_ne by done. intros Hl.
      destruct (IH Hl) as [?|(x & Hx & Hw)]; [by left|right; eauto].
  - intros Hl. destruct (IH Hl) as [?|(x & Hx & Hw)]; [by left|right; eauto].
Qed.

Lemma ancestor_is_dir (fs : gmap path node) (p r : path) :
  disk_tree_ok fs → is_Some (fs !! (p ++ r)) → r ≠ [] → p ≠ [] → fs !! p = Some Dir.
Proof.
  intros Hok. induction r as [|c r IH] using rev_ind; intros Hsome Hr Hp; [done|].
  rewrite (assoc_L (++)) in Hsome.
  assert (fs !! (p ++ r) = Some Dir) as Hd.
  { apply (Hok _ c Hsome). by destruct p. }
  destruct r as [|x r]; [by rewrite app_nil_r in Hd|].
  apply IH; [by rewrite Hd| done..].
Qed.

Lemma prefix_of_app_cases (q a b : path) :
  q `prefix_of` a ++ b → q `prefix_of` a ∨ ∃ r, r ≠ [] ∧ q = a ++ r ∧ r `prefix_of` b.
Proof.
  revert q. induction a as [|x a IH]; intros q Hq.
  - destruct q as [|y q]; [left; done|]. right. by exists (y :: q).
  - destruct q as [|y q]; [left; apply prefix_nil|].
    cbn [app] in Hq. pose proof (prefix_cons_inv_1 _ _ _ _ Hq) as ->.
    apply prefix_cons_inv_2 in Hq. destruct (IH q Hq) as [?|(r & Hr & -> & Hp)].
    + left. by apply prefix_cons.
    + right. by exists r.
Qed.

(** ** Round trip *)

Lemma some_attempt_ok_true (ok : nat → bool) : (∀ i, ok i = true) → some_attempt_ok ok = true.
Proof. intros H. unfold some_attempt_ok. cbn. by rewrite H. Qed.

Section RoundTrip.
Context (e : env) (bucket_name remote_path b : string) (d d2 : path) (w : world).
Context (Hb : bucket_of e bucket_name = Some b).
Context (Hready : round_trip_ready e b remote_path d d2 w).

Let up := upload_folder e bucket_name remote_path d w.

Lemma rt_blob_name (rel : path) :
  rel ≠ [] → is_Some (disk w !! (d ++ rel)) →
  Forall valid_name rel
  ∧ blob_name_of remote_path rel = remote_path +:+ "/" +:+ Py.join "/" rel.
Proof.
  intros Hne Hsome.
  assert (Forall valid_name rel) as Hv.
  { by apply (rt_names _ _ _ _ _ _ Hready), Forall_app in Hsome as [_ ?]. }
  split; [done|]. rewrite blob_name_of_valid by done.
  destruct (rt_prefix _ _ _ _ _ _ Hready) as [Hp1 Hp2]. rewrite Hp2.
  by destruct remote_path.
Qed.

Lemma rt_uploaded (rel : path) (data : content) :
  rel ≠ [] → disk w !! (d ++ rel) = Some (File data) →
  store up.1 !! (b, blob_name_of remote_path rel) = Some data.
Proof.
  intros Hne Hf.
  apply (upload_folder_stores e bucket_name remote_path b d w rel data Hb
           (rt_names _ _ _ _ _ _ Hready)); [done..| |].
  - by eapply (rt_dotted _ _ _ _ _ _ Hready).
  - apply some_attempt_ok_true. intros i. apply (rt_no_failure _ _ _ _ _ _ Hready).
Qed.

Lemma rt_listed_origin (name : string) (data : content) :
  Py.startswith remote_path name = true → store up.1 !! (b, name) = Some data →
  ∃ rel, rel ≠ [] ∧ disk w !! (d ++ rel) = Some (File data)
         ∧ name = blob_name_of remote_path rel.
Proof.
  intros Hp Hs.
  destruct (upload_folder_run e bucket_name remote_path b d w Hb) as (_ & _ & Hst).
  fold up in Hst. rewrite Hst, upload_fold_write_step in Hs.
  apply fold_writes_origin in Hs as [Hs|(p & Hp' & Hw)].
  { by rewrite (rt_bucket_clean _ _ _ _ _ _ Hready name Hp) in Hs. }
  apply upload_write_at_Some in Hw as (rel & Hrel & Hf & [= ->] & _).
  apply elem_of_glob_dotted in Hp' as [_ (rel' & Hrel' & Hne)%glob_selects_relative].
  rewrite Hrel in Hrel'. injection Hrel' as <-. apply relative_to_Some in Hrel as ->.
  by exists rel.
Qed.

Lemma rt_target (rel : path) (data : content) :
  rel ≠ [] → disk w !! (d ++ rel) = Some (File data) →
  download_target remote_path d2 (blob_name_of remote_path rel) = d2 ++ rel.
Proof.
  intros Hne Hf. destruct (rt_blob_name rel Hne ltac:(by eexists)) as [Hv ->].
  unfold download_target.
  rewrite blob_rel_path_strip by by eapply (rt_no_prefix_inside _ _ _ _ _ _ Hready).
  rewrite <- (div_str d2 rel Hne Hv). unfold Path.str. by destruct rel.
Qed.

Lemma rt_listed (name : string) :
  name ∈ blob_names b remote_path (store up.1)
  ↔ ∃ rel data, rel ≠ [] ∧ disk w !! (d ++ rel) = Some (File data)
                ∧ name = blob_name_of remote_path rel.
Proof.
  rewrite elem_of_blob_names. split.
  - intros [[data Hs] Hp]. destruct (rt_listed_origin name data Hp Hs) as (rel & ?).
    by exists rel, data.
  - intros (rel & data & Hne & Hf & ->). split.
    + exists data. by apply rt_uploaded.
    + destruct (rt_blob_name rel Hne ltac:(by eexists)) as [_ ->]. apply startswith_app.
Qed.

Lemma rt_file_is_leaf (rel r : path) (data : content) :
  rel ≠ [] → disk w !! (d ++ rel) = Some (File data) →
  is_Some (disk w !! (d ++ rel ++ r)) → r = [].
Proof.
  intros Hne Hf Hsome. destruct (decide (r = [])) as [|Hr]; [done|].
  rewrite (assoc_L (++)) in Hsome.
  pose proof (ancestor_is_dir _ _ _ (rt_tree _ _ _ _ _ _ Hready) Hsome Hr) as Hd.
  rewrite Hf in Hd. discriminate Hd. by destruct d, rel.
Qed.

Lemma rt_fits :
  download_fits remote_path d2 (blob_names b remote_path (store up.1)) (disk w).
Proof.
  split; [|split].
  - intros n m (rn & dn & Hn & Hfn & ->)%rt_listed (rm & dm & Hm & Hfm & ->)%rt_listed.
    rewrite (rt_target rn dn), (rt_target rm dm) by done.
    intros [r ->]%prefix_app_inv.
    rewrite (rt_file_is_leaf rn r dn Hn Hfn), app_nil_r; [done|]. by eexists.
  - intros n q c (rn & dn & Hn & Hfn & ->)%rt_listed Hq.
    rewrite (rt_target rn dn) by done. intros Hp Hne.
    destruct (prefix_of_app_cases _ _ _ Hp) as [Hp'|(r & Hr & -> & _)].
    + by apply (rt_dest_free _ _ _ _ _ _ Hready).
    + by rewrite (rt_dest_empty _ _ _ _ _ _ Hready).
  - intros n (rn & dn & Hn & Hfn & ->)%rt_listed.
    rewrite (rt_target rn dn) by done. apply valid_names_plain, Forall_app. split.
    + apply (rt_dest_names _ _ _ _ _ _ Hready).
    + apply rt_blob_name; [done|by eexists].
Qed.

Lemma rt_task (rel : path) (data : content) :
  rel ≠ [] → disk w !! (d ++ rel) = Some (File data) →
  (d2 ++ rel, Some data)
  ∈ download_task e b remote_path d2 (store up.1) <$> blob_names b remote_path (store up.1).
Proof.
  intros Hne Hf. apply download_tasks_elem. exists (blob_name_of remote_path rel).
  split; [apply rt_listed; by exists rel, data|].
  unfold download_task, download_result.
  rewrite (rt_target rel data), (rt_uploaded rel data) by done.
  rewrite some_attempt_ok_true; [done|]. intros i. apply (rt_no_failure _ _ _ _ _ _ Hready).
Qed.

Lemma rt_task_inv (t : path * option content) :
  t ∈ download_task e b remote_path d2 (store up.1) <$> blob_names b remote_path (store up.1) →
  ∃ rel data, rel ≠ [] ∧ disk w !! (d ++ rel) = Some (File data) ∧ t.1 = d2 ++ rel.
Proof.
  intros (n & (rel & data & Hne & Hf & ->)%rt_listed & ->)%download_tasks_elem.
  exists rel, data. cbn [download_task fst]. by rewrite (rt_target rel data).
Qed.
End RoundTrip.

(** C3, as the spec has it, fails: a tree with a file whose name has no dot
    does not come back whole, although no transfer attempt fails. *)
Lemma round_trip_loses_undotted_file :
  let up := upload_folder Sample.calm "test" "p" ["w"] tree in
  let down := download_folder Sample.calm "test" "p" ["v"] up.1 in
  up.2 = Ok tt ∧ down.2 = Ok tt
  ∧ disk tree !! ["w"; "README"] = Some (File (Sample.bytes "read me"))
  ∧ disk down.1 !! ["v"; "README"] = None
  ∧ disk down.1 !! ["v"; "d"; "b.txt"] = Some (File (Sample.bytes "beta")).
Proof. by vm_compute. Qed.

(** C3, amended. Take a tree under [d] in which every regular file has a
    dot in its name, no directory is empty and no relative path contains the
    prefix followed by a slash; a non-empty prefix without a trailing slash
    under which the bucket holds nothing; and an empty destination [d2].
    When no transfer attempt fails, uploading [d] and downloading into [d2]
    both return normally and [d2] then holds the same entries as [d]. *)
Theorem round_trip_of_dotted_tree (e : env) (bucket_name remote_path b : string)
    (d d2 : path) (w : world) :
  bucket_of e bucket_name = Some b →
  round_trip_ready e b remote_path d d2 w →
  let up := upload_folder e bucket_name remote_path d w in
  let down := download_folder e bucket_name remote_path d2 up.1 in
  up.2 = Ok tt ∧ down.2 = Ok tt
  ∧ ∀ rel, rel ≠ [] → disk down.1 !! (d2 ++ rel) = disk w !! (d ++ rel).
Proof.
  intros Hb Hready up down.
  destruct (upload_folder_run e bucket_name remote_path b d w Hb) as (Hup & Hdisk & _).
  fold up in Hup, Hdisk.
  destruct (download_folder_run e bucket_name remote_path b d2 up.1 Hb) as (_ & _ & Hrun).
  fold down in Hrun. rewrite Hdisk in Hrun.
  destruct (Hrun (rt_fits e bucket_name remote_path b d d2 w Hb Hready)) as [Hdown Hplaced].
  split; [done|]. split; [done|]. intros rel Hne.
  assert (d2 ++ rel ≠ []) as Hne2 by (by destruct d2, rel).
  destruct (disk w !! (d ++ rel)) as [[|data]|] eqn:E.
  - destruct (rt_no_empty_dir _ _ _ _ _ _ Hready rel Hne E) as (rest & data & Hrest & Hf).
    eapply (placed_dir _ _ _ Hplaced); [|done| |].
    + apply (rt_task e bucket_name remote_path b d d2 w Hb Hready (rel ++ rest) data);
        [by destruct rel|done].
    + cbn [fst]. rewrite (assoc_L (++)). by eexists.
    + cbn [fst]. rewrite (assoc_L (++)). intros E'. apply (f_equal length) in E'.
      rewrite !length_app in E'. destruct rest; [done|]. cbn in E'. lia.
  - eapply (placed_written _ _ _ Hplaced); [|done|].
    + by apply (rt_task e bucket_name remote_path b d d2 w Hb Hready).
    + by rewrite (rt_dest_empty _ _ _ _ _ _ Hready).
  - rewrite (placed_other _ _ _ Hplaced); [by apply (rt_dest_empty _ _ _ _ _ _ Hready)|].
    intros t Ht.
    destruct (rt_task_inv e bucket_name remote_path b d d2 w Hb Hready t Ht)
      as (rel' & data & Hne' & Hf & ->).
    intros [r ->]%prefix_app_inv.
    assert (is_Some (disk w !! (d ++ rel))) as [x Hx]; [|congruence].
    pose proof (ancestor_is_dir (disk w) (d ++ rel) r (rt_tree _ _ _ _ _ _ Hready)) as Hd.
    rewrite <- (assoc_L (++)) in Hd. destruct (decide (r = [])) as [->|Hr].
    + rewrite app_nil_r in Hf. by eexists.
    + eexists. apply Hd; [by eexists|done|by destruct d, rel].
Qed.

(** The entries of a concrete disk, one by one. *)
Ltac entries H :=
  apply elem_of_map_to_list in H;
  match type of H with
  | _ ∈ ?m =>
    let l := eval vm_compute in m in
    replace m with l in H by (vm_compute; reflexivity)
  end;
  repeat (apply elem_of_cons in H as [H|H]); [..|by apply elem_of_nil in H].

Lemma dotted_tree_ready :
  round_trip_ready Sample.calm "test" "p" ["w"] ["v"] dotted_tree.
Proof.
  split.
  - intros p [v Hp]. entries Hp; injection Hp as -> _.
    all: repeat (apply Forall_cons; split; [by repeat split|]); by constructor.
  - intros p c [v Hp] Hne. entries Hp.
    all: destruct p as [|? [|? [|? [|??]]]]; simplify_eq/=; try done; by vm_compute.
  - done.
  - intros rel data Hne Hf. entries Hf; simplify_eq/=; by vm_compute.
  - intros rel Hne Hd. entries Hd; simplify_eq/=; try done.
    by exists ["b.txt"], (Sample.bytes "beta").
  - intros rel data Hne Hf. entries Hf; simplify_eq/=; by vm_compute.
  - intros name _. done.
  - intros rel Hne. destruct (disk dotted_tree !! (["v"] ++ rel)) as [v|] eqn:E; [|done].
    entries E; simplify_eq/=.
  - intros q c Hq Hp Hf. entries Hf; simplify_eq/=; by apply prefix_cons_inv_1 in Hp.
  - apply Forall_cons; split; [by repeat split|]. by constructor.
  - done.
Qed.

Lemma round_trip_of_dotted_tree_witness :
  let up := upload_folder Sample.calm "test" "p" ["w"] dotted_tree in
  let down := download_folder Sample.calm "test" "p" ["v"] up.1 in
  up.2 = Ok tt ∧ down.2 = Ok tt
  ∧ disk down.1 !! (["v"] ++ ["d"; "b.txt"]) = disk dotted_tree !! (["w"] ++ ["d"; "b.txt"]).
Proof.
  destruct (round_trip_of_dotted_tree Sample.calm "test" "p" "test" ["w"] ["v"] dotted_tree
              eq_refl dotted_tree_ready) as (H1 & H2 & H3).
  exact (conj H1 (conj H2 (H3 ["d"; "b.txt"] ltac:(discriminate)))).
Defined.

(** ** [cache_pull] *)

Lemma parent_snoc (p : path) (c : string) : Path.parent (p ++ [c]) = p.
Proof. unfold Path.parent. apply removelast_last. Qed.

Lemma prefix_snoc_strict (q p : path) (c : string) :
  q `prefix_of` p ++ [c] → q ≠ p ++ [c] → q `prefix_of` p.
Proof.
  intros [r Hr] Hne. destruct r as [|x r _] using rev_ind.
  - by rewrite app_nil_r in Hr.
  - rewrite (assoc_L (++)) in Hr. apply app_inj_tail in Hr as [-> _]. by eexists.
Qed.

(** One source: a file in the hour's folder when the fetch succeeds,
    nothing otherwise; never an exception. *)
Lemma pull_source_run (e : env) (output_folder : path) (src : cache_source) (w : world) :
  valid_name (output src) →
  ".." ∉ output_folder →
  (∀ q, q ≠ [] → q `prefix_of` output_folder → disk w !! q = Some Dir) →
  disk w !! (output_folder ++ [output src]) ≠ Some Dir →
  let run := _pull_source e output_folder src w in
  run.2 = Ok tt ∧ store run.1 = store w
  ∧ disk run.1 = write_step (pulled_file e output_folder) (disk w) src.
Proof.
  intros (Hv1 & Hv2 & Hv3 & Hv4) Hplain Hdir Hfree.
  unfold _pull_source, write_step, pulled_file.
  rewrite bind_tell. cbn [emit disk store].
  destruct (net_download e (url src)) as [buffer|]; cbn [fmap option_fmap option_map]; [|done].
  rewrite div_plain by done. rewrite write_file_spec; [done| | |by destruct output_folder|done].
  - intros [Hin|Hin%list_elem_of_singleton]%elem_of_app; [by apply Hplain|done].
  - intros q Hq Hp Hneq. apply Hdir; [done|]. by eapply prefix_snoc_strict.
Qed.

Lemma pull_sources_run (e : env) (output_folder : path) (srcs : list cache_source) (w : world) :
  (∀ src, src ∈ srcs → valid_name (output src)) →
  ".." ∉ output_folder →
  (∀ q, q ≠ [] → q `prefix_of` output_folder → disk w !! q = Some Dir) →
  (∀ src, src ∈ srcs → disk w !! (output_folder ++ [output src]) ≠ Some Dir) →
  let run := thread_map (_pull_source e output_folder) srcs w in
  (∃ bs, run.2 = Ok bs) ∧ store run.1 = store w
  ∧ disk run.1 = foldl (write_step (pulled_file e output_folder)) (disk w) srcs.
Proof.
  revert w. induction srcs as [|src srcs IH]; intros w Hv Hplain Hdir Hfree.
  { split; [by eexists|done]. }
  cbn [thread_map foldl].
  destruct (pull_source_run e output_folder src w) as (H1 & H2 & H3);
    [apply Hv; by left|done|done|apply Hfree; by left|].
  destruct (_pull_source e output_folder src w) as [w1 r]. cbn [fst snd] in *. subst r.
  assert (∀ q, q ≠ output_folder ++ [output src] → disk w1 !! q = disk w !! q) as Hsame.
  { intros q Hq. rewrite H3. unfold write_step, pulled_file.
    destruct (net_download e (url src)); cbn; [|done]. by apply lookup_insert_ne. }
  assert (∀ o, disk w !! (output_folder ++ [o]) ≠ Some Dir →
               disk w1 !! (output_folder ++ [o]) ≠ Some Dir) as Hkeep.
  { intros o Ho. rewrite H3. unfold write_step, pulled_file.
    destruct (net_download e (url src)); cbn; [|done].
    destruct (decide (output src = o)) as [->|Hneq].
    - by rewrite lookup_insert_eq.
    - rewrite lookup_insert_ne; [done|]. intros E. by apply app_inj_tail in E as [_ ?]. }
  destruct (IH w1) as ([bs Hbs] & Hs & Hd).
  { intros; apply Hv; by right. }
  { done. }
  { intros q Hq Hp. rewrite Hsame; [by apply Hdir|]. intros ->.
    apply prefix_length in Hp. rewrite length_app in Hp. cbn in Hp. lia. }
  { intros s Hs. apply Hkeep, Hfree. by right. }
  destruct (thread_map _ srcs w1) as [w2 rs]. cbn [fst snd] in *. subst rs.
  split; [by eexists|]. split; [congruence|]. by rewrite Hd, H3.
Qed.

Lemma NoDup_fmap_eq {A B} (f : A → B) (l : list A) (x y : A) :
  NoDup (f <$> l) → x ∈ l → y ∈ l → f x = f y → x = y.
Proof.
  induction l as [|z l IH]; intros Hnd Hx Hy E; [by apply elem_of_nil in Hx|].
  rewrite fmap_cons in Hnd. apply NoDup_cons in Hnd as [Hz Hnd].
  apply elem_of_cons in Hx as [->|Hx]; apply elem_of_cons in Hy as [->|Hy]; [done| | |by apply IH].
  - exfalso. apply Hz. rewrite E. by apply list_elem_of_fmap_2.
  - exfalso. apply Hz. rewrite <- E. by apply list_elem_of_fmap_2.
Qed.

Section CachePull.
Context (e : env) (b : string) (w : world).
Context (Hb : bucket_of e (GCS_BUCKET_TEST e) = Some b).
Context (Hready : cache_pull_ready e b w).

Let ws := workspace e.
Let out := workspace e ++ [utcnow_stamp e].
Let w0 := emit (EvMkdtemp ws) (set_disk (<[ws := Dir]> (disk w)) w).

Lemma cp_out : Path.div ws (utcnow_stamp e) = out.
Proof. destruct (cp_stamp _ _ _ Hready) as (? & ? & ? & ?). by apply div_plain. Qed.

Lemma cp_out_valid : Forall valid_name out.
Proof.
  apply Forall_app. split; [apply (cp_tmp_names _ _ _ Hready)|].
  constructor; [apply (cp_stamp _ _ _ Hready)|constructor].
Qed.

(** The hour's folder is made. *)
Lemma cp_mkdir :
  ∃ fs', mkdir_parents out w0 = (set_disk fs' (emit (EvMkdir out) w0), Ok tt)
    ∧ (∀ q, q ≠ [] → q `prefix_of` out → fs' !! q = Some Dir)
    ∧ (∀ q, ¬ (q ≠ [] ∧ q `prefix_of` out) → fs' !! q = disk w !! q).
Proof.
  destruct (mkdir_p_spec out (disk w0)) as (fs' & Hm & Ha & Hb').
  { apply valid_names_plain, cp_out_valid. }
  { intros q c Hq Hp. subst w0. cbn [emit set_disk disk].
    destruct (decide (q = ws)) as [->|Hne]; [by rewrite lookup_insert_eq|].
    rewrite lookup_insert_ne by done.
    destruct (prefix_of_app_cases _ _ _ Hp) as [Hp'|(r & Hr & -> & _)].
    - by apply (cp_tmp _ _ _ Hready).
    - by rewrite (cp_fresh _ _ _ Hready). }
  exists fs'. split; [|split; [done|]].
  - unfold mkdir_parents. rewrite bind_tell. cbn [emit disk] in *. by rewrite Hm.
  - intros q Hq. rewrite Hb' by done. subst w0. cbn [emit set_disk disk].
    apply lookup_insert_ne. intros <-. apply Hq. split; [unfold ws, workspace; by destruct (gettempdir e)|].
    by eexists.
Qed.

(** The disk on which the upload runs. *)
Lemma cp_after_pulls :
  ∃ fs', store (after_pulls e w) = store w
    ∧ disk (after_pulls e w)
      = foldl (write_step (pulled_file e out)) fs' (cache_config e)
    ∧ (∀ q, q ≠ [] → q `prefix_of` out → fs' !! q = Some Dir)
    ∧ (∀ q, ¬ (q ≠ [] ∧ q `prefix_of` out) → fs' !! q = disk w !! q)
    ∧ ∃ bs, thread_map (_pull_source e out) (cache_config e) (mkdir_parents out w0).1
            = (after_pulls e w, Ok bs).
Proof.
  destruct cp_mkdir as (fs' & Hm & Ha & Hb'). exists fs'.
  unfold after_pulls. fold ws. rewrite cp_out. fold w0. rewrite Hm. cbn [fst].
  set (wm := set_disk fs' (emit (EvMkdir out) w0)).
  destruct (pull_sources_run e out (cache_config e) wm) as ([bs Hbs] & Hs & Hd).
  { apply (cp_outputs _ _ _ Hready). }
  { apply valid_names_plain, cp_out_valid. }
  { intros q Hq Hp. subst wm. cbn [set_disk disk]. by apply Ha. }
  { intros src Hsrc. subst wm. cbn [set_disk disk]. rewrite Hb'.
    - unfold out. rewrite <- (assoc_L (++)). by rewrite (cp_fresh _ _ _ Hready).
    - intros [_ Hp]. apply prefix_length in Hp. rewrite length_app in Hp. cbn in Hp. lia. }
  split; [by rewrite Hs|]. split; [by rewrite Hd|]. split; [done|]. split; [done|].
  exists bs. rewrite <- Hbs. by destruct (thread_map _ _ wm).
Qed.

Lemma cp_pulled_at (src : cache_source) (data : content) :
  src ∈ cache_config e → net_download e (url src) = Some data →
  disk (after_pulls e w) !! (out ++ [output src]) = Some (File data).
Proof.
  intros Hsrc Hdl. destruct cp_after_pulls as (fs' & _ & -> & _).
  eapply fold_writes_written; [exact Hsrc|by unfold pulled_file; rewrite Hdl|].
  intros src' v Hsrc' Hw. unfold pulled_file in Hw.
  destruct (net_download e (url src')) as [data'|] eqn:E; [|done].
  injection Hw as Hw <-. apply app_inj_tail in Hw as [_ Hw].
  pose proof (NoDup_fmap_eq output _ _ _ (cp_distinct _ _ _ Hready) Hsrc' Hsrc Hw) as ->.
  congruence.
Qed.

Lemma cp_entry_origin (q : path) (v : node) :
  disk (after_pulls e w) !! q = Some v →
  (∃ src data, src ∈ cache_config e ∧ net_download e (url src) = Some data
               ∧ q = out ++ [output src] ∧ v = File data)
  ∨ (q ≠ [] ∧ q `prefix_of` out ∧ v = Dir)
  ∨ (¬ ws `prefix_of` q ∧ disk w !! q = Some v).
Proof.
  destruct cp_after_pulls as (fs' & _ & -> & Ha & Hb' & _). intros Hq.
  apply fold_writes_origin in Hq as [Hq|(src & Hsrc & Hw)].
  - right. destruct (decide (q ≠ [] ∧ q `prefix_of` out)) as [[H1 H2]|Hno].
    + left. rewrite Ha in Hq by done. by injection Hq as <-.
    + right. rewrite Hb' in Hq by done. split; [|done]. intros [r ->].
      by rewrite (cp_fresh _ _ _ Hready) in Hq.
  - left. unfold pulled_file in Hw. destruct (net_download e (url src)) as [data|] eqn:E; [|done].
    injection Hw as <- <-. by exists src, data.
Qed.

Lemma cp_names_after : disk_names_ok (disk (after_pulls e w)).
Proof.
  intros q [v Hq].
  destruct (cp_entry_origin q v Hq) as [(src & data & Hsrc & _ & -> & _)|[(_ & [r Hr] & _)|[_ H]]].
  - apply Forall_app. split; [apply cp_out_valid|].
    constructor; [by apply (cp_outputs _ _ _ Hready)|constructor].
  - pose proof cp_out_valid as Hv. rewrite Hr in Hv. by apply Forall_app in Hv as [? _].
  - apply (cp_names _ _ _ Hready). by eexists.
Qed.

Lemma cp_blob_name (src : cache_source) :
  src ∈ cache_config e →
  blob_name_of "cache" [utcnow_stamp e; output src] = cache_key_of_source e src.
Proof.
  intros Hsrc. rewrite blob_name_of_valid; [done|done|].
  constructor; [apply (cp_stamp _ _ _ Hready)|].
  constructor; [by apply (cp_outputs _ _ _ Hready)|constructor].
Qed.
End CachePull.

Lemma bind_ok {A B} (m : M A) (k : A → M B) (w w' : world) (a : A) :
  m w = (w', Ok a) → bind m k w = k a w'.
Proof. intros E. unfold bind. by rewrite E. Qed.

Lemma run_pair {A} (m : M A) (w : world) (a : A) : (m w).2 = Ok a → m w = ((m w).1, Ok a).
Proof. intros E. destruct (m w). cbn in *. by subst. Qed.

Lemma fold_writes_keeps {K V X} `{Countable K} (wr : X → option (K * V)) (xs : list X)
    (m : gmap K V) (k : K) :
  is_Some (m !! k) → is_Some (foldl (write_step wr) m xs !! k).
Proof.
  revert m. induction xs as [|x xs IH]; intros m Hm; [done|]. cbn [foldl]. apply IH.
  unfold write_step. destruct (wr x) as [[k' v]|]; [|done].
  destruct (decide (k' = k)) as [->|]; [by rewrite lookup_insert_eq|by rewrite lookup_insert_ne].
Qed.

Lemma rmtree_lookup (d rel : path) (fs : gmap path node) :
  Disk.rmtree d fs !! (d ++ rel) = None.
Proof.
  unfold Disk.rmtree. apply map_lookup_filter_None. right. intros v _. cbn [fst].
  by rewrite (proj2 (relative_to_Some (d ++ rel) d rel) eq_refl).
Qed.

Lemma rmtree_lookup_other (d q : path) (fs : gmap path node) :
  ¬ d `prefix_of` q → Disk.rmtree d fs !! q = fs !! q.
Proof.
  intros Hq. unfold Disk.rmtree. destruct (fs !! q) as [v|] eqn:E.
  - apply map_lookup_filter_Some. split; [done|]. cbn [fst].
    destruct (Path.relative_to q d) as [rel|] eqn:Er; [|done].
    apply relative_to_Some in Er as ->. exfalso. apply Hq. by eexists.
  - apply map_lookup_filter_None. by left.
Qed.

Section CachePullRun.
Context (e : env) (b : string) (w : world).
Context (Hb : bucket_of e (GCS_BUCKET_TEST e) = Some b).
Context (Hready : cache_pull_ready e b w).

Let ws := workspace e.
Let uploaded := upload_folder e (GCS_BUCKET_TEST e) "cache" (workspace e) (after_pulls e w).
Let sitemap := build_sitemap (blob_names b "cache" (store uploaded.1)).

Lemma cp_run :
  (cache_pull e w).2 = Ok "OK"
  ∧ store (cache_pull e w).1
    = <[(b, "cache/sitemap.json") := json_dumps e sitemap]> (store uploaded.1)
  ∧ ∀ rel, disk (cache_pull e w).1 !! (workspace e ++ rel) = None.
Proof.
  unfold cache_pull, with_TemporaryDirectory. fold (workspace e).
  rewrite (cp_out e b w Hready).
  destruct (cp_mkdir e b w Hready) as (fs' & Hm & _).
  destruct (cp_after_pulls e b w Hready) as (_ & _ & _ & _ & _ & bs & Hpull).
  rewrite (bind_ok _ _ _ _ _ Hm). rewrite Hm in Hpull. cbn [fst] in Hpull.
  rewrite (bind_ok _ _ _ _ _ Hpull).
  destruct (upload_folder_run e (GCS_BUCKET_TEST e) "cache" b (workspace e) (after_pulls e w) Hb)
    as (Hup & _ & _).
  rewrite (bind_ok _ _ _ _ _ (run_pair _ _ _ Hup)). fold uploaded.
  rewrite (bind_ok _ _ _ _ _ (cache_build_map_run e b uploaded.1 Hb)).
  rewrite (bind_ok _ _ _ _ _ (get_storage_bucket_run e _ b _ Hb)).
  unfold upload_from_string, bind, tell.
  rewrite (cp_manifest _ _ _ Hready). cbn [fst snd emit set_store set_disk store disk ret].
  split; [done|]. split; [done|]. intros rel. apply rmtree_lookup.
Qed.

Lemma cp_uploaded (src : cache_source) (data : content) :
  src ∈ cache_config e → net_download e (url src) = Some data →
  Py.contains "." (output src) = true →
  store uploaded.1 !! (b, cache_key_of_source e src) = Some data.
Proof.
  intros Hsrc Hdl Hdot.
  rewrite <- (cp_blob_name e b w Hready src Hsrc).
  apply (upload_folder_stores e (GCS_BUCKET_TEST e) "cache" b (workspace e)
           (after_pulls e w) [utcnow_stamp e; output src] data Hb
           (cp_names_after e b w Hready)).
  - done.
  - rewrite <- (cp_pulled_at e b w Hready src data Hsrc Hdl). f_equal.
    by rewrite <- (assoc_L (++)).
  - by rewrite (name_app _ [utcnow_stamp e; output src]).
  - apply some_attempt_ok_true. intros i. apply (cp_uploads _ _ _ Hready).
Qed.

Lemma cp_store_origin (k : string * string) (v : content) :
  store uploaded.1 !! k = Some v →
  store w !! k = Some v
  ∨ ∃ src, src ∈ cache_config e ∧ net_download e (url src) = Some v
           ∧ Py.contains "." (output src) = true ∧ k = (b, cache_key_of_source e src).
Proof.
  destruct (upload_folder_run e (GCS_BUCKET_TEST e) "cache" b (workspace e) (after_pulls e w) Hb)
    as (_ & _ & Hst).
  fold uploaded in Hst. rewrite Hst, upload_fold_write_step.
  destruct (cp_after_pulls e b w Hready) as (_ & -> & _).
  intros [Hk|(p & Hp & Hw)]%fold_writes_origin; [by left|right].
  apply upload_write_at_Some in Hw as (rel & Hrel & Hf & -> & _).
  apply elem_of_glob_dotted in Hp as [_ (rel' & _ & _ & Hdot)%glob_selects_spec].
  apply relative_to_Some in Hrel as ->.
  destruct (cp_entry_origin e b w Hready _ _ Hf)
    as [(src & data & Hsrc & Hdl & Hq & [= <-])|[(_ & _ & ?)|[Hno _]]]; [|done|].
  - rewrite <- (assoc_L (++)) in Hq. cbn [app] in Hq. apply app_inv_head in Hq as ->.
    exists src. split; [done|]. split; [done|]. split.
    + by rewrite (name_app _ [utcnow_stamp e; output src]) in Hdot.
    + by rewrite (cp_blob_name e b w Hready src Hsrc).
  - exfalso. apply Hno. by eexists.
Qed.

Lemma cp_store_keeps (k : string * string) :
  is_Some (store w !! k) → is_Some (store uploaded.1 !! k).
Proof.
  destruct (upload_folder_run e (GCS_BUCKET_TEST e) "cache" b (workspace e) (after_pulls e w) Hb)
    as (_ & _ & Hst).
  fold uploaded in Hst. rewrite Hst, upload_fold_write_step.
  destruct (cp_after_pulls e b w Hready) as (_ & -> & _).
  apply fold_writes_keeps.
Qed.
End CachePullRun.

Lemma occurrences_elem_of (ev : event) (l : list event) : 0 < occurrences ev l → ev ∈ l.
Proof.
  unfold occurrences. intros H. destruct (filter _ l) as [|x l'] eqn:E; [cbn in H; lia|].
  assert (x ∈ filter (λ ev', ev' = ev) l) as Hx by (rewrite E; by left).
  by apply list_elem_of_filter in Hx as [-> ?].
Qed.

Lemma pull_source_failed_log (e : env) (output_folder : path) (src : cache_source) (w : world) :
  net_download e (url src) = None →
  trace (_pull_source e output_folder src w).1
  = trace w ++ [EvFetch (url src); EvPrint ("Cache pull failed for " +:+ url src);
                EvStderr NetError].
Proof.
  intros Hdl. unfold _pull_source. rewrite bind_tell, Hdl. cbn [emit trace fst].
  by rewrite <- !(assoc_L (++)).
Qed.

Lemma pull_source_other_log (e : env) (output_folder : path) (src : cache_source) (u : string) :
  url src ≠ u →
  emits (λ ev, ev ≠ EvPrint ("Cache pull failed for " +:+ u)) (_pull_source e output_folder src).
Proof.
  intros Hne w. unfold _pull_source. rewrite bind_tell.
  assert (EvPrint ("Cache pull failed for " +:+ url src)
          ≠ EvPrint ("Cache pull failed for " +:+ u)) as Hp.
  { intros [= E]. done. }
  destruct (net_download e (url src)) as [data|].
  - destruct (Disk.write_file _ _ _); cbn [emit set_disk trace fst].
    + exists [EvFetch (url src)]. split; [done|]. by repeat constructor.
    + eexists [_; _; _]. rewrite <- !(assoc_L (++)). split; [done|]. by repeat constructor.
  - eexists [_; _; _]. cbn [emit trace fst]. rewrite <- !(assoc_L (++)).
    split; [done|]. by repeat constructor.
Qed.

Lemma emits_cache_build_map (P : event → Prop) (e : env) :
  (∀ b, P (EvListBlobs b "cache")) → emits P (cache_build_map e).
Proof.
  intros HP. unfold cache_build_map.
  apply emits_bind; [apply emits_get_storage_bucket|]. intros bk.
  apply emits_bind; [|intros; apply emits_ret].
  intros w'. exists [EvListBlobs bk "cache"]. split; [done|]. by repeat constructor.
Qed.

Lemma emits_upload_from_string (P : event → Prop) (e : env) (bk name : string)
    (data : content) :
  P (EvUploadString bk name) → emits P (upload_from_string e bk name data).
Proof.
  intros HP. unfold upload_from_string.
  apply emits_bind; [by apply emits_tell|]. intros _.
  apply emits_silent. intros w'. by destruct (upload_string_ok _ _ _).
Qed.

(** The failed fetch is reported on the way. *)
Lemma cache_pull_logs_failure (e : env) (b : string) (w : world) (l1 l2 : list cache_source)
    (bad : cache_source) :
  bucket_of e (GCS_BUCKET_TEST e) = Some b →
  cache_pull_ready e b w →
  cache_config e = l1 ++ bad :: l2 →
  net_download e (url bad) = None →
  (∀ src, src ∈ l1 ++ l2 → is_Some (net_download e (url src))) →
  EvPrint ("Cache pull failed for " +:+ url bad) ∈ events_of (cache_pull e) w.
Proof.
  intros Hb Hready Hcfg Hbad Hgood.
  set (ev := EvPrint ("Cache pull failed for " +:+ url bad)).
  set (out := workspace e ++ [utcnow_stamp e]).
  set (w0 := emit (EvMkdtemp (workspace e)) (set_disk (<[workspace e := Dir]> (disk w)) w)).
  destruct (cp_mkdir e b w Hready) as (fs' & Hm & _). fold out w0 in Hm.
  set (wm := set_disk fs' (emit (EvMkdir out) w0)) in Hm.
  destruct (thread_map_count (_pull_source e out) l1 l2 bad ev 1 wm) as (evs & Eev & Cev).
  { intros y Hy. apply pull_source_other_log. intros E.
    destruct (Hgood y Hy) as [data Hd]. congruence. }
  { eexists. split; [by apply pull_source_failed_log|].
    rewrite !occurrences_cons. repeat case_decide; simplify_eq; done. }
  assert (ev ∈ evs) as Hin by (apply occurrences_elem_of; lia).
  assert (trace (after_pulls e w) = trace w ++ EvMkdtemp (workspace e) :: EvMkdir out :: evs)
    as Hafter.
  { unfold after_pulls. rewrite (cp_out e b w Hready). fold out w0. rewrite Hm. cbn [fst].
    fold wm. rewrite Hcfg, Eev. subst wm w0. cbn [emit set_disk trace].
    by rewrite <- !(assoc_L (++)). }
  assert (∃ rest, trace (cache_pull e w).1 = trace (after_pulls e w) ++ rest) as [rest Hrest].
  { unfold cache_pull, with_TemporaryDirectory. fold (workspace e).
    rewrite (cp_out e b w Hready). fold out w0.
    destruct (cp_after_pulls e b w Hready) as (_ & _ & _ & _ & _ & bs & Hpull).
    fold out w0 in Hpull.
    rewrite (bind_ok _ _ _ _ _ Hm). rewrite Hm in Hpull. cbn [fst] in Hpull.
    rewrite (bind_ok _ _ _ _ _ Hpull).
    match goal with |- context [?m (after_pulls e w)] => set (rest_m := m) end.
    assert (emits (λ _, True) rest_m) as Hem.
    { subst rest_m. apply emits_bind; [eapply emits_weaken; [|apply emits_upload_folder]; done|].
      intros _. apply emits_bind; [by apply emits_cache_build_map|].
      intros sm. apply emits_bind; [apply emits_get_storage_bucket|].
      intros bk. apply emits_bind; [by apply emits_upload_from_string|].
      intros _. apply emits_ret. }
    destruct (Hem (after_pulls e w)) as (evs' & E' & _).
    destruct (rest_m (after_pulls e w)) as [w5 r]. cbn [fst emit set_disk trace] in *.
    exists (evs' ++ [EvCleanup (workspace e)]). by rewrite E', <- (assoc_L (++)). }
  rewrite (events_of_app _ _ (EvMkdtemp (workspace e) :: EvMkdir out :: evs ++ rest)).
  - do 2 right. apply elem_of_app. by left.
  - rewrite Hrest, Hafter, <- !(assoc_L (++)). done.
Qed.

Lemma contains_char_app (c : ascii) (x y : string) :
  Py.contains (String c EmptyString) (x +:+ String c y) = true.
Proof.
  induction x as [|a x IH].
  - change (EmptyString +:+ String c y) with (String c y).
    by rewrite PyFacts.contains_char_cons, Ascii.eqb_refl.
  - rewrite app_String, PyFacts.contains_char_cons, IH. by destruct (Ascii.eqb c a).
Qed.

Lemma cache_key_not_manifest (e : env) (src : cache_source) :
  cache_key_of_source e src ≠ "cache/sitemap.json".
Proof.
  unfold cache_key_of_source. intros E.
  assert (utcnow_stamp e +:+ "/" +:+ output src = "sitemap.json") as E' by (by injection E).
  pose proof (contains_char_app "/" (utcnow_stamp e) (output src)) as H.
  change (String "/" (output src)) with ("/" +:+ output src) in H. by rewrite E' in H.
Qed.

(** C9, as the spec has it, fails: of the two sources that were fetched, the
    one whose output name has no dot is written locally but not uploaded,
    and the manifest does not mention it. *)
Lemma undotted_cache_output_is_not_uploaded :
  let run := cache_pull three_sources earlier_cache in
  run.2 = Ok "OK"
  ∧ net_download three_sources "https://c.example/data"
    = Some (Sample.bytes "https://c.example/data")
  ∧ disk (after_pulls three_sources earlier_cache)
      !! ["tmp"; "tmpk3x0"; "2020-05-01-13"; "LICENSE"]
    = Some (File (Sample.bytes "https://c.example/data"))
  ∧ store run.1 !! ("test", "cache/2020-05-01-13/LICENSE") = None
  ∧ blob_names "test" "cache" (store run.1)
    = ["cache/2020-05-01-12/a.csv"; "cache/2020-05-01-13/a.csv"; "cache/sitemap.json"]
  ∧ build_sitemap (blob_names "test" "cache" (store run.1)) !! "LICENSE" = None.
Proof. by vm_compute. Qed.

(** C9, amended. Let one configured source fail its fetch while every other
    fetch and every store operation succeeds, the output names being
    distinct plain file names.  Then [cache_pull] returns ["OK"] and reports
    the failure on the way; each of the other outputs is written into the
    hour's folder, and those whose name has a dot are uploaded under
    [cache/<hour>/<output>]; the manifest is built from exactly the objects
    cached before together with those uploads; and the workspace is gone. *)
Theorem cache_pull_survives_failed_fetch (e : env) (b : string) (w : world)
    (l1 l2 : list cache_source) (bad : cache_source) :
  bucket_of e (GCS_BUCKET_TEST e) = Some b →
  cache_pull_ready e b w →
  cache_config e = l1 ++ bad :: l2 →
  net_download e (url bad) = None →
  (∀ src, src ∈ l1 ++ l2 → is_Some (net_download e (url src))) →
  let uploaded :=
    upload_folder e (GCS_BUCKET_TEST e) "cache" (workspace e) (after_pulls e w) in
  let sitemap := build_sitemap (blob_names b "cache" (store uploaded.1)) in
  let run := cache_pull e w in
  run.2 = Ok "OK"
  ∧ EvPrint ("Cache pull failed for " +:+ url bad) ∈ events_of (cache_pull e) w
  ∧ (∀ src data,
       src ∈ l1 ++ l2 → net_download e (url src) = Some data →
       disk (after_pulls e w) !! (workspace e ++ [utcnow_stamp e; output src])
       = Some (File data)
       ∧ (Py.contains "." (output src) = true →
          store run.1 !! (b, cache_key_of_source e src) = Some data))
  ∧ store run.1 !! (b, "cache/sitemap.json") = Some (json_dumps e sitemap)
  ∧ (∀ name,
       name ∈ blob_names b "cache" (store uploaded.1)
       ↔ name ∈ blob_names b "cache" (store w)
         ∨ ∃ src, src ∈ l1 ++ l2 ∧ Py.contains "." (output src) = true
                  ∧ name = cache_key_of_source e src)
  ∧ (∀ rel, disk run.1 !! (workspace e ++ rel) = None).
Proof.
  intros Hb Hready Hcfg Hbad Hgood uploaded sitemap run.
  destruct (cp_run e b w Hb Hready) as (Hok & Hstore & Hgone).
  fold uploaded sitemap run in Hok, Hstore, Hgone.
  assert (∀ src, src ∈ l1 ++ l2 → src ∈ cache_config e) as Hin.
  { intros src Hsrc. rewrite Hcfg. apply elem_of_app in Hsrc as [?|?];
      apply elem_of_app; [by left|right; by right]. }
  assert (∀ src data, src ∈ cache_config e → net_download e (url src) = Some data →
                      src ∈ l1 ++ l2) as Hout.
  { intros src data Hsrc Hdl. rewrite Hcfg in Hsrc.
    apply elem_of_app in Hsrc as [?|[->|?]%elem_of_cons]; [apply elem_of_app; by left| |
      apply elem_of_app; by right]. congruence. }
  split; [done|]. split; [by eapply cache_pull_logs_failure|]. split; [|split; [|split]].
  - intros src data Hsrc Hdl. split.
    + rewrite <- (cp_pulled_at e b w Hready src data (Hin _ Hsrc) Hdl).
      f_equal. by rewrite <- (assoc_L (++)).
    + intros Hdot. rewrite Hstore, lookup_insert_ne.
      * exact (cp_uploaded e b w Hb Hready src data (Hin _ Hsrc) Hdl Hdot).
      * intros E. apply (f_equal snd) in E. cbn [snd] in E.
        by apply (cache_key_not_manifest e src).
  - by rewrite Hstore, lookup_insert_eq.
  - intros name. rewrite !elem_of_blob_names. split.
    + intros [[v Hv] Hp].
      destruct (cp_store_origin e b w Hb Hready _ _ Hv) as [?|(src & Hsrc & Hdl & Hdot & [= ->])].
      * left. split; [by eexists|done].
      * right. exists src. split; [by eapply Hout|done].
    + intros [[Hs Hp]|(src & Hsrc & Hdot & ->)].
      * split; [by apply (cp_store_keeps e b w Hb Hready)|done].
      * destruct (Hgood src Hsrc) as [data Hdl]. split; [|done].
        exists data. exact (cp_uploaded e b w Hb Hready src data (Hin _ Hsrc) Hdl Hdot).
  - done.
Qed.

Lemma three_sources_ready : cache_pull_ready three_sources "test" earlier_cache.
Proof.
  split.
  - intros p [v Hp]. cbn [earlier_cache disk] in Hp. by rewrite lookup_empty in Hp.
  - repeat (apply Forall_cons; split; [by repeat split|]); by constructor.
  - by repeat split.
  - intros src Hsrc.
    change (cache_config three_sources) with
      [{| url := "https://a.example/data"; output := "a.csv" |};
       {| url := "https://b.example/data"; output := "b.json" |};
       {| url := "https://c.example/data"; output := "LICENSE" |}] in Hsrc.
    repeat (apply elem_of_cons in Hsrc as [->|Hsrc]; [by repeat split|]).
    by apply elem_of_nil in Hsrc.
  - apply (bool_decide_unpack _). by vm_compute.
  - intros rel. apply lookup_empty.
  - intros q c _ _. cbn [earlier_cache disk]. by rewrite lookup_empty.
  - done.
  - done.
Qed.

Lemma cache_pull_survives_failed_fetch_witness :
  let run := cache_pull three_sources earlier_cache in
  run.2 = Ok "OK"
  ∧ EvPrint ("Cache pull failed for " +:+ "https://b.example/data")
    ∈ events_of (cache_pull three_sources) earlier_cache
  ∧ store run.1 !! ("test", "cache/sitemap.json")
    = Some (json_dumps three_sources
              (build_sitemap
                 (blob_names "test" "cache"
                    (store (upload_folder three_sources "test" "cache"
                              (workspace three_sources)
                              (after_pulls three_sources earlier_cache)).1)))).
Proof.
  destruct (cache_pull_survives_failed_fetch three_sources "test" earlier_cache
              [{| url := "https://a.example/data"; output := "a.csv" |}]
              [{| url := "https://c.example/data"; output := "LICENSE" |}]
              {| url := "https://b.example/data"; output := "b.json" |}
              eq_refl three_sources_ready eq_refl eq_refl)
    as (H1 & H2 & _ & H4 & _).
  { intros src Hsrc. cbn [app] in Hsrc.
    repeat (apply elem_of_cons in Hsrc as [->|Hsrc]; [by eexists|]).
    by apply elem_of_nil in Hsrc. }
  exact (conj H1 (conj H2 H4)).
Defined.

(** ** What the transfers leave alone *)

Lemma download_folder_no_bucket (e : env) (bucket_name remote_path : string)
    (local_folder : path) (w : world) :
  bucket_of e bucket_name = None →
  download_folder e bucket_name remote_path local_folder w = (w, Raise AssertionError).
Proof.
  intros Hb. unfold download_folder, bind.
  by rewrite (get_storage_bucket_fail _ _ _ Hb).
Qed.

(** A blob that [upload_folder] has changed is named after a regular file
    with a dot in its name, and holds what such a file holds. *)
Lemma upload_folder_changes (e : env) (bucket_name remote_path : string)
    (local_folder : path) (w : world) (k : string * string) :
  store (upload_folder e bucket_name remote_path local_folder w).1 !! k ≠ store w !! k →
  ∃ b rel data,
    bucket_of e bucket_name = Some b
    ∧ rel ≠ []
    ∧ disk w !! (local_folder ++ rel) = Some (File data)
    ∧ Py.contains "." (Path.name (local_folder ++ rel)) = true
    ∧ k = (b, blob_name_of remote_path rel)
    ∧ store (upload_folder e bucket_name remote_path local_folder w).1 !! k = Some data.
Proof.
  intros Hk. destruct (bucket_of e bucket_name) as [b|] eqn:Hb.
  2: { by rewrite upload_folder_no_bucket in Hk. }
  destruct (upload_folder_run e bucket_name remote_path b local_folder w Hb) as (_ & _ & Hst).
  rewrite Hst, upload_fold_write_step in Hk |- *.
  destruct (foldl _ _ _ !! k) as [v|] eqn:Hv.
  - apply fold_writes_origin in Hv as [Hv|(p & Hp & Hwr)]; [by rewrite Hv in Hk|].
    apply upload_write_at_Some in Hwr as (rel & Hrel & Hfile & -> & Hok).
    apply elem_of_glob_dotted in Hp as [_ Hsel].
    apply glob_selects_spec in Hsel as (rel' & Hne & -> & Hdot).
    apply relative_to_Some in Hrel. simplify_list_eq.
    by exists b, rel, v.
  - destruct (store w !! k) as [v|] eqn:E; [|done].
    destruct (fold_writes_keeps (upload_write_at e b remote_path local_folder (disk w))
                (Disk.glob_dotted local_folder (disk w)) (store w) k) as [v' Hv'].
    { by rewrite E. }
    by rewrite Hv' in Hv.
Qed.

(** X1: [download_folder] never writes to the bucket and [upload_folder]
    never writes to the local disk, whatever the arguments and whether or
    not a transfer fails or the call raises. *)
Theorem transfers_are_one_way (e : env) (bucket_name remote_path : string)
    (local_folder : path) (w : world) :
  store (download_folder e bucket_name remote_path local_folder w).1 = store w
  ∧ disk (upload_folder e bucket_name remote_path local_folder w).1 = disk w.
Proof.
  destruct (bucket_of e bucket_name) as [b|] eqn:Hb.
  - split.
    + by destruct (download_folder_run e bucket_name remote_path b local_folder w Hb)
        as (? & _).
    + by destruct (upload_folder_run e bucket_name remote_path b local_folder w Hb)
        as (_ & ? & _).
  - by rewrite download_folder_no_bucket, upload_folder_no_bucket.
Qed.

(** X2: [upload_folder] deletes no blob, and a blob it has changed lies in
    the resolved bucket, is named [os.path.join(remote_path, rel)] for a
    regular file [local_folder / rel] whose name contains a dot, and holds
    the bytes of such a file. *)
Theorem upload_folder_writes_only_selected_files (e : env) (bucket_name remote_path : string)
    (local_folder : path) (w : world) (k : string * string) :
  let run := upload_folder e bucket_name remote_path local_folder w in
  (is_Some (store w !! k) → is_Some (store run.1 !! k))
  ∧ (store run.1 !! k ≠ store w !! k →
     ∃ b rel data,
       bucket_of e bucket_name = Some b
       ∧ rel ≠ []
       ∧ disk w !! (local_folder ++ rel) = Some (File data)
       ∧ Py.contains "." (Path.name (local_folder ++ rel)) = true
       ∧ k = (b, blob_name_of remote_path rel)
       ∧ store run.1 !! k = Some data).
Proof.
  split; [|apply upload_folder_changes].
  intros Hk. destruct (bucket_of e bucket_name) as [b|] eqn:Hb.
  - destruct (upload_folder_run e bucket_name remote_path b local_folder w Hb) as (_ & _ & ->).
    rewrite upload_fold_write_step. by apply fold_writes_keeps.
  - by rewrite upload_folder_no_bucket.
Qed.

Lemma upload_folder_writes_only_selected_files_witness :
  ∃ b rel data,
    bucket_of Sample.calm "test" = Some b
    ∧ rel ≠ []
    ∧ disk tree !! (["w"] ++ rel) = Some (File data)
    ∧ Py.contains "." (Path.name (["w"] ++ rel)) = true
    ∧ ("test", "p/a.csv") = (b, blob_name_of "p" rel)
    ∧ store (upload_folder Sample.calm "test" "p" ["w"] tree).1 !! ("test", "p/a.csv")
      = Some data.
Proof.
  apply (upload_folder_writes_only_selected_files Sample.calm "test" "p" ["w"] tree
           ("test", "p/a.csv")).
  intros H. vm_compute in H. discriminate H.
Defined.

(** X3: with no bucket name given, every transfer uses the bucket named by
    the variable GCS_BUCKET_NAME; when the variable is not set either, the
    transfer raises AssertionError before it lists, prints or copies
    anything. *)
Theorem bucket_name_falls_back_to_environment (e : env) (remote_path : string)
    (local_folder : path) (w : world) :
  (∀ v, getenv e "GCS_BUCKET_NAME" = Some v →
        download_folder e "" remote_path local_folder w
        = download_folder e v remote_path local_folder w
        ∧ upload_folder e "" remote_path local_folder w
          = upload_folder e v remote_path local_folder w)
  ∧ (getenv e "GCS_BUCKET_NAME" = None →
     download_folder e "" remote_path local_folder w = (w, Raise AssertionError)
     ∧ upload_folder e "" remote_path local_folder w = (w, Raise AssertionError)).
Proof.
  split.
  - intros v Hv.
    assert (get_storage_bucket e "" w = get_storage_bucket e v w) as Hg.
    { unfold get_storage_bucket. cbn [Py.or_str]. rewrite Hv.
      destruct v; [done|]. by cbn [Py.or_str]. }
    unfold download_folder, upload_folder, bind. by rewrite Hg.
  - intros Hv. split.
    + apply download_folder_no_bucket. unfold bucket_of. by cbn [Py.or_str].
    + apply upload_folder_no_bucket. unfold bucket_of. by cbn [Py.or_str].
Qed.

Lemma bucket_name_falls_back_to_environment_witness :
  (download_folder from_environment "" "p" ["w"] stale
   = download_folder from_environment "staging" "p" ["w"] stale
   ∧ upload_folder from_environment "" "p" ["w"] stale
     = upload_folder from_environment "staging" "p" ["w"] stale)
  ∧ (download_folder Sample.calm "" "p" ["w"] stale = (stale, Raise AssertionError)
     ∧ upload_folder Sample.calm "" "p" ["w"] stale = (stale, Raise AssertionError)).
Proof.
  destruct (bucket_name_falls_back_to_environment from_environment "p" ["w"] stale)
    as [H1 _].
  destruct (bucket_name_falls_back_to_environment Sample.calm "p" ["w"] stale)
    as [_ H2].
  exact (conj (H1 "staging" eq_refl) (H2 eq_refl)).
Defined.

(** ** How blob names and local paths correspond *)

(** X4: the name [upload_folder] gives a file and the path [download_folder]
    derives from that name are inverse to each other: under a non-empty
    prefix without trailing slash, a relative path of proper names that does
    not contain [remote_path/] is uploaded as [remote_path/rel] and
    downloaded to [local_folder/rel]. *)
Theorem download_inverts_upload_naming (remote_path : string) (local_folder rel : path) :
  remote_path ≠ EmptyString → ends_with_slash remote_path = false →
  rel ≠ [] → Forall valid_name rel →
  Py.contains (remote_path +:+ "/") (Py.join "/" rel) = false →
  blob_name_of remote_path rel = remote_path +:+ "/" +:+ Py.join "/" rel
  ∧ Py.startswith remote_path (blob_name_of remote_path rel) = true
  ∧ download_target remote_path local_folder (blob_name_of remote_path rel)
    = local_folder ++ rel.
Proof.
  intros Hp1 Hp2 Hne Hv Hin.
  assert (blob_name_of remote_path rel = remote_path +:+ "/" +:+ Py.join "/" rel) as ->.
  { rewrite blob_name_of_valid by done. rewrite Hp2. by destruct remote_path. }
  split; [done|]. split; [apply startswith_app|].
  unfold download_target. rewrite blob_rel_path_strip by done.
  rewrite <- (div_str local_folder rel Hne Hv). unfold Path.str. by destruct rel.
Qed.

Lemma download_inverts_upload_naming_witness :
  blob_name_of "tables" ["2020"; "a.csv"] = "tables" +:+ "/" +:+ Py.join "/" ["2020"; "a.csv"]
  ∧ Py.startswith "tables" (blob_name_of "tables" ["2020"; "a.csv"]) = true
  ∧ download_target "tables" ["tmp"; "w"] (blob_name_of "tables" ["2020"; "a.csv"])
    = ["tmp"; "w"] ++ ["2020"; "a.csv"].
Proof.
  apply (download_inverts_upload_naming "tables" ["tmp"; "w"] ["2020"; "a.csv"]).
  - discriminate.
  - reflexivity.
  - discriminate.
  - repeat (apply Forall_cons; split; [by repeat split|]). by constructor.
  - reflexivity.
Defined.

(** X5: [list_blobs(prefix=remote_path)] also returns the blobs of a folder
    whose name merely starts with [remote_path].  Such a name holds no
    [remote_path/], the split leaves it whole, and the blob is downloaded to
    [local_folder / name], its full name. *)
Theorem prefix_sibling_is_downloaded_under_its_full_name (e : env)
    (bucket_name remote_path b name : string) (local_folder : path) (w : world)
    (data : content) :
  bucket_of e bucket_name = Some b →
  store w !! (b, name) = Some data →
  Py.startswith remote_path name = true →
  Py.contains (remote_path +:+ "/") name = false →
  name ∈ blob_names b remote_path (store w)
  ∧ download_target remote_path local_folder name = Path.div local_folder name
  ∧ (download_fits remote_path local_folder (blob_names b remote_path (store w)) (disk w) →
     some_attempt_ok (download_ok e b name) = true →
     Path.div local_folder name ≠ [] →
     disk w !! Path.div local_folder name ≠ Some Dir →
     disk (download_folder e bucket_name remote_path local_folder w).1
       !! Path.div local_folder name = Some (File data)).
Proof.
  intros Hb Hs Hstart Hno.
  assert (name ∈ blob_names b remote_path (store w)) as Hin.
  { apply elem_of_blob_names. split; [by eexists|done]. }
  assert (download_target remote_path local_folder name = Path.div local_folder name) as Ht.
  { unfold download_target, blob_rel_path, Py.split. by rewrite split_go_absent. }
  split; [done|]. split; [done|]. intros Hfits Hok Hne Hdir.
  destruct (download_folder_run e bucket_name remote_path b local_folder w Hb)
    as (_ & _ & Hrun).
  destruct (Hrun Hfits) as [_ Hplaced].
  apply (placed_written _ _ _ Hplaced); [|done..].
  apply download_tasks_elem. exists name. split; [done|].
  unfold download_task, download_result. by rewrite Ht, Hs, Hok.
Qed.

Lemma siblings_download_fits :
  download_fits "tables" ["v"] (blob_names "test" "tables" (store siblings)) (disk siblings).
Proof.
  assert (blob_names "test" "tables" (store siblings) = ["tables/a.csv"; "tables_old/b.csv"])
    as -> by (by vm_compute).
  split; [|split].
  - intros n m Hn Hm.
    repeat (apply elem_of_cons in Hn as [->|Hn]); [..|by apply elem_of_nil in Hn].
    all: repeat (apply elem_of_cons in Hm as [->|Hm]); [..|by apply elem_of_nil in Hm].
    all: try done.
    all: intros [k Hk]; vm_compute in Hk; discriminate Hk.
  - intros n q c _ _ _ _. cbn [siblings disk]. by rewrite lookup_empty.
  - intros n Hn.
    repeat (apply elem_of_cons in Hn as [->|Hn]); [..|by apply elem_of_nil in Hn].
    all: apply (bool_decide_unpack _); by vm_compute.
Qed.

Lemma prefix_sibling_is_downloaded_under_its_full_name_witness :
  "tables_old/b.csv" ∈ blob_names "test" "tables" (store siblings)
  ∧ download_target "tables" ["v"] "tables_old/b.csv" = Path.div ["v"] "tables_old/b.csv"
  ∧ disk (download_folder Sample.calm "test" "tables" ["v"] siblings).1
      !! Path.div ["v"] "tables_old/b.csv" = Some (File (Sample.bytes "b")).
Proof.
  destruct (prefix_sibling_is_downloaded_under_its_full_name Sample.calm "test" "tables" "test"
              "tables_old/b.csv" ["v"] siblings (Sample.bytes "b")
              eq_refl eq_refl eq_refl eq_refl) as (H1 & H2 & H3).
  refine (conj H1 (conj H2 (H3 siblings_download_fits eq_refl _ _))).
  - discriminate.
  - cbn [siblings disk]. rewrite lookup_empty. discriminate.
Defined.

(** X6: a blob name with a slash right after [remote_path/] yields an
    absolute relative path, and [local_folder / rel_path] then drops
    [local_folder]: the download goes to the same absolute path whatever
    folder was asked for. *)
Theorem double_slash_leaves_the_folder (remote_path s : string) (local_folder : path) :
  Py.contains (remote_path +:+ "/") ("/" +:+ s) = false →
  blob_rel_path remote_path (remote_path +:+ "/" +:+ "/" +:+ s) = "/" +:+ s
  ∧ download_target remote_path local_folder (remote_path +:+ "/" +:+ "/" +:+ s)
    = Path.parts s.
Proof.
  intros Hno.
  assert (blob_rel_path remote_path (remote_path +:+ "/" +:+ "/" +:+ s) = "/" +:+ s) as E.
  { by apply (blob_rel_path_strip remote_path ("/" +:+ s)). }
  split; [done|]. unfold download_target. rewrite E.
  change ("/" +:+ s) with (String "/" s).
  unfold Path.div. rewrite (PyFacts.startswith_char "/" "/" s).
  change (Ascii.eqb "/" "/") with true. cbv iota.
  unfold Path.parts. rewrite (PyFacts.split_char_cons "/" "/" s).
  change (Ascii.eqb "/" "/") with true. cbv iota.
  rewrite filter_cons_False; [done|]. by intros [? _].
Qed.

Lemma double_slash_leaves_the_folder_witness :
  blob_rel_path "tables" ("tables" +:+ "/" +:+ "/" +:+ "etc/cron.d/job.sh")
  = "/" +:+ "etc/cron.d/job.sh"
  ∧ download_target "tables" ["tmp"; "w"; "tables"]
      ("tables" +:+ "/" +:+ "/" +:+ "etc/cron.d/job.sh")
    = Path.parts "etc/cron.d/job.sh".
Proof.
  apply (double_slash_leaves_the_folder "tables" "etc/cron.d/job.sh" ["tmp"; "w"; "tables"]).
  reflexivity.
Defined.

(** ** The retry loop, attempt by attempt *)

Lemma upload_retry_not_file (e : env) (b name : string) (p : path) (n i : nat) (w : world) :
  (∀ data, disk w !! p ≠ Some (File data)) →
  trace (retry_loop n i (upload_from_filename e b name p) w).1
  = trace w ++ mjoin (replicate n [EvUploadAttempt b name p; EvStderr OSError]).
Proof.
  intros Hp. revert i w Hp.
  induction n as [|n IH]; intros i w Hp; cbn [retry_loop replicate mjoin list_join].
  { cbn. by rewrite app_nil_r. }
  rewrite upload_attempt_run.
  destruct (disk w !! p) as [[|data]|] eqn:E; [|by destruct (Hp data)|].
  all: rewrite IH by (cbn [emit disk]; by rewrite E).
  all: cbn [emit trace]; by rewrite <- !(assoc_L (++)).
Qed.

Lemma upload_retry_stops (e : env) (b name : string) (p : path) (data : content)
    (k n i : nat) (w : world) :
  disk w !! p = Some (File data) →
  (∀ j, i ≤ j < i + k → upload_ok e b name j = false) →
  upload_ok e b name (i + k) = true →
  k < n →
  trace (retry_loop n i (upload_from_filename e b name p) w).1
  = trace w ++ mjoin (replicate k [EvUploadAttempt b name p; EvStderr StoreError])
            ++ [EvUploadAttempt b name p].
Proof.
  intros Hp. revert n i w Hp.
  induction k as [|k IH]; intros n i w Hp Hfail Hok Hlt.
  - destruct n as [|n]; [lia|]. cbn [retry_loop replicate mjoin list_join app].
    rewrite upload_attempt_run, Hp. rewrite Nat.add_0_r in Hok. by rewrite Hok.
  - destruct n as [|n]; [lia|]. cbn [retry_loop replicate mjoin list_join].
    rewrite upload_attempt_run, Hp, (Hfail i) by lia.
    rewrite (IH n (S i)); [| done | intros j Hj; apply Hfail; lia
                           | by replace (S i + k) with (i + S k) by lia | lia].
    cbn [emit trace]. by rewrite <- !(assoc_L (++)).
Qed.

Lemma upload_tasks_disk (e : env) (b remote_path : string) (local_folder : path)
    (files : list path) (w : world) :
  Forall (λ p, is_Some (Path.relative_to p local_folder)) files →
  disk (thread_map (_upload_file e b local_folder remote_path) files w).1 = disk w.
Proof.
  intros Hf. rewrite thread_map_world.
  by destruct (upload_tasks_fold e b remote_path local_folder files w Hf) as [? _].
Qed.

(** The attempts [upload_folder] makes for one of the entries it selects,
    given the attempts the task of that entry makes wherever it runs. *)
Lemma upload_folder_count (e : env) (bucket_name remote_path b : string)
    (local_folder rel : path) (w : world) (n : nat) :
  bucket_of e bucket_name = Some b →
  local_folder ++ rel ∈ Disk.glob_dotted local_folder (disk w) →
  (∀ w', disk w' = disk w →
     ∃ evs, trace (_upload_file e b local_folder remote_path (local_folder ++ rel) w').1
            = trace w' ++ evs
            ∧ occurrences (EvUploadAttempt b (blob_name_of remote_path rel)
                             (local_folder ++ rel)) evs = n) →
  occurrences (EvUploadAttempt b (blob_name_of remote_path rel) (local_folder ++ rel))
    (events_of (upload_folder e bucket_name remote_path local_folder) w) = n.
Proof.
  intros Hb Hp Htask.
  pose proof (glob_dotted_relative local_folder (disk w)) as Hrel.
  apply list_elem_of_split in Hp as (l1 & l2 & E).
  pose proof (NoDup_glob_dotted local_folder (disk w)) as Hnd. rewrite E in Hnd, Hrel.
  destruct (thread_map_count (_upload_file e b local_folder remote_path) l1 l2
              (local_folder ++ rel)
              (EvUploadAttempt b (blob_name_of remote_path rel) (local_folder ++ rel)) n w)
    as (evs & Eev & Cev).
  { intros y Hy. apply upload_file_other. intros ->.
    apply NoDup_app in Hnd as (_ & Hnd1 & Hnd2). apply NoDup_cons in Hnd2 as [Hnd2 _].
    apply elem_of_app in Hy as [Hy|Hy]; [|done].
    apply (Hnd1 _ Hy). by left. }
  { apply Htask, upload_tasks_disk. by apply Forall_app in Hrel as [? _]. }
  rewrite (events_of_app _ _ evs); [done|].
  by rewrite (upload_folder_world _ _ _ _ _ _ Hb), E.
Qed.

(** X7: an upload is not tried again once it has gone through.  When
    attempt number [k] (counted from 0) is the first to succeed, the file is
    sent exactly [k + 1] times. *)
Theorem upload_stops_at_first_success (e : env) (bucket_name remote_path b : string)
    (local_folder rel : path) (w : world) (data : content) (k : nat) :
  bucket_of e bucket_name = Some b →
  rel ≠ [] →
  disk w !! (local_folder ++ rel) = Some (File data) →
  Py.contains "." (Path.name (local_folder ++ rel)) = true →
  k < BLOB_OP_MAX_RETRIES →
  (∀ j, j < k → upload_ok e b (blob_name_of remote_path rel) j = false) →
  upload_ok e b (blob_name_of remote_path rel) k = true →
  occurrences (EvUploadAttempt b (blob_name_of remote_path rel) (local_folder ++ rel))
    (events_of (upload_folder e bucket_name remote_path local_folder) w) = S k.
Proof.
  intros Hb Hne Hf Hdot Hk Hfail Hok.
  apply upload_folder_count; [done| |].
  { apply elem_of_glob_dotted. split; [by eexists|]. apply glob_selects_spec. by exists rel. }
  intros w' Hd. unfold _upload_file.
  rewrite (proj2 (relative_to_Some _ _ _) eq_refl), bind_tell.
  rewrite (upload_retry_stops e b _ _ data k); [|cbn [emit disk]; by rewrite Hd|intros; apply Hfail; lia|done..].
  cbn [emit trace]. rewrite <- (assoc_L (++)). eexists. split; [done|].
  assert (∀ m, occurrences (EvUploadAttempt b (blob_name_of remote_path rel)
                             (local_folder ++ rel))
                 (mjoin (replicate m [EvUploadAttempt b (blob_name_of remote_path rel)
                                        (local_folder ++ rel); EvStderr StoreError])) = m) as Hm.
  { induction m as [|m IH]; [done|].
    change (mjoin (replicate (S m) ?l)) with (l ++ mjoin (replicate m l)).
    rewrite occurrences_app, IH, !occurrences_cons.
    rewrite decide_True, decide_False by done. by change (occurrences _ []) with 0. }
  rewrite !occurrences_app, Hm, !occurrences_cons.
  rewrite decide_False, decide_True by done. change (occurrences _ []) with 0. lia.
Qed.

Lemma upload_stops_at_first_success_witness :
  occurrences (EvUploadAttempt "test" (blob_name_of "p" ["a.csv"]) (["w"] ++ ["a.csv"]))
    (events_of (upload_folder flaky "test" "p" ["w"]) tree) = 2.
Proof.
  apply (upload_stops_at_first_success flaky "test" "p" "test" ["w"] ["a.csv"] tree
           (Sample.bytes "alpha") 1).
  - reflexivity.
  - discriminate.
  - by vm_compute.
  - by vm_compute.
  - unfold BLOB_OP_MAX_RETRIES. lia.
  - intros j Hj. assert (j = 0) as -> by lia. reflexivity.
  - reflexivity.
Defined.

(** X8: the pattern [**/*.*] also selects directories whose name contains a
    dot.  Such a directory is handed to [upload_from_filename] like a file:
    all three attempts fail, each failure is printed and swallowed, the call
    as a whole succeeds and no blob is written for it. *)
Theorem dotted_directory_is_tried_as_a_file (e : env) (bucket_name remote_path b : string)
    (local_folder rel : path) (w : world) :
  bucket_of e bucket_name = Some b →
  disk_names_ok (disk w) →
  rel ≠ [] →
  disk w !! (local_folder ++ rel) = Some Dir →
  Py.contains "." (Path.name (local_folder ++ rel)) = true →
  let run := upload_folder e bucket_name remote_path local_folder w in
  local_folder ++ rel ∈ Disk.glob_dotted local_folder (disk w)
  ∧ run.2 = Ok tt
  ∧ occurrences (EvUploadAttempt b (blob_name_of remote_path rel) (local_folder ++ rel))
      (events_of (upload_folder e bucket_name remote_path local_folder) w)
    = BLOB_OP_MAX_RETRIES
  ∧ store run.1 !! (b, blob_name_of remote_path rel)
    = store w !! (b, blob_name_of remote_path rel).
Proof.
  intros Hb Hnames Hne Hd Hdot run.
  assert (local_folder ++ rel ∈ Disk.glob_dotted local_folder (disk w)) as Hsel.
  { apply elem_of_glob_dotted. split; [by eexists|]. apply glob_selects_spec. by exists rel. }
  destruct (upload_folder_run e bucket_name remote_path b local_folder w Hb)
    as (Hok & _ & Hst). fold run in Hok, Hst.
  split; [done|]. split; [done|]. split.
  - apply upload_folder_count; [done..|].
    intros w' Hw'. unfold _upload_file.
    rewrite (proj2 (relative_to_Some _ _ _) eq_refl), bind_tell.
    rewrite upload_retry_not_file by (cbn [emit disk]; rewrite Hw', Hd; done).
    cbn [emit trace]. rewrite <- (assoc_L (++)). eexists. split; [done|].
    cbn [replicate mjoin list_join app BLOB_OP_MAX_RETRIES].
    rewrite !occurrences_cons. repeat case_decide; simplify_eq; done.
  - destruct (decide (store run.1 !! (b, blob_name_of remote_path rel)
                      = store w !! (b, blob_name_of remote_path rel))) as [|Hch]; [done|].
    apply upload_folder_changes in Hch
      as (b' & rel' & data & _ & Hne' & Hf & _ & [= _ E] & _).
    assert (rel = rel') as <-; [|congruence].
    eapply blob_name_of_inj; [done..| | |done].
    + assert (is_Some (disk w !! (local_folder ++ rel))) as Hs by by eexists.
      by apply Hnames, Forall_app in Hs as [_ ?].
    + assert (is_Some (disk w !! (local_folder ++ rel'))) as Hs by by eexists.
      by apply Hnames, Forall_app in Hs as [_ ?].
Qed.

Lemma versioned_names_ok : disk_names_ok (disk versioned).
Proof.
  intros p [v Hp]. entries Hp; injection Hp as -> _.
  all: repeat (apply Forall_cons; split; [by repeat split|]); by constructor.
Qed.

Lemma dotted_directory_is_tried_as_a_file_witness :
  let run := upload_folder Sample.calm "test" "p" ["w"] versioned in
  ["w"] ++ ["v1.0"] ∈ Disk.glob_dotted ["w"] (disk versioned)
  ∧ run.2 = Ok tt
  ∧ occurrences (EvUploadAttempt "test" (blob_name_of "p" ["v1.0"]) (["w"] ++ ["v1.0"]))
      (events_of (upload_folder Sample.calm "test" "p" ["w"]) versioned)
    = BLOB_OP_MAX_RETRIES
  ∧ store run.1 !! ("test", blob_name_of "p" ["v1.0"])
    = store versioned !! ("test", blob_name_of "p" ["v1.0"]).
Proof.
  apply (dotted_directory_is_tried_as_a_file Sample.calm "test" "p" "test" ["w"] ["v1.0"]
           versioned).
  - reflexivity.
  - exact versioned_names_ok.
  - discriminate.
  - by vm_compute.
  - by vm_compute.
Defined.

(** ** What a download does to the disk *)

Lemma mkdirs_keeps (rest base : path) (fs fs' : gmap path node) (q : path) (v : node) :
  Disk.mkdirs base rest fs = Some fs' → fs !! q = Some v → fs' !! q = Some v.
Proof.
  revert base fs. induction rest as [|c rest IH]; intros base fs Hm Hq; cbn [Disk.mkdirs] in Hm.
  { by simplify_eq. }
  case_decide; [by eapply IH|].
  destruct (fs !! (base ++ [c])) as [[|?]|] eqn:E; [by eapply IH|done|].
  eapply IH; [done|]. rewrite lookup_insert_ne; [done|]. congruence.
Qed.

Lemma normal_from_snoc (r base : path) (c : string) :
  c ≠ ".." → Path.normal_from base (r ++ [c]) = Path.normal_from base r ++ [c].
Proof.
  intros Hc. revert base. induction r as [|x r IH]; intros base; cbn [app Path.normal_from].
  - by rewrite decide_False.
  - case_decide; apply IH.
Qed.

(** Where a path opens is where its [..] steps lead. *)
Lemma locate_normal (rest base q : path) (fs : gmap path node) :
  Disk.locate base rest fs = Some q → q = Path.normal_from base rest.
Proof.
  revert base. induction rest as [|c rest IH]; intros base; cbn [Disk.locate Path.normal_from].
  { by intros [= <-]. }
  case_decide; [apply IH|]. destruct rest as [|c' rest]; [by intros [= <-]|].
  destruct (Disk.is_dir fs _); [apply IH|done].
Qed.

(** [mkdir -p] changes a path only by making a directory where nothing was,
    at a place the path leads through. *)
Lemma mkdirs_changes (rest base : path) (fs fs' : gmap path node) (q : path) :
  Disk.mkdirs base rest fs = Some fs' → fs' !! q ≠ fs !! q →
  q ≠ [] ∧ fs !! q = None ∧ fs' !! q = Some Dir
  ∧ ∃ r, r `prefix_of` rest ∧ q = Path.normal_from base r.
Proof.
  revert base fs. induction rest as [|c rest IH]; intros base fs Hm Hq; cbn [Disk.mkdirs] in Hm.
  { by simplify_eq. }
  assert (∀ base' fs1, Disk.mkdirs base' rest fs1 = Some fs' → fs' !! q ≠ fs1 !! q →
            Path.normal_from base [c] = base' →
            q ≠ [] ∧ fs1 !! q = None ∧ fs' !! q = Some Dir
            ∧ ∃ r, r `prefix_of` c :: rest ∧ q = Path.normal_from base r) as Hstep.
  { intros base' fs1 Hm1 Hq1 Hb. destruct (IH _ _ Hm1 Hq1) as (H0 & H1 & H2 & r & Hr & ->).
    split; [done|]. split; [done|]. split; [done|]. exists (c :: r).
    split; [by apply prefix_cons|]. rewrite <- Hb. cbn [Path.normal_from].
    by case_decide. }
  case_decide as Hc.
  - apply (Hstep _ _ Hm Hq). cbn [Path.normal_from]. by rewrite decide_True.
  - assert (Path.normal_from base [c] = base ++ [c]) as Hb.
    { cbn [Path.normal_from]. by rewrite decide_False. }
    destruct (fs !! (base ++ [c])) as [[|?]|] eqn:E; [by apply (Hstep _ _ Hm Hq)|done|].
    destruct (decide (q = base ++ [c])) as [->|Hne].
    + split; [by destruct base|]. split; [done|]. split.
      * eapply mkdirs_keeps; [done|]. by rewrite lookup_insert_eq.
      * exists [c]. split; [apply prefix_cons, prefix_nil|done].
    + destruct (Hstep _ _ Hm) as (H0 & H1 & H2 & Hr); [by rewrite lookup_insert_ne|done|].
      by rewrite lookup_insert_ne in H1.
Qed.

Lemma place_keeps_dir (fs : gmap path node) (t : path * option content) (q : path) :
  fs !! q = Some Dir → place fs t !! q = Some Dir.
Proof.
  intros Hq. unfold place. destruct (Disk.mkdir_p _ _) as [fs1|] eqn:Hm; [|done].
  pose proof (mkdirs_keeps _ _ _ _ _ _ Hm Hq) as Hq1.
  destruct (Disk.writable t.1 fs1) as [q'|] eqn:Hw; [|done].
  apply writable_Some in Hw as (_ & _ & Hnd & _).
  rewrite lookup_partial_alter_ne; [done|]. congruence.
Qed.

(** One download task changes a path in two ways only: it makes a directory
    where nothing was, on the way to its target, and it puts a file, or
    nothing, where its target opens. *)
Lemma place_changes (fs : gmap path node) (t : path * option content) (q : path) :
  place fs t !! q ≠ fs !! q →
  q ≠ [] ∧ fs !! q ≠ Some Dir
  ∧ ∃ r, r `prefix_of` t.1 ∧ q = Path.normal r
         ∧ ((fs !! q = None ∧ place fs t !! q = Some Dir) ∨ r = t.1).
Proof.
  intros Hch. split; [|split].
  - intros ->. revert Hch. unfold place. destruct (Disk.mkdir_p _ _) as [fs1|] eqn:Hm; [|done].
    assert (fs1 !! [] = fs !! []) as E.
    { destruct (decide (fs1 !! [] = fs !! (@nil string))) as [|Hne]; [done|].
      by destruct (mkdirs_changes _ _ _ _ _ Hm Hne) as (? & _). }
    destruct (Disk.writable t.1 fs1) as [q'|] eqn:Hw; [|done].
    apply writable_Some in Hw as (Hq' & _). by rewrite lookup_partial_alter_ne.
  - intros Hd. apply Hch. by rewrite Hd, (place_keeps_dir _ _ _ Hd).
  - revert Hch. unfold place. destruct (Disk.mkdir_p _ _) as [fs1|] eqn:Hm; [|done].
    assert (fs1 !! q ≠ fs !! q →
            ∃ r, r `prefix_of` t.1 ∧ q = Path.normal r
                 ∧ fs !! q = None ∧ fs1 !! q = Some Dir) as Hmk.
    { intros Hq. destruct (mkdirs_changes _ _ _ _ _ Hm Hq) as (_ & H1 & H2 & r & Hr & ->).
      exists r. split; [|done]. etrans; [exact Hr|apply parent_prefix]. }
    destruct (Disk.writable t.1 fs1) as [q'|] eqn:Hw.
    + apply writable_Some in Hw as (_ & _ & _ & Hl). apply locate_normal in Hl.
      destruct (decide (q = q')) as [->|Hne].
      * intros _. exists t.1. split; [done|]. split; [done|]. by right.
      * rewrite lookup_partial_alter_ne by done. intros Hq.
        destruct (Hmk Hq) as (r & ? & ? & ? & ?). exists r. split; [done|]. split; [done|].
        by left.
    + intros Hq. destruct (Hmk Hq) as (r & ? & ? & ? & ?). exists r. by eauto.
Qed.

Lemma fold_place_changes (tasks : list (path * option content)) (fs : gmap path node)
    (q : path) :
  (fs !! q = Some Dir → foldl place fs tasks !! q = Some Dir)
  ∧ (foldl place fs tasks !! q ≠ fs !! q →
     q ≠ [] ∧ fs !! q ≠ Some Dir
     ∧ ∃ t r, t ∈ tasks ∧ r `prefix_of` t.1 ∧ q = Path.normal r
              ∧ ((fs !! q = None ∧ foldl place fs tasks !! q = Some Dir) ∨ r = t.1)).
Proof.
  revert fs. induction tasks as [|t tasks IH]; intros fs; cbn [foldl]; [done|].
  destruct (IH (place fs t)) as (I2 & I4). split.
  { intros Hd. by apply I2, place_keeps_dir. }
  destruct (decide (place fs t !! q = fs !! q)) as [E|Hch].
  - rewrite E in I4. intros Hq. destruct (I4 Hq) as (? & ? & t' & r & Ht' & Hr & ? & ?).
    split; [done|]. split; [done|]. exists t', r. split; [by right|done].
  - intros _. destruct (place_changes _ _ _ Hch) as (Hne & Hnd & r & Hr & Hq & Hcase).
    split; [done|]. split; [done|]. exists t, r. split; [by left|]. split; [done|].
    split; [done|]. destruct Hcase as [[H1 H2]|H]; [left|by right].
    split; [done|]. by apply I2.
Qed.

(** A regular file that no task's target opens at stays a regular file. *)
Lemma fold_place_keeps_file (tasks : list (path * option content)) (fs : gmap path node)
    (q : path) (c : content) :
  fs !! q = Some (File c) →
  (∀ t, t ∈ tasks → Path.normal t.1 ≠ q) →
  foldl place fs tasks !! q = Some (File c).
Proof.
  intros Hf Hno. destruct (fold_place_changes tasks fs q) as [_ H4].
  destruct (decide (foldl place fs tasks !! q = fs !! q)) as [E|Hch]; [by rewrite E|].
  destruct (H4 Hch) as (_ & _ & t & r & Ht & _ & Hq & [[Hnone _]| ->]); [congruence|].
  by destruct (Hno t Ht).
Qed.

(** X9: [download_folder] leaves every directory a directory, and changes
    a path only where a listed blob's target leads: it makes directories
    where nothing was, on the way to a target, and it puts a file, or
    nothing, at the place where a target opens, which is the target with
    its [..] steps taken.  What a target opens at can be outside
    [local_folder], and a file that was there can be gone afterwards. *)
Theorem download_folder_changes_only_targets (e : env) (bucket_name remote_path : string)
    (local_folder : path) (w : world) (q : path) :
  let run := download_folder e bucket_name remote_path local_folder w in
  (disk w !! q = Some Dir → disk run.1 !! q = Some Dir)
  ∧ (disk run.1 !! q ≠ disk w !! q →
     q ≠ [] ∧ disk w !! q ≠ Some Dir
     ∧ ∃ b name r, bucket_of e bucket_name = Some b
         ∧ name ∈ blob_names b remote_path (store w)
         ∧ r `prefix_of` download_target remote_path local_folder name
         ∧ q = Path.normal r
         ∧ ((disk w !! q = None ∧ disk run.1 !! q = Some Dir)
            ∨ r = download_target remote_path local_folder name)).
Proof.
  intros run. subst run. destruct (bucket_of e bucket_name) as [b|] eqn:Hb.
  2: { rewrite download_folder_no_bucket by done. cbn [fst]. done. }
  destruct (download_folder_run e bucket_name remote_path b local_folder w Hb)
    as (_ & -> & _).
  destruct (fold_place_changes
              (download_task e b remote_path local_folder (store w)
                 <$> blob_names b remote_path (store w)) (disk w) q) as (H2 & H4).
  split; [done|].
  intros Hq.
  destruct (H4 Hq) as (? & ? & t & r & (name & Hname & ->)%download_tasks_elem & Hp & ? & ?).
  split; [done|]. split; [done|]. by exists b, name, r.
Qed.

Lemma download_folder_changes_only_targets_witness :
  let run := download_folder Sample.calm "test" "p" ["v"; "out"] escaping in
  download_target "p" ["v"; "out"] "p/../x.csv" = ["v"; "out"; ".."; "x.csv"]
  ∧ disk run.1 !! ["v"; "x.csv"] = Some (File (Sample.bytes "x"))
  ∧ disk run.1 !! ["v"; "out"; ".."; "x.csv"] = None
  ∧ ∃ b name r, bucket_of Sample.calm "test" = Some b
       ∧ name ∈ blob_names b "p" (store escaping)
       ∧ r `prefix_of` download_target "p" ["v"; "out"] name
       ∧ ["v"; "x.csv"] = Path.normal r
       ∧ ((disk escaping !! ["v"; "x.csv"] = None ∧ disk run.1 !! ["v"; "x.csv"] = Some Dir)
          ∨ r = download_target "p" ["v"; "out"] name).
Proof.
  split; [by vm_compute|]. split; [by vm_compute|]. split; [by vm_compute|].
  destruct (download_folder_changes_only_targets Sample.calm "test" "p" ["v"; "out"] escaping
              ["v"; "x.csv"]) as (_ & H4).
  apply H4. intros H. vm_compute in H. discriminate H.
Defined.

(** ** What makes [download_folder] raise *)

Lemma thread_map_raises {A B} (f : A → M B) (l1 l2 : list A) (x : A) (ex : exn) (w : world) :
  (f x (thread_map f l1 w).1).2 = Raise ex →
  ∃ ex', (thread_map f (l1 ++ x :: l2) w).2 = Raise ex'.
Proof.
  revert w. induction l1 as [|y l1 IH]; intros w Hx; cbn [thread_map app fst] in *.
  - change (f x w).2 with (f x w).2 in Hx. unfold ret in Hx. cbn [fst] in Hx.
    destruct (f x w) as [w1 r]. cbn [snd] in Hx. subst r.
    destruct (thread_map f l2 w1) as [w2 rs]. by exists ex.
  - destruct (f y w) as [w1 r]. destruct (thread_map f l1 w1) as [w2 rs] eqn:E1.
    cbn [fst] in Hx. specialize (IH w1). rewrite E1 in IH. destruct (IH Hx) as [ex' IH'].
    destruct (thread_map f (l1 ++ x :: l2) w1) as [w3 rs']. cbn [snd] in *. subst rs'.
    destruct r; by eexists.
Qed.

Lemma thread_map_raise_from {A B} (f : A → M B) (xs : list A) (ex : exn) (w : world) :
  (thread_map f xs w).2 = Raise ex →
  ∃ x w', x ∈ xs ∧ (f x w').2 = Raise ex.
Proof.
  revert w. induction xs as [|x xs IH]; intros w; cbn [thread_map]; [done|].
  destruct (f x w) as [w1 r] eqn:E. specialize (IH w1).
  destruct (thread_map f xs w1) as [w2 rs]. cbn [snd] in *.
  destruct r as [b|ex1].
  - destruct rs as [bs|ex2]; [done|]. intros [= ->].
    destruct (IH eq_refl) as (y & w' & Hy & Hr). exists y, w'. split; [by right|done].
  - intros [= ->]. exists x, w. split; [by left|]. by rewrite E.
Qed.

(** X10: the directories of a download are made outside the [try], so a
    regular file standing where one of them is needed makes
    [download_folder] raise OSError, whereas a failed transfer does not.
    The file is reached without [..] steps, and it is not itself where a
    listed blob is downloaded to, so that no download replaces or removes
    it first. *)
Theorem download_folder_raises_when_a_file_is_in_the_way (e : env)
    (bucket_name remote_path b name : string) (local_folder : path) (w : world)
    (q : path) (c : content) :
  bucket_of e bucket_name = Some b →
  name ∈ blob_names b remote_path (store w) →
  q ≠ [] → ".." ∉ q →
  q `prefix_of` Path.parent (download_target remote_path local_folder name) →
  disk w !! q = Some (File c) →
  (∀ n, n ∈ blob_names b remote_path (store w) →
        Path.normal (download_target remote_path local_folder n) ≠ q) →
  (download_folder e bucket_name remote_path local_folder w).2 = Raise OSError.
Proof.
  intros Hb Hname Hq Hplain Hp Hf Hno.
  apply list_elem_of_split in Hname as (l1 & l2 & E).
  set (w0 := emit (EvListBlobs b remote_path) w).
  set (f := _download_blob e b remote_path local_folder).
  assert ((f name (thread_map f l1 w0).1).2 = Raise OSError) as Hraise.
  { unfold f.
    destruct (download_blob_run e b remote_path local_folder name
                (thread_map (_download_blob e b remote_path local_folder) l1 w0).1)
      as (_ & _ & ->).
    rewrite thread_map_world.
    destruct (download_tasks_fold e b remote_path local_folder l1 w0) as [_ ->].
    assert (foldl place (disk w0)
              (download_task e b remote_path local_folder (store w0) <$> l1) !! q
            = Some (File c)) as Hc'.
    { apply fold_place_keeps_file; [done|].
      intros t (n & Hn & ->)%download_tasks_elem. cbn [download_task fst].
      apply Hno. rewrite E. apply elem_of_app. by left. }
    unfold Disk.mkdir_p. by rewrite (mkdirs_blocked _ [] q c _ Hplain Hq Hp Hc'). }
  destruct (thread_map_raises f l1 l2 name OSError w0 Hraise) as [ex Hex].
  assert (ex = OSError) as ->.
  { apply thread_map_raise_from in Hex as (x & w' & _ & Hx). unfold f in Hx.
    destruct (download_blob_run e b remote_path local_folder x w') as (_ & _ & Hr).
    rewrite Hr in Hx. by destruct (Disk.mkdir_p _ _); simplify_eq. }
  unfold download_folder.
  rewrite (bind_ok _ _ _ _ _ (get_storage_bucket_run e _ b w Hb)).
  unfold bind at 1. unfold list_blobs at 1. fold w0. rewrite E.
  unfold bind. fold f. destruct (thread_map f (l1 ++ name :: l2) w0) as [w1 r].
  cbn [snd] in Hex. by subst r.
Qed.

Lemma download_folder_raises_when_a_file_is_in_the_way_witness :
  (download_folder Sample.calm "test" "p" ["v"; "out"] blocked).2 = Raise OSError.
Proof.
  apply (download_folder_raises_when_a_file_is_in_the_way Sample.calm "test" "p" "test"
           "p/a.csv" ["v"; "out"] blocked ["v"] (Sample.bytes "not a folder")).
  - reflexivity.
  - apply elem_of_blob_names. split; [by vm_compute; eexists|by vm_compute].
  - discriminate.
  - apply (bool_decide_unpack _). by vm_compute.
  - by exists ["out"].
  - by vm_compute.
  - assert (blob_names "test" "p" (store blocked) = ["p/a.csv"]) as -> by (by vm_compute).
    intros n ->%list_elem_of_singleton. by vm_compute.
Defined.

(** ** The manifest as a function of the cached names *)

Lemma sorted_permutation (l l' : list string) : l ≡ₚ l' → Py.sorted l = Py.sorted l'.
Proof.
  intros Hp. apply (StronglySorted_unique_strong String.le).
  - intros x y _ _ H1%Is_true_true H2%Is_true_true. by apply String.leb_antisym.
  - apply sorted_sorted.
  - apply sorted_sorted.
  - by rewrite !sorted_perm.
Qed.

Lemma blob_names_same (b prefix : string) (st st' : gmap (string * string) content) :
  (∀ name, Py.startswith prefix name = true →
           (is_Some (st !! (b, name)) ↔ is_Some (st' !! (b, name)))) →
  blob_names b prefix st = blob_names b prefix st'.
Proof.
  intros Hsame. apply (StronglySorted_unique_strong String.le).
  - intros x y _ _ H1%Is_true_true H2%Is_true_true. by apply String.leb_antisym.
  - apply sorted_sorted.
  - apply sorted_sorted.
  - apply NoDup_Permutation; [apply NoDup_blob_names..|].
    intros name. rewrite !elem_of_blob_names. split; intros [Hs Hp]; (split; [|done]).
    + by apply Hsame.
    + by apply Hsame.
Qed.

(** X11: the manifest depends on the set of cached names only.  Listing the
    same names in another order gives the same manifest, and so does a
    bucket that holds other bytes under the same names. *)
Theorem manifest_depends_on_names_only (e : env) (b : string) (w w' : world)
    (names names' : list string) :
  (names ≡ₚ names' → build_sitemap names = build_sitemap names')
  ∧ (bucket_of e (GCS_BUCKET_TEST e) = Some b →
     (∀ name, Py.startswith "cache" name = true →
              (is_Some (store w !! (b, name)) ↔ is_Some (store w' !! (b, name)))) →
     (cache_build_map e w).2 = (cache_build_map e w').2).
Proof.
  split.
  - intros Hp. apply map_eq. intros key. rewrite !build_sitemap_lookup.
    assert (filed_under key names ≡ₚ filed_under key names') as Hf.
    { unfold filed_under. by rewrite Hp. }
    destruct (filed_under key names) as [|x g] eqn:E1.
    { apply Permutation.Permutation_nil in Hf. by rewrite Hf. }
    destruct (filed_under key names') as [|y g'] eqn:E2.
    { symmetry in Hf. by apply Permutation.Permutation_nil in Hf. }
    f_equal. by apply sorted_permutation.
  - intros Hb Hsame. rewrite !(cache_build_map_run e b) by done. cbn [snd].
    by rewrite (blob_names_same b "cache" (store w) (store w')).
Qed.

Lemma manifest_depends_on_names_only_witness :
  build_sitemap ["cache/13/a.csv"; "cache/12/a.csv"; "cache/12/b.csv"]
  = build_sitemap ["cache/12/b.csv"; "cache/12/a.csv"; "cache/13/a.csv"]
  ∧ (cache_build_map Sample.calm Sample.cached).2
    = (cache_build_map Sample.calm cached_rewritten).2.
Proof.
  destruct (manifest_depends_on_names_only Sample.calm "test" Sample.cached cached_rewritten
              ["cache/13/a.csv"; "cache/12/a.csv"; "cache/12/b.csv"]
              ["cache/12/b.csv"; "cache/12/a.csv"; "cache/13/a.csv"]) as [H1 H2].
  split.
  - apply H1. etrans; [apply perm_skip, perm_swap|]. etrans; [apply perm_swap|].
    apply perm_skip, perm_swap.
  - apply H2; [reflexivity|]. clear H1 H2. intros name _.
    split; intros [v Hv]; entries Hv; simplify_eq;
      apply (bool_decide_unpack _); vm_compute; exact I.
Defined.

(** ** What the stages do to the bucket *)

Section Preserves.
Context (R : world → world → Prop).
Context (R_store : ∀ w w', store w' = store w → R w w').
Context (R_trans : ∀ w1 w2 w3, R w1 w2 → R w2 w3 → R w1 w3).

Lemma preserves_quiet {A} (m : M A) : preserves same_store m → preserves R m.
Proof. intros H w. apply R_store, H. Qed.

Lemma preserves_bind {A B} (m : M A) (k : A → M B) :
  preserves R m → (∀ a, preserves R (k a)) → preserves R (bind m k).
Proof.
  intros Hm Hk w. unfold bind. specialize (Hm w).
  destruct (m w) as [w' [a|ex]]; [|done]. eapply R_trans; [exact Hm|apply Hk].
Qed.



Lemma preserves_with_TemporaryDirectory {A} (e : env) (body : path → M A) :
  preserves R (body (workspace e)) → preserves R (with_TemporaryDirectory e body).
Proof.
  intros Hb w. unfold with_TemporaryDirectory. fold (workspace e).
  set (w0 := emit _ (set_disk _ w)). specialize (Hb w0).
  destruct (body (workspace e) w0) as [w1 r]. cbn [fst] in *.
  eapply R_trans; [by apply (R_store w w0)|].
  eapply R_trans; [exact Hb|]. by apply R_store.
Qed.
End Preserves.

Lemma quiet_ret {A} (a : A) : preserves same_store (ret a).
Proof. by intros w. Qed.

Lemma quiet_raise {A} (ex : exn) : preserves same_store (raise (A:=A) ex).
Proof. by intros w. Qed.

Lemma quiet_tell (ev : event) : preserves same_store (tell ev).
Proof. by intros w. Qed.

Lemma quiet_bind {A B} (m : M A) (k : A → M B) :
  preserves same_store m → (∀ a, preserves same_store (k a)) →
  preserves same_store (bind m k).
Proof.
  apply preserves_bind. unfold same_store. intros w1 w2 w3 H1 H2. congruence.
Qed.

Lemma quiet_mkdir_parents (p : path) : preserves same_store (mkdir_parents p).
Proof.
  apply quiet_bind; [apply quiet_tell|]. intros _ w. unfold same_store.
  by destruct (Disk.mkdir_p _ _).
Qed.

Lemma quiet_lift_disk {A} (f : gmap path node → gmap path node * result A) :
  preserves same_store (lift_disk f).
Proof. intros w. unfold same_store, lift_disk. by destruct (f _). Qed.

Lemma quiet_lift_result {A} (r : result A) : preserves same_store (lift_result r).
Proof. by intros w. Qed.

Lemma quiet_assert_known_table (e : env) (tn : option string) :
  preserves same_store (assert_known_table e tn).
Proof.
  intros w. unfold same_store, assert_known_table.
  destruct tn as [name|]; [|done]. unfold bind, py_assert.
  by destruct (bool_decide _).
Qed.

Lemma quiet_get_storage_bucket (e : env) (bucket_name : string) :
  preserves same_store (get_storage_bucket e bucket_name).
Proof. intros w. unfold same_store, get_storage_bucket. by destruct (Py.or_str _ _). Qed.

Lemma quiet_download_folder (e : env) (bucket_name remote_path : string)
    (local_folder : path) :
  preserves same_store (download_folder e bucket_name remote_path local_folder).
Proof.
  intros w. unfold same_store. destruct (bucket_of e bucket_name) as [b|] eqn:Hb.
  - by destruct (download_folder_run e bucket_name remote_path b local_folder w Hb) as (? & _).
  - by rewrite download_folder_no_bucket.
Qed.

Lemma quiet_cache_build_map (e : env) : preserves same_store (cache_build_map e).
Proof.
  apply quiet_bind; [apply quiet_get_storage_bucket|]. intros b.
  apply quiet_bind; [by intros w|]. intros blobs. apply quiet_ret.
Qed.


Ltac quiet_trivially :=
  repeat first
    [ apply quiet_ret | apply quiet_raise | apply quiet_tell | apply quiet_lift_disk
    | apply quiet_lift_result | apply quiet_assert_known_table | apply quiet_mkdir_parents
    | apply quiet_get_storage_bucket | apply quiet_download_folder
    | apply quiet_cache_build_map
    | (apply quiet_bind; [|intros ?]) ].

Lemma writes_only_same (Q : string * string → Prop) (w w' : world) :
  store w' = store w → writes_only Q w w'.
Proof. intros E. split; intros k; rewrite E; done. Qed.

Lemma writes_only_trans (Q : string * string → Prop) (w1 w2 w3 : world) :
  writes_only Q w1 w2 → writes_only Q w2 w3 → writes_only Q w1 w3.
Proof.
  intros [K1 C1] [K2 C2]. split; [intros k Hk; by apply K2, K1|].
  intros k Hk. destruct (decide (store w2 !! k = store w1 !! k)) as [E|Hne].
  - apply C2. by rewrite E.
  - by apply C1.
Qed.

Lemma writes_only_weaken (Q Q' : string * string → Prop) (w w' : world) :
  (∀ k, Q k → Q' k) → writes_only Q w w' → writes_only Q' w w'.
Proof. intros HQ [K C]. split; [done|]. intros k Hk. by apply HQ, C. Qed.

Lemma upload_folder_keeps (e : env) (bucket_name remote_path : string)
    (local_folder : path) (w : world) (k : string * string) :
  is_Some (store w !! k) →
  is_Some (store (upload_folder e bucket_name remote_path local_folder w).1 !! k).
Proof.
  intros Hk. destruct (bucket_of e bucket_name) as [b|] eqn:Hb.
  - destruct (upload_folder_run e bucket_name remote_path b local_folder w Hb) as (_ & _ & ->).
    rewrite upload_fold_write_step. by apply fold_writes_keeps.
  - by rewrite upload_folder_no_bucket.
Qed.

(** The blobs [upload_folder] writes: in the resolved bucket, named after a
    relative path below the folder. *)
Lemma upload_folder_writes_only (e : env) (bucket_name remote_path : string)
    (local_folder : path) :
  preserves (writes_only (λ k, ∃ b rel, bucket_of e bucket_name = Some b ∧ rel ≠ []
                                         ∧ k = (b, blob_name_of remote_path rel)))
            (upload_folder e bucket_name remote_path local_folder).
Proof.
  intros w. split; [intros k; apply upload_folder_keeps|].
  intros k (b & rel & data & Hb & Hne & _ & _ & -> & _)%upload_folder_changes.
  by exists b, rel.
Qed.


Section StageWrites.
Context (Q : string * string → Prop).

Lemma stage_quiet {A} (m : M A) : preserves same_store m → preserves (writes_only Q) m.
Proof. apply preserves_quiet. apply writes_only_same. Qed.

Lemma stage_bind {A B} (m : M A) (k : A → M B) :
  preserves (writes_only Q) m → (∀ a, preserves (writes_only Q) (k a)) →
  preserves (writes_only Q) (bind m k).
Proof. apply preserves_bind. apply writes_only_trans. Qed.

Lemma stage_with_TemporaryDirectory {A} (e : env) (body : path → M A) :
  preserves (writes_only Q) (body (workspace e)) →
  preserves (writes_only Q) (with_TemporaryDirectory e body).
Proof.
  apply preserves_with_TemporaryDirectory; [apply writes_only_same|apply writes_only_trans].
Qed.

Lemma stage_upload_folder (e : env) (bucket_name remote_path : string) (local_folder : path) :
  (∀ b rel, bucket_of e bucket_name = Some b → rel ≠ [] →
            Q (b, blob_name_of remote_path rel)) →
  preserves (writes_only Q) (upload_folder e bucket_name remote_path local_folder).
Proof.
  intros HQ w. eapply writes_only_weaken; [|apply upload_folder_writes_only].
  intros k (b & rel & Hb & Hne & ->). by apply HQ.
Qed.
End StageWrites.

Ltac stage_trivially :=
  repeat first
    [ (apply stage_quiet; solve [quiet_trivially])
    | (apply stage_bind; [|intros ?]) ].


Lemma blob_name_of_root (rel : path) : rel ≠ [] → blob_name_of "" rel = Py.join "/" rel.
Proof.
  intros Hne. unfold blob_name_of, os_path_join.
  assert (Path.str rel = Py.join "/" rel) as -> by by destruct rel.
  by destruct (Py.startswith "/" (Py.join "/" rel)).
Qed.


(** ** Exceptions and the bucket *)

Lemma rbw_quiet {A} (m : M A) : preserves same_store m → raises_before_writing m.
Proof. intros H w ex _. apply H. Qed.

Lemma rbw_bind {A B} (m : M A) (k : A → M B) :
  preserves same_store m → (∀ a, raises_before_writing (k a)) →
  raises_before_writing (bind m k).
Proof.
  intros Hm Hk w ex. unfold bind. specialize (Hm w). unfold same_store in Hm.
  destruct (m w) as [w' [a|ex']]; cbn [fst snd] in *.
  - intros H. by rewrite (Hk a w' ex H).
  - done.
Qed.

Lemma rbw_with_TemporaryDirectory {A} (e : env) (body : path → M A) :
  raises_before_writing (body (workspace e)) →
  raises_before_writing (with_TemporaryDirectory e body).
Proof.
  intros Hb w ex. unfold with_TemporaryDirectory. fold (workspace e).
  set (w0 := emit _ (set_disk _ w)). specialize (Hb w0 ex).
  destruct (body (workspace e) w0) as [w1 r]. cbn [fst snd emit set_disk store] in *.
  intros ->. by rewrite Hb.
Qed.

(** Once the bucket resolves, [upload_folder] does not raise; when it does
    not resolve, nothing has been written. *)
Lemma rbw_upload_folder_then {A} (e : env) (bucket_name remote_path : string)
    (local_folder : path) (k : M A) :
  (is_Some (bucket_of e bucket_name) → ∀ w, ∃ a, (k w).2 = Ok a) →
  raises_before_writing (upload_folder e bucket_name remote_path local_folder;; k).
Proof.
  intros Hk w ex. unfold bind. destruct (bucket_of e bucket_name) as [b|] eqn:Hb.
  - destruct (upload_folder_run e bucket_name remote_path b local_folder w Hb) as (Hok & _).
    destruct (upload_folder e bucket_name remote_path local_folder w) as [w1 r].
    cbn [snd] in Hok. subst r.
    assert (∀ w, ∃ a, (k w).2 = Ok a) as Hk' by (apply Hk; by eexists).
    destruct (Hk' w1) as [a Ha]. by rewrite Ha.
  - by rewrite upload_folder_no_bucket.
Qed.

Lemma upload_folder_then_ok (e : env) (bucket_name remote_path : string)
    (local_folder : path) (s : string) (w : world) :
  is_Some (bucket_of e bucket_name) →
  ∃ a, ((upload_folder e bucket_name remote_path local_folder;; ret s) w).2 = Ok a.
Proof.
  intros [b Hb]. unfold bind.
  destruct (upload_folder_run e bucket_name remote_path b local_folder w Hb) as (Hok & _).
  destruct (upload_folder e bucket_name remote_path local_folder w) as [w1 r].
  cbn [snd] in Hok. subst r. by eexists.
Qed.

Ltac rbw_prefix :=
  repeat (apply rbw_bind; [solve [quiet_trivially]|]; intros ?).

(** X14: [update_table], [combine_table] and [publish] upload last.  When
    one of them raises, be it the assertion, the temporary folders, the
    download or the pipeline that fails, no blob has been written. *)
Theorem stages_raise_before_writing
    (publish_tables : path → path → gmap path node → gmap path node * result unit)
    (e : env) (table_name : option string) (idx : option Z) (w : world) (ex : exn) :
  ((update_table e table_name idx w).2 = Raise ex →
   store (update_table e table_name idx w).1 = store w)
  ∧ ((combine_table e table_name w).2 = Raise ex →
     store (combine_table e table_name w).1 = store w)
  ∧ ((publish publish_tables e w).2 = Raise ex →
     store (publish publish_tables e w).1 = store w).
Proof.
  split; [|split].
  - revert w ex. change (raises_before_writing (update_table e table_name idx)).
    unfold update_table. rbw_prefix. apply rbw_with_TemporaryDirectory.
    rbw_prefix. apply rbw_bind.
    { destruct (effective_idx e idx); [|apply quiet_ret].
      destruct (py_index _ _); [apply quiet_ret|apply quiet_raise]. }
    intros ?. rbw_prefix.
    apply rbw_upload_folder_then. intros Hb w. by apply upload_folder_then_ok.
  - revert w ex. change (raises_before_writing (combine_table e table_name)).
    unfold combine_table. rbw_prefix. apply rbw_with_TemporaryDirectory.
    rbw_prefix. apply rbw_bind; [by intros ?|]. intros ?. rbw_prefix.
    apply rbw_upload_folder_then. intros _ w. by eexists.
  - revert w ex. change (raises_before_writing (publish publish_tables e)).
    unfold publish. apply rbw_with_TemporaryDirectory. rbw_prefix.
    apply rbw_upload_folder_then. intros _ w. by eexists.
Qed.

Lemma stages_raise_before_writing_witness :
  store (update_table Sample.calm (Some "by-age") (Some 2%Z) Sample.cached).1
  = store Sample.cached.
Proof.
  destruct (stages_raise_before_writing copy_tables Sample.calm (Some "by-age") (Some 2%Z)
              Sample.cached IndexError) as [H _].
  apply H. clear H. vm_compute. reflexivity.
Defined.

(** ** The temporary directory of a stage *)

Lemma with_TemporaryDirectory_removes {A} (e : env) (body : path → M A) (w : world)
    (rel : path) :
  disk (with_TemporaryDirectory e body w).1 !! (workspace e ++ rel) = None.
Proof.
  unfold with_TemporaryDirectory. fold (workspace e).
  destruct (body _ _) as [w1 r]. cbn [fst emit set_disk disk]. apply rmtree_lookup.
Qed.

Lemma with_TemporaryDirectory_last {A} (e : env) (body : path → M A) (w : world) :
  ∃ evs, trace (with_TemporaryDirectory e body w).1 = evs ++ [EvCleanup (workspace e)].
Proof.
  unfold with_TemporaryDirectory. fold (workspace e).
  destruct (body _ _) as [w1 r]. cbn [fst emit set_disk trace]. by eexists.
Qed.

(** X15: a stage that has entered its [with TemporaryDirectory()] block
    leaves nothing of the directory behind, whether it returns or raises:
    after the run no path at or below the workspace is on the disk, and the
    removal is the last thing the run does. *)
Theorem workspace_is_removed_on_every_exit
    (publish_tables : path → path → gmap path node → gmap path node * result unit)
    (e : env) (table_name : option string) (idx : option Z) (w : world) :
  let gone (w' : world) :=
    (∀ rel, disk w' !! (workspace e ++ rel) = None)
    ∧ ∃ evs, trace w' = evs ++ [EvCleanup (workspace e)] in
  gone (cache_pull e w).1
  ∧ gone (publish publish_tables e w).1
  ∧ (∀ name, effective_table_name e table_name = Some name → name ∈ get_table_names e →
       gone (update_table e table_name idx w).1 ∧ gone (combine_table e table_name w).1).
Proof.
  intros gone. subst gone. cbn beta.
  split; [|split].
  - split; [intros rel; apply with_TemporaryDirectory_removes|].
    apply with_TemporaryDirectory_last.
  - split; [intros rel; apply with_TemporaryDirectory_removes|].
    apply with_TemporaryDirectory_last.
  - intros name Hname Hknown. unfold update_table, combine_table. rewrite Hname.
    rewrite !(bind_ok _ _ _ _ _ (assert_known_table_pass e name w Hknown)).
    split; (split; [intros rel; apply with_TemporaryDirectory_removes|]);
      apply with_TemporaryDirectory_last.
Qed.

Lemma workspace_is_removed_on_every_exit_witness :
  ((∀ rel, disk (update_table Sample.calm (Some "by-age") (Some 2%Z) blank).1
             !! (workspace Sample.calm ++ rel) = None)
   ∧ ∃ evs, trace (update_table Sample.calm (Some "by-age") (Some 2%Z) blank).1
            = evs ++ [EvCleanup (workspace Sample.calm)])
  ∧ ((∀ rel, disk (combine_table Sample.calm (Some "by-age") blank).1
               !! (workspace Sample.calm ++ rel) = None)
     ∧ ∃ evs, trace (combine_table Sample.calm (Some "by-age") blank).1
              = evs ++ [EvCleanup (workspace Sample.calm)]).
Proof.
  destruct (workspace_is_removed_on_every_exit copy_tables Sample.calm (Some "by-age")
              (Some 2%Z) blank) as (_ & _ & H).
  apply (H "by-age"); [reflexivity|]. clear H.
  apply (bool_decide_unpack _). vm_compute. exact I.
Defined.

(** ** [cache_pull] when the manifest cannot be written *)

Lemma pull_source_ok (e : env) (output_folder : path) (src : cache_source) (w : world) :
  (_pull_source e output_folder src w).2 = Ok tt.
Proof.
  unfold _pull_source, bind, tell.
  destruct (net_download e (url src)); [|done]. by destruct (Disk.write_file _ _ _).
Qed.

Lemma bind_raise {A B} (m : M A) (k : A → M B) (w w' : world) (ex : exn) :
  m w = (w', Raise ex) → bind m k w = (w', Raise ex).
Proof. intros H. unfold bind. by rewrite H. Qed.

Lemma mkdir_parents_raises (p : path) (w w' : world) (ex : exn) :
  mkdir_parents p w = (w', Raise ex) → ex = OSError.
Proof.
  unfold mkdir_parents, bind, tell. destruct (Disk.mkdir_p _ _); by intros [= _ <-].
Qed.

(** X16: the upload of the manifest is outside any [try].  When the store
    refuses it, [cache_pull] raises instead of returning OK, although the
    files it fetched are in the bucket by then. *)
Theorem cache_pull_raises_when_manifest_upload_fails (e : env) (b : string) (w : world) :
  bucket_of e (GCS_BUCKET_TEST e) = Some b →
  upload_string_ok e b "cache/sitemap.json" = false →
  let run := cache_pull e w in
  (run.2 = Raise StoreError ∨ run.2 = Raise OSError)
  ∧ (run.2 = Raise StoreError →
     store run.1
     = store (upload_folder e (GCS_BUCKET_TEST e) "cache" (workspace e) (after_pulls e w)).1).
Proof.
  intros Hb Hno run. subst run.
  unfold cache_pull, with_TemporaryDirectory, after_pulls. fold (workspace e).
  set (w0 := emit (EvMkdtemp (workspace e)) (set_disk (<[workspace e := Dir]> (disk w)) w)).
  set (out := Path.div (workspace e) (utcnow_stamp e)).
  destruct (mkdir_parents out w0) as [wm [[]|ex]] eqn:Hm.
  - rewrite (bind_ok _ _ _ _ _ Hm). cbn [fst].
    destruct (thread_map_ok (_pull_source e out) (cache_config e) wm) as [bs Hbs].
    { intros src w' _. apply pull_source_ok. }
    rewrite (bind_ok _ _ _ _ _ (run_pair _ _ _ Hbs)).
    set (wp := (thread_map (_pull_source e out) (cache_config e) wm).1).
    destruct (upload_folder_run e (GCS_BUCKET_TEST e) "cache" b (workspace e) wp Hb)
      as (Hup & _ & _).
    rewrite (bind_ok _ _ _ _ _ (run_pair _ _ _ Hup)).
    rewrite (bind_ok _ _ _ _ _ (cache_build_map_run e b _ Hb)).
    rewrite (bind_ok _ _ _ _ _ (get_storage_bucket_run e _ b _ Hb)).
    unfold upload_from_string, bind, tell. rewrite Hno.
    cbn [fst snd emit set_disk store]. split; [left; reflexivity|intros _; reflexivity].
  - apply mkdir_parents_raises in Hm as Hex. subst ex.
    rewrite (bind_raise _ _ _ _ _ Hm). cbn [fst snd]. split; [right; reflexivity|discriminate].
Qed.

Lemma cache_pull_raises_when_manifest_upload_fails_witness :
  (cache_pull manifest_refused earlier_cache).2 = Raise StoreError
  ∨ (cache_pull manifest_refused earlier_cache).2 = Raise OSError.
Proof.
  exact (proj1 (cache_pull_raises_when_manifest_upload_fails manifest_refused "test"
                  earlier_cache eq_refl eq_refl)).
Defined.

(** ** [update_table] with an index out of range *)

Lemma mkdir_parents_run (p : path) (w : world) :
  ".." ∉ p →
  (∀ q c, q ≠ [] → q `prefix_of` p → disk w !! q ≠ Some (File c)) →
  ∃ fs', mkdir_parents p w = (set_disk fs' (emit (EvMkdir p) w), Ok tt)
    ∧ (∀ q, q ≠ [] → q `prefix_of` p → fs' !! q = Some Dir)
    ∧ (∀ q, ¬ (q ≠ [] ∧ q `prefix_of` p) → fs' !! q = disk w !! q).
Proof.
  intros Hp H. destruct (mkdir_p_spec p (disk w) Hp H) as (fs' & Hm & Ha & Hb).
  exists fs'. split; [|done]. unfold mkdir_parents. rewrite bind_tell.
  cbn [emit disk]. by rewrite Hm.
Qed.

Lemma workspace_nonempty (e : env) : workspace e ≠ [].
Proof. unfold workspace. by destruct (gettempdir e). Qed.

(** The two folders a stage makes in its fresh workspace. *)
Lemma stage_folders (e : env) (w : world) (sub1 sub2 : string) :
  sub1 ≠ ".." → sub2 ≠ ".." →
  workspace_free e w →
  let ws := workspace e in
  let w0 := emit (EvMkdtemp ws) (set_disk (<[ws := Dir]> (disk w)) w) in
  ∃ fs1 fs2,
    mkdir_parents (ws ++ [sub1]) w0 = (set_disk fs1 (emit (EvMkdir (ws ++ [sub1])) w0), Ok tt)
    ∧ mkdir_parents (ws ++ [sub2]) (set_disk fs1 (emit (EvMkdir (ws ++ [sub1])) w0))
      = (set_disk fs2 (emit (EvMkdir (ws ++ [sub2]))
                         (set_disk fs1 (emit (EvMkdir (ws ++ [sub1])) w0))), Ok tt)
    ∧ (∀ q, q ≠ [] → q `prefix_of` ws ++ [sub1] ∨ q `prefix_of` ws ++ [sub2] →
            fs2 !! q = Some Dir)
    ∧ (∀ q, ¬ q `prefix_of` ws ++ [sub1] → ¬ q `prefix_of` ws ++ [sub2] →
            fs2 !! q = disk w !! q).
Proof.
  intros Hsub1 Hsub2 (Hfresh & Hway & Hnames) ws w0.
  assert (∀ sub, sub ≠ ".." → ".." ∉ ws ++ [sub]) as Hplain.
  { intros sub Hsub [Hin|Hin%list_elem_of_singleton]%elem_of_app; [|done].
    by apply (valid_names_plain _ Hnames). }
  assert (∀ sub q c, q ≠ [] → q `prefix_of` ws ++ [sub] → disk w0 !! q ≠ Some (File c)) as H0.
  { intros sub q c Hq Hp. subst w0. cbn [emit set_disk disk].
    destruct (decide (q = ws)) as [->|Hne]; [by rewrite lookup_insert_eq|].
    rewrite lookup_insert_ne by done.
    destruct (prefix_of_app_cases _ _ _ Hp) as [Hp'|(r & Hr & -> & _)].
    - by apply Hway.
    - by rewrite Hfresh. }
  destruct (mkdir_parents_run (ws ++ [sub1]) w0 (Hplain _ Hsub1) (H0 sub1))
    as (fs1 & Hm1 & Ha1 & Hb1).
  destruct (mkdir_parents_run (ws ++ [sub2]) (set_disk fs1 (emit (EvMkdir (ws ++ [sub1])) w0)))
    as (fs2 & Hm2 & Ha2 & Hb2).
  { by apply Hplain. }
  { intros q c Hq Hp. cbn [set_disk disk].
    destruct (decide (q `prefix_of` ws ++ [sub1])) as [Hp1|Hp1].
    - by rewrite Ha1.
    - rewrite Hb1 by (by intros [_ ?]). by eapply H0. }
  exists fs1, fs2. split; [done|]. split; [done|]. cbn [set_disk disk] in Hb2.
  split.
  - intros q Hq [Hp|Hp].
    + destruct (decide (q `prefix_of` ws ++ [sub2])) as [Hp2|Hp2]; [by apply Ha2|].
      rewrite Hb2 by (by intros [_ ?]). by apply Ha1.
    + by apply Ha2.
  - intros q Hp1 Hp2. rewrite Hb2 by (by intros [_ ?]). rewrite Hb1 by (by intros [_ ?]).
    subst w0. cbn [emit set_disk disk]. apply lookup_insert_ne. intros <-.
    apply Hp1. by eexists.
Qed.

Lemma py_index_out_of_range {A} (l : list A) (i : Z) :
  (i < - Z.of_nat (length l) ∨ Z.of_nat (length l) ≤ i)%Z → py_index l i = None.
Proof.
  intros Hi. unfold py_index.
  destruct (i <? 0)%Z eqn:E1; [apply Z.ltb_lt in E1|apply Z.ltb_ge in E1].
  - destruct (0 <=? i + Z.of_nat (length l))%Z eqn:E2; [|done].
    apply Z.leb_le in E2. lia.
  - destruct (i <? Z.of_nat (length l))%Z eqn:E2.
    + apply Z.ltb_lt in E2. lia.
    + by rewrite andb_false_r.
Qed.

(** X17: when the index that [update_table] ends up with lies outside the
    sources of the pipeline, [data_sources[idx]] raises IndexError.  By then
    the temporary folders exist and the pipeline is loaded; nothing is
    parsed and nothing is uploaded, and the workspace is removed. *)
Theorem update_table_index_out_of_range (e : env) (table_name : option string)
    (idx : option Z) (w : world) (name : string) (i : Z) (dp : DataPipeline) :
  effective_table_name e table_name = Some name →
  name ∈ get_table_names e →
  effective_idx e idx = Some i →
  pipeline_load e (replace_dash name) = Ok dp →
  (i < - Z.of_nat (length (data_sources dp)) ∨ Z.of_nat (length (data_sources dp)) ≤ i)%Z →
  workspace_free e w →
  let run := update_table e table_name idx w in
  run.2 = Raise IndexError
  ∧ store run.1 = store w
  ∧ events_of (update_table e table_name idx) w
    = [EvMkdtemp (workspace e);
       EvMkdir (workspace e ++ ["snapshot"]);
       EvMkdir (workspace e ++ ["intermediate"]);
       EvPipelineLoad (replace_dash name);
       EvCleanup (workspace e)].
Proof.
  intros Hname Hknown Hidx Hload Hi Hfree run.
  destruct (stage_folders e w "snapshot" "intermediate" ltac:(done) ltac:(done) Hfree)
    as (fs1 & fs2 & Hm1 & Hm2 & _ & _).
  assert (∃ fs, update_table e table_name idx w
                = (World fs (store w)
                         (trace w ++ [EvMkdtemp (workspace e);
                                      EvMkdir (workspace e ++ ["snapshot"]);
                                      EvMkdir (workspace e ++ ["intermediate"]);
                                      EvPipelineLoad (replace_dash name);
                                      EvCleanup (workspace e)]),
                   Raise IndexError)) as [fs Hrun].
  { unfold update_table. rewrite Hname, Hidx.
    rewrite (bind_ok _ _ _ _ _ (assert_known_table_pass e name w Hknown)).
    unfold with_TemporaryDirectory. fold (workspace e).
    change (Path.div (workspace e) "snapshot") with (workspace e ++ ["snapshot"]).
    change (Path.div (workspace e) "intermediate") with (workspace e ++ ["intermediate"]).
    rewrite (bind_ok _ _ _ _ _ Hm1), (bind_ok _ _ _ _ _ Hm2), bind_tell.
    unfold lift_result at 1. unfold bind at 1. rewrite Hload.
    rewrite (py_index_out_of_range _ _ Hi). unfold bind at 1, raise.
    cbn [fst snd emit set_disk disk store trace].
    exists (Disk.rmtree (workspace e) fs2). unfold emit, set_disk.
    cbn [disk store trace]. by rewrite <- !(assoc_L (++)). }
  subst run. rewrite Hrun. cbn [fst snd store]. split; [done|]. split; [done|].
  apply events_of_app. by rewrite Hrun.
Qed.

Lemma update_table_index_out_of_range_witness :
  let run := update_table Sample.calm (Some "by-age") (Some 2%Z) blank in
  run.2 = Raise IndexError
  ∧ store run.1 = store blank
  ∧ events_of (update_table Sample.calm (Some "by-age") (Some 2%Z)) blank
    = [EvMkdtemp (workspace Sample.calm);
       EvMkdir (workspace Sample.calm ++ ["snapshot"]);
       EvMkdir (workspace Sample.calm ++ ["intermediate"]);
       EvPipelineLoad (replace_dash "by-age");
       EvCleanup (workspace Sample.calm)].
Proof.
  apply (update_table_index_out_of_range Sample.calm (Some "by-age") (Some 2%Z) blank
           "by-age" 2%Z {| data_sources := ["by_age-src0"; "by_age-src1"] |}).
  - reflexivity.
  - apply (bool_decide_unpack _). vm_compute. exact I.
  - reflexivity.
  - reflexivity.
  - right. cbn. lia.
  - split; [|split].
    + intros rel. apply lookup_empty.
    + intros q c _ _. cbn [blank disk]. rewrite lookup_empty. discriminate.
    + let l := eval vm_compute in (workspace Sample.calm) in
      change (Forall valid_name l).
      repeat (apply Forall_cons; split; [by repeat split|]); by constructor.
Defined.

(** ** What a stage uploads *)

Lemma bind_assoc {A B C} (m : M A) (k : A → M B) (k' : B → M C) (w : world) :
  bind (bind m k) k' w = bind m (λ a, bind (k a) k') w.
Proof. unfold bind. by destruct (m w) as [w' [a|ex]]. Qed.

Lemma bind_ext {A B} (m : M A) (k k' : A → M B) (w : world) :
  (∀ a w', k a w' = k' a w') → bind m k w = bind m k' w.
Proof. intros H. unfold bind. destruct (m w) as [w' [a|ex]]; [apply H|done]. Qed.

Lemma with_TemporaryDirectory_ext {A} (e : env) (body body' : path → M A) (w : world) :
  (∀ w', body (workspace e) w' = body' (workspace e) w') →
  with_TemporaryDirectory e body w = with_TemporaryDirectory e body' w.
Proof. intros H. unfold with_TemporaryDirectory. fold (workspace e). by rewrite H. Qed.

Ltac reassociate :=
  repeat first [ reflexivity | (rewrite bind_assoc; apply bind_ext; intros ? ?) ].

Lemma publish_split
    (publish_tables : path → path → gmap path node → gmap path node * result unit)
    (e : env) (w : world) :
  publish publish_tables e w
  = with_TemporaryDirectory e (λ workdir,
      publish_prepares publish_tables e workdir;;
      upload_folder e (GCS_BUCKET_PROD e) "" (Path.div workdir "public");;
      ret "OK") w.
Proof.
  unfold publish. apply with_TemporaryDirectory_ext. intros w'. symmetry.
  unfold publish_prepares. reassociate.
Qed.

Lemma combine_table_split (e : env) (table_name : option string) (name : string) (w : world) :
  effective_table_name e table_name = Some name →
  name ∈ get_table_names e →
  combine_table e table_name w
  = with_TemporaryDirectory e (λ output_folder,
      combine_prepares e name output_folder;;
      upload_folder e (GCS_BUCKET_TEST e) "tables" (Path.div output_folder "tables");;
      ret "OK") w.
Proof.
  intros Hname Hknown. unfold combine_table. rewrite Hname.
  rewrite (bind_ok _ _ _ _ _ (assert_known_table_pass e name w Hknown)).
  apply with_TemporaryDirectory_ext. intros w'. symmetry.
  unfold combine_prepares. reassociate.
Qed.

(** A stage that ends with an upload and returns has, in the bucket, every
    file with a dot in its name that its preparation left in the folder. *)
Lemma stage_uploads (e : env) (prepares : path → M unit) (bucket_name remote_path b : string)
    (folder rel : path) (s : string) (w : world) (data : content) :
  let run := with_TemporaryDirectory e (λ workdir,
               prepares workdir;;
               upload_folder e bucket_name remote_path (workdir ++ folder);;
               ret s) w in
  bucket_of e bucket_name = Some b →
  run.2 = Ok s →
  disk_names_ok (disk (prepared e prepares w)) →
  rel ≠ [] →
  disk (prepared e prepares w) !! ((workspace e ++ folder) ++ rel) = Some (File data) →
  Py.contains "." (Path.name ((workspace e ++ folder) ++ rel)) = true →
  some_attempt_ok (upload_ok e b (blob_name_of remote_path rel)) = true →
  store run.1 !! (b, blob_name_of remote_path rel) = Some data.
Proof.
  intros run Hb Hok Hnames Hne Hf Hdot Hany. subst run.
  unfold with_TemporaryDirectory, prepared in *. fold (workspace e) in *.
  set (w0 := emit _ (set_disk _ w)) in *. unfold bind at 1 in Hok. unfold bind at 1.
  destruct (prepares (workspace e) w0) as [wp [[]|ex]]; cbn [fst snd] in *; [|done].
  clear Hok. unfold bind.
  pose proof (upload_folder_stores e bucket_name remote_path b (workspace e ++ folder) wp
                rel data Hb Hnames Hne Hf Hdot Hany) as Hst.
  destruct (upload_folder e bucket_name remote_path (workspace e ++ folder) wp)
    as [wu [[]|ex]]; cbn [fst snd emit set_disk store ret] in *; done.
Qed.

(** X18: when [publish] returns, every file with a dot in its name that
    [publish_tables] left in the public folder is in the prod bucket, under
    its path relative to that folder: the empty prefix adds nothing, not
    even a slash. *)
Theorem publish_uploads_the_public_folder
    (publish_tables : path → path → gmap path node → gmap path node * result unit)
    (e : env) (b : string) (w : world) (rel : path) (data : content) :
  bucket_of e (GCS_BUCKET_PROD e) = Some b →
  (publish publish_tables e w).2 = Ok "OK" →
  disk_names_ok (disk (prepared e (publish_prepares publish_tables e) w)) →
  rel ≠ [] →
  disk (prepared e (publish_prepares publish_tables e) w)
    !! (workspace e ++ "public" :: rel) = Some (File data) →
  Py.contains "." (Path.name rel) = true →
  some_attempt_ok (upload_ok e b (Py.join "/" rel)) = true →
  store (publish publish_tables e w).1 !! (b, Py.join "/" rel) = Some data.
Proof.
  intros Hb Hok Hnames Hne Hf Hdot Hany. rewrite publish_split in Hok |- *.
  change (λ workdir, publish_prepares publish_tables e workdir;;
                     upload_folder e (GCS_BUCKET_PROD e) "" (Path.div workdir "public");;
                     ret "OK")
    with (λ workdir, publish_prepares publish_tables e workdir;;
                     upload_folder e (GCS_BUCKET_PROD e) "" (workdir ++ ["public"]);;
                     ret "OK") in Hok |- *.
  rewrite <- (blob_name_of_root rel Hne) in Hany |- *.
  apply (stage_uploads e (publish_prepares publish_tables e) (GCS_BUCKET_PROD e) "" b
           ["public"] rel "OK" w data Hb Hok Hnames Hne).
  - by rewrite <- (assoc_L (++)).
  - by rewrite name_app.
  - done.
Qed.

Lemma combined_prepared_names_ok :
  disk_names_ok (disk (prepared Sample.calm (publish_prepares copy_tables Sample.calm) combined)).
Proof.
  intros p [v Hp]. entries Hp; injection Hp as -> _.
  all: repeat (apply Forall_cons; split; [by repeat split|]); by constructor.
Qed.

Lemma publish_uploads_the_public_folder_witness :
  store (publish copy_tables Sample.calm combined).1 !! ("prod", Py.join "/" ["by-age.csv"])
  = Some (Sample.bytes "age,cases").
Proof.
  apply (publish_uploads_the_public_folder copy_tables Sample.calm "prod" combined
           ["by-age.csv"] (Sample.bytes "age,cases")).
  - reflexivity.
  - vm_compute. reflexivity.
  - exact combined_prepared_names_ok.
  - discriminate.
  - vm_compute. reflexivity.
  - reflexivity.
  - reflexivity.
Defined.

Lemma quiet_publish_prepares
    (publish_tables : path → path → gmap path node → gmap path node * result unit)
    (e : env) (workdir : path) :
  preserves same_store (publish_prepares publish_tables e workdir).
Proof. unfold publish_prepares. quiet_trivially. Qed.

(** What [publish] has changed in the bucket is a file of the public
    folder. *)
Lemma publish_changes
    (publish_tables : path → path → gmap path node → gmap path node * result unit)
    (e : env) (w : world) (k : string * string) :
  store (publish publish_tables e w).1 !! k ≠ store w !! k →
  ∃ b rel data, bucket_of e (GCS_BUCKET_PROD e) = Some b ∧ rel ≠ []
    ∧ k = (b, Py.join "/" rel)
    ∧ disk (prepared e (publish_prepares publish_tables e) w)
        !! (workspace e ++ "public" :: rel) = Some (File data)
    ∧ Py.contains "." (Path.name rel) = true
    ∧ store (publish publish_tables e w).1 !! k = Some data.
Proof.
  rewrite publish_split. unfold with_TemporaryDirectory, prepared. fold (workspace e).
  change (Path.div (workspace e) "public") with (workspace e ++ ["public"]).
  set (w0 := emit _ (set_disk _ w)).
  pose proof (quiet_publish_prepares publish_tables e (workspace e) w0) as Hq.
  unfold same_store in Hq. unfold bind.
  destruct (publish_prepares publish_tables e (workspace e) w0) as [wp [[]|ex]];
    cbn [fst snd emit set_disk store] in *; [|by rewrite Hq].
  pose proof (upload_folder_changes e (GCS_BUCKET_PROD e) "" (workspace e ++ ["public"]) wp k)
    as Hch.
  destruct (upload_folder e (GCS_BUCKET_PROD e) "" (workspace e ++ ["public"]) wp)
    as [wu [[]|ex]]; cbn [fst snd emit set_disk store ret] in *.
  all: rewrite Hq in Hch; intros Hk.
  all: destruct (Hch Hk) as (b & rel & data & Hb & Hne & Hf & Hdot & -> & Hst).
  all: exists b, rel, data; rewrite <- (assoc_L (++)) in Hf; rewrite name_app in Hdot by done.
  all: rewrite (blob_name_of_root rel Hne) in Hst |- *.
  all: do 5 (split; [done|]); done.
Qed.

(** X13: [publish] deletes no blob and writes to the prod bucket only.  A
    blob it has written holds a file that [publish_tables] left in the
    public folder, one with a dot in its name, and is named by the path of
    that file below the folder, its components joined by slashes, with no
    prefix; when the entries of the disk have proper names, the name does
    not start with a slash.  Every blob of another bucket is left as it
    was. *)
Theorem publish_writes_to_the_prod_bucket_only
    (publish_tables : path → path → gmap path node → gmap path node * result unit)
    (e : env) (w : world) (k : string * string) :
  let run := publish publish_tables e w in
  let ready := prepared e (publish_prepares publish_tables e) w in
  (is_Some (store w !! k) → is_Some (store run.1 !! k))
  ∧ (store run.1 !! k ≠ store w !! k →
     ∃ b rel data, bucket_of e (GCS_BUCKET_PROD e) = Some b ∧ rel ≠ []
       ∧ k = (b, Py.join "/" rel)
       ∧ disk ready !! (workspace e ++ "public" :: rel) = Some (File data)
       ∧ Py.contains "." (Path.name rel) = true
       ∧ store run.1 !! k = Some data
       ∧ (disk_names_ok (disk ready) →
          Forall valid_name rel ∧ Py.startswith "/" (Py.join "/" rel) = false))
  ∧ (∀ b, bucket_of e (GCS_BUCKET_PROD e) = Some b → k.1 ≠ b →
          store run.1 !! k = store w !! k).
Proof.
  intros run ready. subst run ready.
  assert (preserves (writes_only (λ _, True)) (publish publish_tables e)) as H.
  { unfold publish. apply stage_with_TemporaryDirectory.
    do 4 (apply stage_bind; [stage_trivially|]; intros ?).
    apply stage_bind; [|intros ?; stage_trivially].
    by apply stage_upload_folder. }
  destruct (H w) as [K _]. split; [apply K|]. split.
  - intros Hk.
    destruct (publish_changes publish_tables e w k Hk)
      as (b & rel & data & Hb & Hne & -> & Hf & Hdot & Hst).
    exists b, rel, data. do 6 (split; [done|]). intros Hnames.
    assert (Forall valid_name rel) as Hv.
    { assert (is_Some (disk (prepared e (publish_prepares publish_tables e) w)
                         !! (workspace e ++ "public" :: rel))) as Hs by by eexists.
      apply Hnames in Hs. apply Forall_app in Hs as [_ Hs]. by apply Forall_cons in Hs as [_ ?]. }
    split; [done|]. by apply join_slash_starts.
  - intros b Hb Hne.
    destruct (decide (store (publish publish_tables e w).1 !! k = store w !! k)) as [|Hch];
      [done|].
    destruct (publish_changes publish_tables e w k Hch) as (b' & rel & _ & Hb' & _ & -> & _).
    cbn [fst] in Hne. congruence.
Qed.

Lemma publish_writes_to_the_prod_bucket_only_witness :
  (∃ b rel data, bucket_of Sample.calm (GCS_BUCKET_PROD Sample.calm) = Some b ∧ rel ≠ []
     ∧ ("prod", "by-age.csv") = (b, Py.join "/" rel)
     ∧ disk (prepared Sample.calm (publish_prepares copy_tables Sample.calm) combined)
         !! (workspace Sample.calm ++ "public" :: rel) = Some (File data)
     ∧ store (publish copy_tables Sample.calm combined).1 !! ("prod", "by-age.csv") = Some data
     ∧ Forall valid_name rel ∧ Py.startswith "/" (Py.join "/" rel) = false)
  ∧ store (publish copy_tables Sample.calm combined).1 !! ("test", "tables/by-age.csv")
    = store combined !! ("test", "tables/by-age.csv").
Proof.
  destruct (publish_writes_to_the_prod_bucket_only copy_tables Sample.calm combined
              ("prod", "by-age.csv")) as (_ & H2 & _).
  destruct (publish_writes_to_the_prod_bucket_only copy_tables Sample.calm combined
              ("test", "tables/by-age.csv")) as (_ & _ & H3).
  split.
  - destruct H2 as (b & rel & data & Hb & Hne & Hk & Hf & _ & Hst & Hnm).
    { clear H3. intros H. vm_compute in H. discriminate H. }
    exists b, rel, data. do 5 (split; [assumption|]).
    apply Hnm. exact combined_prepared_names_ok.
  - apply (H3 "prod"); [reflexivity|]. clear H2 H3. discriminate.
Defined.

(** X19: when [combine_table] returns, the table that [export_csv] wrote to
    [tables/<table_name>.csv] in the workspace is in the test bucket under
    the key [tables/<table_name>.csv]; the name of the file always contains
    a dot, so the upload never skips it. *)
Theorem combine_table_uploads_the_table (e : env) (table_name : option string)
    (name b : string) (w : world) (data : content) :
  effective_table_name e table_name = Some name →
  name ∈ get_table_names e →
  bucket_of e (GCS_BUCKET_TEST e) = Some b →
  (combine_table e table_name w).2 = Ok "OK" →
  valid_name (name +:+ ".csv") →
  disk_names_ok (disk (prepared e (combine_prepares e name) w)) →
  disk (prepared e (combine_prepares e name) w)
    !! Path.div (Path.div (workspace e) "tables") (name +:+ ".csv") = Some (File data) →
  some_attempt_ok (upload_ok e b ("tables/" +:+ name +:+ ".csv")) = true →
  Path.div (Path.div (workspace e) "tables") (name +:+ ".csv")
  = workspace e ++ ["tables"; name +:+ ".csv"]
  ∧ store (combine_table e table_name w).1 !! (b, "tables/" +:+ name +:+ ".csv") = Some data.
Proof.
  intros Hname Hknown Hb Hok Hvalid Hnames Hf Hany.
  assert (Path.div (Path.div (workspace e) "tables") (name +:+ ".csv")
          = workspace e ++ ["tables"; name +:+ ".csv"]) as Hcsv.
  { destruct Hvalid as (H1 & H2 & _ & H3). rewrite (div_plain _ _ H1 H2 H3).
    change (Path.div (workspace e) "tables") with (workspace e ++ ["tables"]).
    by rewrite <- (assoc_L (++)). }
  split; [done|]. rewrite Hcsv in Hf.
  rewrite (combine_table_split e table_name name w Hname Hknown) in Hok |- *.
  change (λ output_folder, combine_prepares e name output_folder;;
                           upload_folder e (GCS_BUCKET_TEST e) "tables"
                             (Path.div output_folder "tables");;
                           ret "OK")
    with (λ output_folder, combine_prepares e name output_folder;;
                           upload_folder e (GCS_BUCKET_TEST e) "tables"
                             (output_folder ++ ["tables"]);;
                           ret "OK") in Hok |- *.
  assert (blob_name_of "tables" [name +:+ ".csv"] = "tables/" +:+ name +:+ ".csv") as Hblob.
  { rewrite blob_name_of_valid; [done|done|]. by constructor. }
  rewrite <- Hblob in Hany |- *.
  apply (stage_uploads e (combine_prepares e name) (GCS_BUCKET_TEST e) "tables" b
           ["tables"] [name +:+ ".csv"] "OK" w data Hb Hok Hnames); [done| | |done].
  - by rewrite <- (assoc_L (++)).
  - rewrite name_app by done. apply contains_char_app.
Qed.

Lemma blank_combine_names_ok :
  disk_names_ok (disk (prepared Sample.calm (combine_prepares Sample.calm "by-age") blank)).
Proof.
  intros p [v Hp]. entries Hp; injection Hp as -> _.
  all: repeat (apply Forall_cons; split; [by repeat split|]); by constructor.
Qed.

Lemma combine_table_uploads_the_table_witness :
  store (combine_table Sample.calm (Some "by-age") blank).1
    !! ("test", "tables/" +:+ "by-age" +:+ ".csv")
  = Some (Sample.bytes "by_age-src0" ++ Sample.bytes "by_age-src1").
Proof.
  apply (combine_table_uploads_the_table Sample.calm (Some "by-age") "by-age" "test" blank
           (Sample.bytes "by_age-src0" ++ Sample.bytes "by_age-src1")).
  - reflexivity.
  - apply (bool_decide_unpack _). vm_compute. exact I.
  - reflexivity.
  - vm_compute. reflexivity.
  - by repeat split.
  - exact blank_combine_names_ok.
  - vm_compute. reflexivity.
  - reflexivity.
Defined.

(** ** Transfers with nothing to do *)

Lemma list_without_elements {A} (l : list A) : (∀ x, x ∉ l) → l = [].
Proof. destruct l as [|x l]; [done|]. intros H. destruct (H x). by left. Qed.

(** X20: a transfer with nothing to transfer succeeds and leaves everything
    as it is.  [upload_folder] of a folder with nothing in it (or of a
    folder that does not exist) makes no attempt and prints nothing;
    [download_folder] of a prefix without blobs only lists the prefix, and
    does not even make the local folder. *)
Theorem transfers_of_nothing (e : env) (bucket_name remote_path b : string)
    (local_folder : path) (w : world) :
  bucket_of e bucket_name = Some b →
  ((∀ rel, rel ≠ [] → disk w !! (local_folder ++ rel) = None) →
   upload_folder e bucket_name remote_path local_folder w = (w, Ok tt))
  ∧ ((∀ name, Py.startswith remote_path name = true → store w !! (b, name) = None) →
     download_folder e bucket_name remote_path local_folder w
     = (emit (EvListBlobs b remote_path) w, Ok tt)).
Proof.
  intros Hb. split.
  - intros Hempty. unfold upload_folder.
    rewrite (bind_ok _ _ _ _ _ (get_storage_bucket_run e _ b w Hb)).
    unfold bind at 1.
    assert (Disk.glob_dotted local_folder (disk w) = []) as ->; [|done].
    apply list_without_elements. intros p [[v Hp] Hsel]%elem_of_glob_dotted.
    apply glob_selects_relative in Hsel as (rel & Hrel%relative_to_Some & Hne).
    subst p. by rewrite Hempty in Hp.
  - intros Hempty. unfold download_folder.
    rewrite (bind_ok _ _ _ _ _ (get_storage_bucket_run e _ b w Hb)).
    unfold bind at 1, list_blobs.
    assert (blob_names b remote_path (store w) = []) as ->; [|done].
    apply list_without_elements. intros name [[v Hs] Hp]%elem_of_blob_names.
    by rewrite Hempty in Hs.
Qed.

Lemma transfers_of_nothing_witness :
  upload_folder Sample.calm "test" "p" ["nowhere"] tree = (tree, Ok tt)
  ∧ download_folder Sample.calm "test" "q" ["v"] stale
    = (emit (EvListBlobs "test" "q") stale, Ok tt).
Proof.
  destruct (transfers_of_nothing Sample.calm "test" "p" "test" ["nowhere"] tree eq_refl)
    as [H1 _].
  destruct (transfers_of_nothing Sample.calm "test" "q" "test" ["v"] stale eq_refl)
    as [_ H2].
  split.
  - apply H1. clear H1 H2. intros rel _.
    destruct (disk tree !! (["nowhere"] ++ rel)) as [v|] eqn:E; [|reflexivity].
    entries E; discriminate E.
  - apply H2. clear H1 H2. intros name Hp.
    destruct (store stale !! ("test", name)) as [v|] eqn:E; [|reflexivity].
    entries E. injection E as -> _. discriminate Hp.
Defined.

(** ** The name under which a pipeline is loaded *)

Lemma replace_dash_spec (s : string) :
  Py.contains "-" (replace_dash s) = false
  ∧ String.length (replace_dash s) = String.length s
  ∧ (Py.contains "-" s = false → replace_dash s = s).
Proof.
  induction s as [|c s (IH1 & IH2 & IH3)]; [done|]. cbn [replace_dash String.length].
  rewrite !PyFacts.contains_char_cons, IH1, IH2. rewrite (Ascii.eqb_sym "-" c).
  destruct (Ascii.eqb c "-") eqn:E; cbn [orb]; [done|].
  rewrite (Ascii.eqb_sym "-" c), E. split; [done|]. split; [done|].
  intros H. by rewrite IH3.
Qed.

Lemma assert_known_table_value (e : env) (tn : option string) (w w' : world) (name : string) :
  assert_known_table e tn w = (w', Ok name) → tn = Some name.
Proof.
  unfold assert_known_table. destruct tn as [n|]; [|done]. unfold bind, py_assert.
  destruct (bool_decide _); [|done]. by intros [= _ <-].
Qed.

Lemma calm_workspace_free : workspace_free Sample.calm blank.
Proof.
  split; [|split].
  - intros rel. apply lookup_empty.
  - intros q c _ _. cbn [blank disk]. rewrite lookup_empty. discriminate.
  - let l := eval vm_compute in (workspace Sample.calm) in
    change (Forall valid_name l).
    repeat (apply Forall_cons; split; [by repeat split|]); by constructor.
Qed.

Lemma combine_table_load_raises (e : env) (table_name : option string) (w : world)
    (name : string) (ex : exn) :
  effective_table_name e table_name = Some name →
  name ∈ get_table_names e →
  pipeline_load e (replace_dash name) = Raise ex →
  ∃ ex', (combine_table e table_name w).2 = Raise ex'.
Proof.
  intros Hname Hknown Hload. rewrite (combine_table_split e table_name name w Hname Hknown).
  unfold with_TemporaryDirectory. fold (workspace e).
  set (w0 := emit _ (set_disk _ w)).
  assert (∃ ex', (combine_prepares e name (workspace e) w0).2 = Raise ex') as [ex' Hex].
  { unfold combine_prepares. unfold bind at 1.
    destruct (mkdir_parents _ w0) as [w1 [[]|ex1]]; [|by eexists].
    unfold bind at 1. destruct (download_folder _ _ _ _ w1) as [w2 [[]|ex2]]; [|by eexists].
    rewrite bind_tell. unfold lift_result at 1. unfold bind at 1. rewrite Hload. by eexists. }
  exists ex'. unfold bind at 1.
  destruct (combine_prepares e name (workspace e) w0) as [wp r]. cbn [snd] in Hex. by subst r.
Qed.

(** A stage asks for the pipeline of one name only: with another loader
    that answers the same for that name it runs the same. *)
Lemma stages_load_one_name (e : env) (table_name : option string) (idx : option Z)
    (name : string) (load : string → result DataPipeline) :
  effective_table_name e table_name = Some name →
  load (replace_dash name) = pipeline_load e (replace_dash name) →
  update_table (Sample.with_pipeline e load (pipeline_parse e)) table_name idx
  = update_table e table_name idx
  ∧ combine_table (Sample.with_pipeline e load (pipeline_parse e)) table_name
    = combine_table e table_name.
Proof.
  intros Hname Hload.
  set (e' := Sample.with_pipeline e load (pipeline_parse e)).
  assert (effective_table_name e' table_name = Some name) as Hname' by exact Hname.
  split.
  - unfold update_table. rewrite Hname, Hname'.
    unfold assert_known_table, py_assert. change (get_table_names e') with (get_table_names e).
    destruct (bool_decide (name ∈ get_table_names e)); [|reflexivity].
    unfold bind at 1 2 7 8, ret. cbn beta iota.
    change (pipeline_load e' (replace_dash name)) with (load (replace_dash name)).
    rewrite Hload. reflexivity.
  - unfold combine_table. rewrite Hname, Hname'.
    unfold assert_known_table, py_assert. change (get_table_names e') with (get_table_names e).
    destruct (bool_decide (name ∈ get_table_names e)); [|reflexivity].
    unfold bind at 1 2 7 8, ret. cbn beta iota.
    change (pipeline_load e' (replace_dash name)) with (load (replace_dash name)).
    rewrite Hload. reflexivity.
Qed.

(** [update_table] up to the point where it has loaded the pipeline. *)
Ltac update_table_to_load e name Hname Hknown Hfree :=
  let fs1 := fresh "fs1" in let fs2 := fresh "fs2" in
  let Hm1 := fresh "Hm1" in let Hm2 := fresh "Hm2" in
  destruct (stage_folders e _ "snapshot" "intermediate" ltac:(done) ltac:(done) Hfree)
    as (fs1 & fs2 & Hm1 & Hm2 & _ & _);
  unfold update_table; rewrite Hname;
  rewrite (bind_ok _ _ _ _ _ (assert_known_table_pass e name _ Hknown));
  unfold with_TemporaryDirectory; fold (workspace e);
  change (Path.div (workspace e) "snapshot") with (workspace e ++ ["snapshot"]);
  change (Path.div (workspace e) "intermediate") with (workspace e ++ ["intermediate"]);
  rewrite (bind_ok _ _ _ _ _ Hm1), (bind_ok _ _ _ _ _ Hm2), bind_tell;
  unfold lift_result at 1; unfold bind at 1.

(** The pipeline that [update_table] hands to [parse] is the loaded one
    when there is no index, and the one with the single source at the index
    otherwise: when parsing that pipeline fails, so does the stage. *)
Lemma update_table_parses_selection (e : env) (table_name : option string) (idx : option Z)
    (w : world) (name : string) (dp sel : DataPipeline) (ex : exn) :
  effective_table_name e table_name = Some name →
  name ∈ get_table_names e →
  workspace_free e w →
  pipeline_load e (replace_dash name) = Ok dp →
  match effective_idx e idx with
  | Some i => (λ s, {| data_sources := [s] |}) <$> py_index (data_sources dp) i
  | None => Some dp
  end = Some sel →
  (∀ fs, (pipeline_parse e sel (workspace e) fs).2 = Raise ex) →
  (update_table e table_name idx w).2 = Raise ex.
Proof.
  intros Hname Hknown Hfree Hload Hsel Hparse.
  update_table_to_load e name Hname Hknown Hfree. rewrite Hload.
  assert (match effective_idx e idx with
          | Some i => match py_index (data_sources dp) i with
                      | Some src => ret {| data_sources := [src] |}
                      | None => raise IndexError
                      end
          | None => ret dp
          end = ret sel) as ->.
  { destruct (effective_idx e idx) as [i|]; [|by injection Hsel as ->].
    destruct (py_index _ _); [by injection Hsel as <-|done]. }
  unfold bind at 1, ret. rewrite bind_tell. unfold bind at 1, lift_disk.
  match goal with
  | |- context [pipeline_parse e sel (workspace e) ?fs] =>
    specialize (Hparse fs); destruct (pipeline_parse e sel (workspace e) fs) as [fs' r]
  end.
  cbn [snd] in Hparse. by subst r.
Qed.

Lemma update_table_index_error (e : env) (table_name : option string) (idx : option Z)
    (w : world) (name : string) (dp : DataPipeline) (i : Z) :
  effective_table_name e table_name = Some name →
  name ∈ get_table_names e →
  workspace_free e w →
  pipeline_load e (replace_dash name) = Ok dp →
  effective_idx e idx = Some i →
  py_index (data_sources dp) i = None →
  (update_table e table_name idx w).2 = Raise IndexError.
Proof.
  intros Hname Hknown Hfree Hload Hidx Hnone.
  update_table_to_load e name Hname Hknown Hfree. by rewrite Hload, Hidx, Hnone.
Qed.

Lemma update_table_load_raises (e : env) (table_name : option string) (idx : option Z)
    (w : world) (name : string) (ex : exn) :
  effective_table_name e table_name = Some name →
  name ∈ get_table_names e →
  workspace_free e w →
  pipeline_load e (replace_dash name) = Raise ex →
  (update_table e table_name idx w).2 = Raise ex.
Proof.
  intros Hname Hknown Hfree Hload.
  update_table_to_load e name Hname Hknown Hfree. by rewrite Hload.
Qed.

(** X21: the stages load the pipeline under the table name with every dash
    replaced by an underscore, and under no other name.  When there is no
    pipeline of that name, [update_table] raises what the loader raised and
    [combine_table] raises as well; with another loader that answers the
    same for that one name, both stages run the same.  The name has no dash
    and the length of the table name, and a table name without dash is used
    as it is.  In the trace, the load is recorded under that name and the
    export under the table name as given. *)
Theorem pipeline_is_loaded_under_the_underscored_name (e : env) (table_name : option string)
    (idx : option Z) (w : world) (name : string) :
  effective_table_name e table_name = Some name →
  let loads_only (evs : list event) :=
    Forall (λ ev, (∀ n, ev = EvPipelineLoad n → n = replace_dash name)
                  ∧ (∀ p, ev = EvExportCsv p →
                          p = Path.div (Path.div (workspace e) "tables") (name +:+ ".csv")))
           evs in
  loads_only (events_of (update_table e table_name idx) w)
  ∧ loads_only (events_of (combine_table e table_name) w)
  ∧ Py.contains "-" (replace_dash name) = false
  ∧ String.length (replace_dash name) = String.length name
  ∧ (Py.contains "-" name = false → replace_dash name = name)
  ∧ (∀ ex, name ∈ get_table_names e →
           pipeline_load e (replace_dash name) = Raise ex →
           (workspace_free e w → (update_table e table_name idx w).2 = Raise ex)
           ∧ ∃ ex', (combine_table e table_name w).2 = Raise ex')
  ∧ (∀ load, load (replace_dash name) = pipeline_load e (replace_dash name) →
             update_table (Sample.with_pipeline e load (pipeline_parse e)) table_name idx
             = update_table e table_name idx
             ∧ combine_table (Sample.with_pipeline e load (pipeline_parse e)) table_name
               = combine_table e table_name).
Proof.
  intros Hname loads_only. subst loads_only. cbn beta.
  set (P := λ ev, (∀ n, ev = EvPipelineLoad n → n = replace_dash name)
                  ∧ (∀ p, ev = EvExportCsv p →
                          p = Path.div (Path.div (workspace e) "tables") (name +:+ ".csv"))).
  assert (∀ ev, (∀ n, ev ≠ EvPipelineLoad n) → (∀ p, ev ≠ EvExportCsv p) → P ev) as Hother.
  { intros ev H1 H2. split; [intros n ->; by destruct (H1 n)|intros p ->; by destruct (H2 p)]. }
  assert (∀ bn rp lf, emits P (upload_folder e bn rp lf)) as Hup.
  { intros. eapply emits_weaken; [|apply emits_upload_folder].
    intros ev Hev. apply Hother; intros ? ->; inversion Hev. }
  assert (∀ bn rp lf, emits P (download_folder e bn rp lf)) as Hdown.
  { intros. eapply emits_weaken; [|apply emits_download_folder].
    intros ev Hev. apply Hother; intros ? ->; inversion Hev. }
  assert (∀ p, emits P (mkdir_parents p)) as Hmk.
  { intros p. apply emits_mkdir_parents. by apply Hother. }
  split; [|split; [|split; [apply replace_dash_spec|split; [apply replace_dash_spec|split;
    [apply replace_dash_spec|split]]]]].
  - apply events_of_emits. unfold update_table. rewrite Hname.
    eapply (emits_bind_post _ (λ a, a = name)).
    { apply emits_assert_known_table. }
    { intros w1 w2 a Ha. apply assert_known_table_value in Ha. congruence. }
    intros ? ->. apply emits_with_TemporaryDirectory; [by apply Hother..|].
    apply emits_bind; [apply Hmk|]. intros _.
    apply emits_bind; [apply Hmk|]. intros _.
    apply emits_bind; [apply emits_tell; split; [by intros n [= <-]|done]|]. intros _.
    apply emits_bind; [apply emits_lift_result|]. intros dp.
    apply emits_bind.
    { destruct (effective_idx e idx) as [i|]; [|apply emits_ret].
      destruct (py_index _ _); [apply emits_ret|apply emits_raise]. }
    intros dp'.
    apply emits_bind; [apply emits_tell; by apply Hother|]. intros _.
    apply emits_bind; [apply emits_lift_disk|]. intros rs.
    apply emits_bind; [apply emits_tell; by apply Hother|]. intros _.
    apply emits_bind; [apply emits_lift_disk|]. intros _.
    apply emits_bind; [apply Hup|]. intros _.
    apply emits_bind; [apply Hup|]. intros _.
    apply emits_ret.
  - apply events_of_emits. unfold combine_table. rewrite Hname.
    eapply (emits_bind_post _ (λ a, a = name)).
    { apply emits_assert_known_table. }
    { intros w1 w2 a Ha. apply assert_known_table_value in Ha. congruence. }
    intros ? ->. apply emits_with_TemporaryDirectory; [by apply Hother..|].
    apply emits_bind; [apply Hmk|]. intros _.
    apply emits_bind; [apply Hdown|]. intros _.
    apply emits_bind; [apply emits_tell; split; [by intros n [= <-]|done]|]. intros _.
    apply emits_bind; [apply emits_lift_result|]. intros dp.
    apply emits_bind; [apply emits_tell; by apply Hother|]. intros _.
    apply emits_bind; [by apply emits_silent|]. intros rs.
    apply emits_bind; [apply emits_tell; by apply Hother|]. intros _.
    apply emits_bind; [apply emits_lift_result|]. intros po.
    apply emits_bind; [apply emits_tell; split; [done|by intros p [= <-]]|]. intros _.
    apply emits_bind; [apply emits_lift_disk|]. intros _.
    apply emits_bind; [apply Hup|]. intros _.
    apply emits_ret.
  - intros ex Hknown Hload. split.
    + intros Hfree. by apply (update_table_load_raises e table_name idx w name ex).
    + by apply (combine_table_load_raises e table_name w name ex).
  - intros load Hload. by apply (stages_load_one_name e table_name idx name load).
Qed.

Lemma pipeline_is_loaded_under_the_underscored_name_witness :
  EvPipelineLoad "by_age" ∈ events_of (combine_table Sample.calm (Some "by-age")) blank
  ∧ Forall (λ ev, (∀ n, ev = EvPipelineLoad n → n = replace_dash "by-age")
                  ∧ (∀ p, ev = EvExportCsv p →
                          p = Path.div (Path.div (workspace Sample.calm) "tables")
                                (("by-age") +:+ ".csv")))
           (events_of (combine_table Sample.calm (Some "by-age")) blank)
  ∧ (update_table (Sample.unloadable "by_age") (Some "by-age") None blank).2
    = Raise CollaboratorError
  ∧ (update_table (Sample.unloadable "by-age") (Some "by-age") None blank).2 = Ok "OK".
Proof.
  split; [|split; [|split]].
  - apply (bool_decide_unpack _). vm_compute. exact I.
  - exact (proj1 (proj2 (pipeline_is_loaded_under_the_underscored_name Sample.calm
                           (Some "by-age") None blank "by-age" eq_refl))).
  - destruct (pipeline_is_loaded_under_the_underscored_name (Sample.unloadable "by_age")
                (Some "by-age") None blank "by-age" eq_refl) as (_ & _ & _ & _ & _ & H & _).
    destruct (H CollaboratorError) as [Hraise _].
    + apply (bool_decide_unpack _). vm_compute. exact I.
    + reflexivity.
    + apply Hraise. exact calm_workspace_free.
  - vm_compute. reflexivity.
Defined.

(** ** The falsy arguments of [update_table] *)

(** C10. A direct [idx] of 0 is falsy, so [update_table] behaves exactly as
    when no index is passed: the index is whatever [safe_int_cast] makes of
    the request's [idx] parameter, possibly none.  A non-zero direct index
    is kept.  In the same way an empty [table_name] behaves as none and the
    request's [table] parameter is used, while a non-empty one is kept.
    This shows in what the stage does.  With a non-zero direct index the
    pipeline handed to [parse] has the single source at that index, whatever
    the request says, and an index outside the sources raises IndexError;
    with a direct index of 0 it has the single source at the request's
    index, or all the sources when the request gives none: whenever parsing
    that pipeline fails, the stage fails the same way. *)
Theorem zero_idx_falls_back_to_request (e : env) (table_name : option string)
    (idx : option Z) :
  update_table e table_name (Some 0%Z) = update_table e table_name None
  ∧ effective_idx e (Some 0%Z) = safe_int_cast e (request_args e !! "idx")
  ∧ (∀ k, k ≠ 0%Z → effective_idx e (Some k) = Some k)
  ∧ update_table e (Some EmptyString) idx = update_table e None idx
  ∧ combine_table e (Some EmptyString) = combine_table e None
  ∧ effective_table_name e (Some EmptyString) = request_args e !! "table"
  ∧ (∀ name, name ≠ EmptyString → effective_table_name e (Some name) = Some name)
  ∧ (∀ name, request_args e !! "table" = Some name → name ≠ EmptyString →
       update_table e (Some EmptyString) idx = update_table e (Some name) idx
       ∧ combine_table e (Some EmptyString) = combine_table e (Some name))
  ∧ (∀ j, safe_int_cast e (request_args e !! "idx") = Some j → j ≠ 0%Z →
       update_table e table_name (Some 0%Z) = update_table e table_name (Some j))
  ∧ (∀ (w : world) (name : string) (dp : DataPipeline) (ex : exn),
       effective_table_name e table_name = Some name →
       name ∈ get_table_names e →
       workspace_free e w →
       pipeline_load e (replace_dash name) = Ok dp →
       (∀ k s, k ≠ 0%Z → py_index (data_sources dp) k = Some s →
               parse_fails e {| data_sources := [s] |} ex →
               (update_table e table_name (Some k) w).2 = Raise ex)
       ∧ (∀ k, k ≠ 0%Z → py_index (data_sources dp) k = None →
               (update_table e table_name (Some k) w).2 = Raise IndexError)
       ∧ (∀ j s, safe_int_cast e (request_args e !! "idx") = Some j →
                 py_index (data_sources dp) j = Some s →
                 parse_fails e {| data_sources := [s] |} ex →
                 (update_table e table_name (Some 0%Z) w).2 = Raise ex)
       ∧ (safe_int_cast e (request_args e !! "idx") = None →
          parse_fails e dp ex →
          (update_table e table_name (Some 0%Z) w).2 = Raise ex)).
Proof.
  assert (∀ k, k ≠ 0%Z → effective_idx e (Some k) = Some k) as Hidx.
  { intros k Hk. unfold effective_idx, Py.or_int. by destruct k. }
  assert (∀ name, name ≠ EmptyString → effective_table_name e (Some name) = Some name)
    as Hname.
  { intros name Hn. unfold effective_table_name, Py.or_str. by destruct name. }
  do 7 (split; [first [reflexivity | done]|]).
  split; [|split].
  - intros name Hreq Hne.
    assert (effective_table_name e (Some EmptyString) = effective_table_name e (Some name))
      as E by (by rewrite (Hname name Hne)).
    unfold update_table, combine_table. by rewrite E.
  - intros j Hreq Hj.
    assert (effective_idx e (Some 0%Z) = effective_idx e (Some j)) as E
      by (by rewrite (Hidx j Hj)).
    unfold update_table. by rewrite E.
  - intros w name dp ex Htable Hknown Hfree Hload.
    split; [|split; [|split]].
    + intros k s Hk Hs Hfails.
      apply (update_table_parses_selection e table_name (Some k) w name dp
               {| data_sources := [s] |} ex Htable Hknown Hfree Hload); [|exact Hfails].
      by rewrite (Hidx k Hk), Hs.
    + intros k Hk Hnone.
      by apply (update_table_index_error e table_name (Some k) w name dp k); [..|apply Hidx|].
    + intros j s Hreq Hs Hfails.
      apply (update_table_parses_selection e table_name (Some 0%Z) w name dp
               {| data_sources := [s] |} ex Htable Hknown Hfree Hload); [|exact Hfails].
      change (effective_idx e (Some 0%Z)) with (safe_int_cast e (request_args e !! "idx")).
      by rewrite Hreq, Hs.
    + intros Hreq Hfails.
      apply (update_table_parses_selection e table_name (Some 0%Z) w name dp dp ex
               Htable Hknown Hfree Hload); [|exact Hfails].
      change (effective_idx e (Some 0%Z)) with (safe_int_cast e (request_args e !! "idx")).
      by rewrite Hreq.
Qed.

Lemma zero_idx_falls_back_to_request_witness :
  effective_idx Sample.calm (Some 1%Z) = Some 1%Z
  ∧ effective_table_name Sample.calm (Some "by-age") = Some "by-age"
  ∧ (update_table (Sample.refusing ["by_age-src1"]) (Some "by-age") (Some 1%Z) blank).2
    = Raise CollaboratorError
  ∧ (update_table (Sample.refusing ["by_age-src0"]) (Some "by-age") (Some 0%Z) blank).2
    = Ok "OK"
  ∧ (update_table (Sample.refusing ["by_age-src0"; "by_age-src1"]) (Some "by-age")
       (Some 0%Z) blank).2
    = Raise CollaboratorError.
Proof.
  pose proof (zero_idx_falls_back_to_request Sample.calm None None)
    as (_ & _ & Hk & _ & _ & _ & Hn & _).
  split; [exact (Hk 1%Z ltac:(discriminate))|].
  split; [exact (Hn "by-age" ltac:(discriminate))|]. clear Hk Hn.
  split; [|split].
  - destruct (zero_idx_falls_back_to_request (Sample.refusing ["by_age-src1"])
                (Some "by-age") None) as (_ & _ & _ & _ & _ & _ & _ & _ & _ & H).
    destruct (H blank "by-age" {| data_sources := ["by_age-src0"; "by_age-src1"] |}
                CollaboratorError) as (H1 & _).
    + reflexivity.
    + apply (bool_decide_unpack _). vm_compute. exact I.
    + exact calm_workspace_free.
    + reflexivity.
    + apply (H1 1%Z "by_age-src1"); [discriminate|reflexivity|].
      intros fs. reflexivity.
  - vm_compute. reflexivity.
  - destruct (zero_idx_falls_back_to_request
                (Sample.refusing ["by_age-src0"; "by_age-src1"])
                (Some "by-age") None) as (_ & _ & _ & _ & _ & _ & _ & _ & _ & H).
    destruct (H blank "by-age" {| data_sources := ["by_age-src0"; "by_age-src1"] |}
                CollaboratorError) as (_ & _ & _ & H4).
    + reflexivity.
    + apply (bool_decide_unpack _). vm_compute. exact I.
    + exact calm_workspace_free.
    + reflexivity.
    + apply H4; [reflexivity|]. intros fs. reflexivity.
Defined.
